(** * MemoryEmbeddingDB: the validation, service and route layers

    A shallow embedding of [middleware/validation.js], of
    [services/memoryEmbeddingService.js] and of [routes/memoryEmbeddings.js].

    JavaScript values are an inductive type.  A number is the rational it
    stands for, or [NaN] or one of the two infinities.  A text is read as the
    double nearest to it ([Js.double]); the four operations the program
    applies to numbers ([+], [/], [Math.floor] and [Math.ceil], all in the
    pagination summary) are exact, which is what JavaScript computes as long
    as the operands and the results are integers of at most 53 bits: a
    theorem that states such a result for arbitrary integers has that bound
    among its hypotheses.  Negative zero
    is not told from zero; the two print alike and differ only as divisors.
    A string is the list of the bytes of its UTF-8 encoding, and its length
    is counted in UTF-16 code units ([Js.utf16_length]).  Objects are
    association lists in insertion order; a thrown [Error] is its message.
    Each reading of the clock and each generated identifier is an explicit
    argument of the operation that makes it.

    Three things the sources call are not among them.  The validation
    library is modelled in [Joi], after its documented behaviour; the
    collection of the database client in [Store], after the contract the
    specification gives for it; and the error middleware of the application
    is not modelled: a handler that calls [next(error)] ends in [Next]. *)

From Stdlib Require Import String Ascii List ZArith QArith Qround Qreduction Qabs.
From Stdlib Require Import Lia Bool Sorting.Sorted DecimalString.
Import ListNotations.
Open Scope string_scope.
Open Scope list_scope.
Open Scope Z_scope.

(** ** JavaScript values *)

Module Js.

Inductive number : Type :=
| Fin (q : Q)
| NaN
| PosInf
| NegInf.

#[local] Unset Elimination Schemes.
Inductive value : Type :=
| Undefined
| Null
| Bool (b : bool)
| Num (n : number)
| Str (s : string)
| Arr (items : list value)
| Obj (props : list (string * value)).
#[local] Set Elimination Schemes.

(** An integer as a JavaScript number. *)
Definition int (z : Z) : value := Num (Fin (inject_Z z)).

Definition is_undefined (v : value) : bool :=
  match v with Undefined => true | _ => false end.

(** *** Arithmetic on numbers *)

Definition sign_inf (q : Q) : number :=
  if Qle_bool q 0%Q then NegInf else PosInf.

Definition num_add (a b : number) : number :=
  match a, b with
  | NaN, _ | _, NaN => NaN
  | PosInf, NegInf | NegInf, PosInf => NaN
  | PosInf, _ | _, PosInf => PosInf
  | NegInf, _ | _, NegInf => NegInf
  | Fin x, Fin y => Fin (Qred (x + y)%Q)
  end.

(** [a / b]: a division by zero is not an error in JavaScript; it yields
    [NaN] for [0 / 0] and an infinity otherwise. *)
Definition num_div (a b : number) : number :=
  match a, b with
  | NaN, _ | _, NaN => NaN
  | Fin x, Fin y =>
      if Qeq_bool y 0%Q
      then (if Qeq_bool x 0%Q then NaN else sign_inf x)
      else Fin (Qred (x / y)%Q)
  | Fin _, _ => Fin 0%Q
  | PosInf, Fin y => if Qle_bool 0%Q y then PosInf else NegInf
  | NegInf, Fin y => if Qle_bool 0%Q y then NegInf else PosInf
  | _, _ => NaN
  end.

(** [Math.floor] and [Math.ceil]. *)
Definition num_floor (a : number) : number :=
  match a with Fin x => Fin (inject_Z (Qfloor x)) | _ => a end.

Definition num_ceil (a : number) : number :=
  match a with Fin x => Fin (inject_Z (Qceiling x)) | _ => a end.

(** [a < b] on numbers: false as soon as one side is [NaN]. *)
Definition num_lt (a b : number) : bool :=
  match a, b with
  | NaN, _ | _, NaN => false
  | Fin x, Fin y => negb (Qle_bool y x)
  | NegInf, NegInf => false
  | NegInf, _ => true
  | _, PosInf => match a with PosInf => false | _ => true end
  | _, _ => false
  end.

Definition num_eqb (a b : number) : bool :=
  match a, b with
  | Fin x, Fin y => Qeq_bool x y
  | PosInf, PosInf | NegInf, NegInf => true
  | _, _ => false
  end.

Definition is_integer (q : Q) : bool := Qeq_bool q (inject_Z (Qfloor q)).

(** *** Strings and numbers *)

Definition is_space (c : ascii) : bool :=
  let n := nat_of_ascii c in
  orb (Nat.eqb n 32%nat) (andb (Nat.leb 9%nat n) (Nat.leb n 13%nat)).

(** The white space of two and of three bytes: U+00A0; U+1680, U+2000 to
    U+200A, U+2028, U+2029, U+202F, U+205F, U+3000 and U+FEFF. *)
Definition is_space2 (c1 c2 : ascii) : bool :=
  andb (Nat.eqb (nat_of_ascii c1) 194%nat) (Nat.eqb (nat_of_ascii c2) 160%nat).

Definition is_space3 (c1 c2 c3 : ascii) : bool :=
  let a := nat_of_ascii c1 in
  let b := nat_of_ascii c2 in
  let c := nat_of_ascii c3 in
  orb (andb (Nat.eqb a 225%nat) (andb (Nat.eqb b 154%nat) (Nat.eqb c 128%nat)))
   (orb (andb (Nat.eqb a 226%nat)
           (orb (andb (Nat.eqb b 128%nat)
                   (orb (andb (Nat.leb 128%nat c) (Nat.leb c 138%nat))
                      (orb (Nat.eqb c 168%nat)
                         (orb (Nat.eqb c 169%nat) (Nat.eqb c 175%nat)))))
                (andb (Nat.eqb b 129%nat) (Nat.eqb c 159%nat))))
      (orb (andb (Nat.eqb a 227%nat) (andb (Nat.eqb b 128%nat) (Nat.eqb c 128%nat)))
           (andb (Nat.eqb a 239%nat) (andb (Nat.eqb b 187%nat) (Nat.eqb c 191%nat))))).

Fixpoint drop_spaces (l : list ascii) : list ascii :=
  match l with
  | [] => []
  | c1 :: r1 =>
      if is_space c1 then drop_spaces r1
      else
        match r1 with
        | c2 :: r2 =>
            if is_space2 c1 c2 then drop_spaces r2
            else
              match r2 with
              | c3 :: r3 => if is_space3 c1 c2 c3 then drop_spaces r3 else l
              | [] => l
              end
        | [] => l
        end
  end.

(** Without the white space at its end. *)
Fixpoint drop_last_spaces (l : list ascii) : list ascii :=
  match l with
  | [] => []
  | c :: r =>
      match drop_spaces l with
      | [] => []
      | _ => c :: drop_last_spaces r
      end
  end.

Definition trim (l : list ascii) : list ascii := drop_last_spaces (drop_spaces l).

(** The length of a string in UTF-16 code units: one for each character of
    one, two or three bytes, two for each character of four. *)
Definition utf16_units (c : ascii) : nat :=
  let n := nat_of_ascii c in
  if andb (Nat.leb 128 n) (Nat.leb n 191) then 0
  else if Nat.leb 240 n then 2
  else 1.

Definition utf16_length (s : string) : nat :=
  fold_right (fun c n => (utf16_units c + n)%nat) O (list_ascii_of_string s).

(** *** Doubles *)

(** The nearest integer, the even one of two that are as near. *)
Definition round_half_even (x : Q) : Z :=
  let f := Qfloor x in
  match Qcompare (x - inject_Z f) (1 # 2) with
  | Lt => f
  | Gt => f + 1
  | Eq => if Z.even f then f else f + 1
  end.

Definition two_to (e : Z) : Q :=
  if 0 <=? e then inject_Z (2 ^ e) else (/ inject_Z (2 ^ (- e)))%Q.

(** The [e] with [2 ^ e <= a < 2 ^ (e + 1)], for a positive [a]. *)
Definition binary_exponent (a : Q) : Z :=
  let e := Z.log2 (Qnum a) - Z.log2 (Z.pos (Qden a)) in
  if Qle_bool (two_to e) a then e else e - 1.

(** The Number value for a rational: the nearest double (53 bits, exponents
    from -1074), the one with an even last bit of two that are as near, and
    an infinity from [2 ^ 1024 - 2 ^ 970] on. *)
Definition double (q : Q) : number :=
  if Qeq_bool q 0%Q then Fin 0%Q
  else
    let a := Qabs q in
    let p := Z.max (binary_exponent a - 52) (-1074) in
    let r := (inject_Z (round_half_even (a / two_to p)) * two_to p)%Q in
    if Qle_bool (two_to 1024) r
    then (if Qle_bool 0%Q q then PosInf else NegInf)
    else Fin (Qred (if Qle_bool 0%Q q then r else - r)).

(** The value of a digit in a radix up to 16. *)
Definition digit_of (radix : Z) (c : ascii) : option Z :=
  let n := Z.of_nat (nat_of_ascii c) in
  let d := if andb (48 <=? n) (n <=? 57) then n - 48
           else if andb (97 <=? n) (n <=? 102) then n - 87
           else if andb (65 <=? n) (n <=? 70) then n - 55
           else 99 in
  if d <? radix then Some d else None.

(** The longest prefix of digits, its value so far, and what follows. *)
Fixpoint digits (radix : Z) (acc : Z) (count : nat) (l : list ascii)
  : Z * nat * list ascii :=
  match l with
  | c :: r =>
      match digit_of radix c with
      | Some d => digits radix (acc * radix + d) (S count) r
      | None => (acc, count, l)
      end
  | [] => (acc, count, [])
  end.

Definition pow10 (e : Z) : Q :=
  if 0 <=? e then inject_Z (10 ^ e) else (/ inject_Z (10 ^ (- e)))%Q.

Definition signed (l : list ascii) : bool * list ascii :=
  match l with
  | "-"%char :: r => (true, r)
  | "+"%char :: r => (false, r)
  | _ => (false, l)
  end.

(** A decimal literal: digits, an optional fraction, an optional exponent;
    the whole input must be consumed. *)
Definition exponent (l : list ascii) : option Z :=
  match l with
  | [] => Some 0
  | c :: r =>
      if orb (Ascii.eqb c "e") (Ascii.eqb c "E") then
        let '(neg, r1) := signed r in
        match digits 10 0 O r1 with
        | (_, O, _) => None
        | (e, _, []) => Some (if neg then (- e)%Z else e)
        | _ => None
        end
      else None
  end.

Definition unsigned_decimal (l : list ascii) : option Q :=
  let '(ip, ni, r1) := digits 10 0 O l in
  let '(fp, nf, r2) :=
    match r1 with
    | "."%char :: r => digits 10 0 O r
    | _ => (0%Z, O, r1)
    end in
  let dotted := match r1 with "."%char :: _ => true | _ => false end in
  if andb (Nat.eqb ni O) (Nat.eqb nf O) then None
  else if andb (andb dotted (Nat.eqb nf O)) (Nat.eqb ni O) then None
  else
    match exponent r2 with
    | Some e =>
        Some (Qred ((inject_Z ip + inject_Z fp * pow10 (- Z.of_nat nf)) * pow10 e)%Q)
    | None => None
    end.

Definition decimal (l : list ascii) : option Q :=
  let '(neg, r) := signed l in
  match unsigned_decimal r with
  | Some q => Some (if neg then Qred (- q)%Q else q)
  | None => None
  end.

Definition prefixed (radix : Z) (l : list ascii) : number :=
  match digits radix 0 O l with
  | (n, S _, []) => double (inject_Z n)
  | _ => NaN
  end.

(** Conversion of a string to a number, as the operators [/], [<] and [>]
    apply it to a string operand: the double nearest to what is written. *)
Definition string_to_number (s : string) : number :=
  let l := trim (list_ascii_of_string s) in
  match l with
  | [] => Fin 0%Q
  | "0"%char :: "x"%char :: r | "0"%char :: "X"%char :: r => prefixed 16 r
  | "0"%char :: "o"%char :: r | "0"%char :: "O"%char :: r => prefixed 8 r
  | "0"%char :: "b"%char :: r | "0"%char :: "B"%char :: r => prefixed 2 r
  | _ =>
      let '(neg, r) := signed l in
      if String.eqb (string_of_list_ascii r) "Infinity"
      then (if neg then NegInf else PosInf)
      else match decimal l with Some q => double q | None => NaN end
  end.

(** [parseInt(s)] without a radix: leading blanks, a sign, then the longest
    run of digits (hexadecimal after [0x]), as the double nearest to it;
    [NaN] when there is none. *)
Definition parseInt (s : string) : number :=
  let '(neg, r) := signed (drop_spaces (list_ascii_of_string s)) in
  let '(n, count, _) :=
    match r with
    | "0"%char :: "x"%char :: h | "0"%char :: "X"%char :: h => digits 16 0 O h
    | _ => digits 10 0 O r
    end in
  match count with
  | O => NaN
  | S _ => double (inject_Z (if neg then - n else n))
  end.

(** The exponent a decimal literal may end with, read as far as it is
    well formed: an [e] with no digits after it counts for nothing. *)
Definition exponent_prefix (l : list ascii) : Z :=
  match l with
  | c :: r =>
      if orb (Ascii.eqb c "e") (Ascii.eqb c "E") then
        let '(neg, r1) := signed r in
        match digits 10 0 O r1 with
        | (_, O, _) => 0
        | (e, _, _) => if neg then - e else e
        end
      else 0
  | [] => 0
  end.

(** [parseFloat(s)]: leading blanks, then the longest prefix that reads as a
    decimal literal, as the double nearest to it; [NaN] when there is
    none. *)
Definition parseFloat (s : string) : number :=
  let '(neg, r) := signed (drop_spaces (list_ascii_of_string s)) in
  if String.prefix "Infinity" (string_of_list_ascii r)
  then (if neg then NegInf else PosInf)
  else
    let '(ip, ni, r1) := digits 10 0 O r in
    let '(fp, nf, r2) :=
      match r1 with
      | "."%char :: f => digits 10 0 O f
      | _ => (0, O, r1)
      end in
    if andb (Nat.eqb ni O) (Nat.eqb nf O) then NaN
    else
      let q := ((inject_Z ip + inject_Z fp * pow10 (- Z.of_nat nf))
                * pow10 (exponent_prefix r2))%Q in
      double (if neg then - q else q).

(** [s.includes(t)] *)
Fixpoint includes (s t : string) : bool :=
  orb (String.prefix t s)
      match s with
      | EmptyString => false
      | String _ r => includes r t
      end.

(** *** Rendering *)

(** The fraction digits of [r / d] by long division, at most [fuel] of them. *)
Fixpoint fraction_digits (fuel : nat) (r d : Z) : list Z :=
  match fuel with
  | O => []
  | S f => if r =? 0 then [] else (10 * r / d) :: fraction_digits f (10 * r mod d) d
  end.

Definition digit_string (d : Z) : string := NilZero.string_of_int (Z.to_int d).

(** [String(n)].  Integers, [NaN] and the infinities are rendered as
    JavaScript renders them; another finite value is written with its decimal
    expansion, cut after seventeen digits. *)
Definition number_to_string (n : number) : string :=
  match n with
  | NaN => "NaN"
  | PosInf => "Infinity"
  | NegInf => "-Infinity"
  | Fin q =>
      if is_integer q then digit_string (Qfloor q)
      else
        let a := Qabs q in
        let ip := Qfloor a in
        let r := Qnum a - ip * Z.pos (Qden a) in
        String.append (if Qle_bool 0%Q q then "" else "-")
          (String.append (digit_string ip)
             (String.append "."
                (String.concat "" (map digit_string
                                     (fraction_digits 17 r (Z.pos (Qden a)))))))
  end.

Fixpoint to_string (v : value) : string :=
  match v with
  | Undefined => "undefined"
  | Null => "null"
  | Bool true => "true"
  | Bool false => "false"
  | Num n => number_to_string n
  | Str s => s
  | Arr items =>
      String.concat ","
        (map (fun x => match x with
                       | Undefined | Null => ""
                       | _ => to_string x
                       end) items)
  | Obj _ => "[object Object]"
  end.

Definition to_number (v : value) : number :=
  match v with
  | Undefined => NaN
  | Null => Fin 0%Q
  | Bool true => Fin 1%Q
  | Bool false => Fin 0%Q
  | Num n => n
  | Str s => string_to_number s
  | Arr _ | Obj _ => string_to_number (to_string v)
  end.

(** Whether the operand is a string once reduced to a primitive. *)
Definition stringy (v : value) : bool :=
  match v with Str _ | Arr _ | Obj _ => true | _ => false end.

(** [a + b]: concatenation as soon as one operand is a string. *)
Definition plus (a b : value) : value :=
  if orb (stringy a) (stringy b)
  then Str (String.append (to_string a) (to_string b))
  else Num (num_add (to_number a) (to_number b)).

(** [a / b], [Math.floor(a)], [Math.ceil(a)]. *)
Definition div (a b : value) : value := Num (num_div (to_number a) (to_number b)).
Definition floor (a : value) : value := Num (num_floor (to_number a)).
Definition ceil (a : value) : value := Num (num_ceil (to_number a)).

(** [a < b] and [a > b]: by code units when both sides are strings, on
    numbers otherwise. *)
Definition lt (a b : value) : bool :=
  if andb (stringy a) (stringy b)
  then String.ltb (to_string a) (to_string b)
  else num_lt (to_number a) (to_number b).

Definition gt (a b : value) : bool := lt b a.

(** The condition of an [if]: what JavaScript calls truthy. *)
Definition truthy (v : value) : bool :=
  match v with
  | Undefined | Null => false
  | Bool b => b
  | Num (Fin q) => negb (Qeq_bool q 0%Q)
  | Num NaN => false
  | Num _ => true
  | Str s => negb (String.eqb s "")
  | Arr _ | Obj _ => true
  end.

(** [a === b] on primitive values.  Two objects are equal only when they
    are the same object, which no comparison in this program relies on. *)
Definition strict_eq (a b : value) : bool :=
  match a, b with
  | Undefined, Undefined | Null, Null => true
  | Bool x, Bool y => Bool.eqb x y
  | Num x, Num y => num_eqb x y
  | Str x, Str y => String.eqb x y
  | _, _ => false
  end.

(** [a || b]. *)
Definition or_else (a b : value) : value := if truthy a then a else b.

(** A destructuring default, [{ x = d } = o]: only [undefined] is replaced. *)
Definition default (d v : value) : value :=
  match v with Undefined => d | _ => v end.

(** *** Properties of objects *)

Fixpoint lookup (k : string) (props : list (string * value)) : option value :=
  match props with
  | [] => None
  | (k', v) :: r => if String.eqb k k' then Some v else lookup k r
  end.

(** [undefined] and [null]: reading a property of either throws a
    [TypeError], which the callers below test for with [reading]. *)
Definition nullish (v : value) : bool :=
  match v with Undefined | Null => true | _ => false end.

(** [o.k]: [undefined] when the property is absent. *)
Definition get (o : value) (k : string) : value :=
  match o with
  | Obj props => match lookup k props with Some v => v | None => Undefined end
  | _ => Undefined
  end.

(** [o.k = v]: in place when the property exists, appended otherwise. *)
Fixpoint assign (k : string) (v : value) (props : list (string * value))
  : list (string * value) :=
  match props with
  | [] => [(k, v)]
  | (k', v') :: r =>
      if String.eqb k k' then (k, v) :: r else (k', v') :: assign k v r
  end.

Definition keys (props : list (string * value)) : list string := map fst props.

(** The assignments of [fields], in order. *)
Definition assign_all (fields into : list (string * value)) : list (string * value) :=
  fold_left (fun acc f => assign (fst f) (snd f) acc) fields into.

Definition has_key (k : string) (o : value) : bool :=
  match o with
  | Obj props => match lookup k props with Some _ => true | None => false end
  | _ => false
  end.

(** [a.length] of an array or of a string. *)
Definition length (v : value) : value :=
  match v with
  | Arr items => int (Z.of_nat (List.length items))
  | Str s => int (Z.of_nat (utf16_length s))
  | _ => Undefined
  end.

(** Structural equality, as a document store compares a field with a
    literal. *)
Fixpoint eqb (a b : value) : bool :=
  match a, b with
  | Undefined, Undefined | Null, Null => true
  | Bool x, Bool y => Bool.eqb x y
  | Num x, Num y => num_eqb x y
  | Str x, Str y => String.eqb x y
  | Arr xs, Arr ys =>
      (fix all2 (l1 l2 : list value) : bool :=
         match l1, l2 with
         | [], [] => true
         | x :: r1, y :: r2 => andb (eqb x y) (all2 r1 r2)
         | _, _ => false
         end) xs ys
  | Obj ps, Obj qs =>
      (fix all2 (l1 : list (string * value)) (l2 : list (string * value)) : bool :=
         match l1, l2 with
         | [], [] => true
         | (k1, x) :: r1, (k2, y) :: r2 =>
             andb (String.eqb k1 k2) (andb (eqb x y) (all2 r1 r2))
         | _, _ => false
         end) ps qs
  | _, _ => false
  end.

(** The order a store sorts and compares by: numbers by value, strings by
    code units, and across kinds by kind. *)
Definition rank (v : value) : Z :=
  match v with
  | Undefined => 0 | Null => 1 | Num _ => 2 | Str _ => 3
  | Obj _ => 4 | Arr _ => 5 | Bool _ => 6
  end.

Definition leb (a b : value) : bool :=
  match a, b with
  | Num x, Num y => negb (num_lt y x)
  | Str x, Str y => String.leb x y
  | _, _ => rank a <=? rank b
  end.

(** *** Dates *)

Definition two (z : Z) : string :=
  String.append (digit_string (z / 10 mod 10)) (digit_string (z mod 10)).

Definition three (z : Z) : string :=
  String.append (digit_string (z / 100 mod 10)) (two z).

Definition year_string (y : Z) : string :=
  if andb (0 <=? y) (y <=? 9999) then String.append (two (y / 100)) (two y)
  else String.append (if y <? 0 then "-" else "+")
         (String.append (two (Z.abs y / 10000))
            (String.append (two (Z.abs y / 100)) (two (Z.abs y)))).

(** [new Date(ms).toISOString()], [ms] being milliseconds since the epoch:
    the proleptic Gregorian date and the time of day, in UTC. *)
Definition toISOString (ms : Z) : string :=
  let days := ms / 86400000 in
  let tod := ms mod 86400000 in
  let z := days + 719468 in
  let era := z / 146097 in
  let doe := z mod 146097 in
  let yoe := (doe - doe / 1460 + doe / 36524 - doe / 146096) / 365 in
  let doy := doe - (365 * yoe + yoe / 4 - yoe / 100) in
  let mp := (5 * doy + 2) / 153 in
  let d := doy - (153 * mp + 2) / 5 + 1 in
  let m := if mp <? 10 then mp + 3 else mp - 9 in
  let y := yoe + era * 400 + (if m <=? 2 then 1 else 0) in
  String.concat ""
    [year_string y; "-"; two m; "-"; two d; "T";
     two (tod / 3600000); ":"; two (tod / 60000 mod 60); ":";
     two (tod / 1000 mod 60); "."; three (tod mod 1000); "Z"].

End Js.


(** ** The validation library

    The schemas of [middleware/validation.js] are [Joi] schemas.  This is the
    part of that library they use, with the options the middleware passes:
    [abortEarly: false] (every violation is reported), [stripUnknown: true]
    (an undeclared key is dropped from the validated copy without an error)
    and the default [convert: true] (a numeric string is accepted where a
    number is expected).  A violation carries the library's error code; the
    default wording of a message is represented by that code. *)

Module Joi.
Import Js.

Inductive rule : Type :=
| Min (n : Z)
| Max (n : Z)
| Length (n : Z)
| Integer
| Valid (allowed : list string)
| Uuid
| Iso.

Record opts : Type := {
  rules : list rule;          (* in the order they were chained *)
  is_required : bool;
  default_value : option value;
  custom : list (string * string)  (* messages({ code: text }) *)
}.

Inductive base : Type := TNumber | TString | TDate.

#[local] Unset Elimination Schemes.
Inductive schema : Type :=
| Scalar (b : base) (o : opts)
| Array (item : option schema) (o : opts)
| Object (children : option (list (string * schema))) (o : opts).
#[local] Set Elimination Schemes.

Record violation : Type := {
  path : list string;
  code : string;
  text : string
}.

Definition options (s : schema) : opts :=
  match s with Scalar _ o | Array _ o | Object _ o => o end.

(** *** Recognisers *)

Inductive cls : Type := Digit | Hex | Lit (c : ascii).

Definition in_cls (k : cls) (c : ascii) : bool :=
  match k with
  | Digit => match digit_of 10 c with Some _ => true | None => false end
  | Hex => match digit_of 16 c with Some _ => true | None => false end
  | Lit c' => Ascii.eqb c c'
  end.

Fixpoint matches (p : list cls) (l : list ascii) : bool :=
  match p, l with
  | [], [] => true
  | k :: p', c :: l' => andb (in_cls k c) (matches p' l')
  | _, _ => false
  end.

Definition hexes (n : nat) : list cls := repeat Hex n.

Definition guid_pattern (open_ : list cls) (s1 s2 s3 s4 : list cls)
  (close : list cls) : list cls :=
  open_ ++ hexes 8 ++ s1 ++ hexes 4 ++ s2 ++ hexes 4 ++ s3 ++ hexes 4
        ++ s4 ++ hexes 12 ++ close.

(** [string().uuid()]: thirty-two hexadecimal digits in groups of 8, 4, 4, 4
    and 12, optionally wrapped in a pair of brackets.  The first two groups
    are separated by nothing, by [-] or by [:]; each later separator is that
    one again or is left out. *)
Definition is_guid (s : string) : bool :=
  let l := list_ascii_of_string s in
  existsb (fun w : list cls * list cls =>
    existsb (fun s1 =>
      existsb (fun s2 =>
        existsb (fun s3 =>
          existsb (fun s4 => matches (guid_pattern (fst w) s1 s2 s3 s4 (snd w)) l)
                  [[]; s1])
                [[]; s1])
              [[]; s1])
            [[]; [Lit "-"]; [Lit ":"]])
          [([], []); ([Lit "{"], [Lit "}"]); ([Lit "["], [Lit "]"]);
           ([Lit "("], [Lit ")"])].

(** A field of [n] digits with a value from [lo] to [hi], and what follows
    it. *)
Definition field (n : nat) (lo hi : Z) (l : list ascii) : option (list ascii) :=
  match digits 10 0 O (firstn n l) with
  | (v, count, []) =>
      if andb (Nat.eqb count n) (andb (lo <=? v) (v <=? hi))
      then Some (skipn n l) else None
  | _ => None
  end.

Definition then_ (r : option (list ascii)) (k : list ascii -> bool) : bool :=
  match r with Some l => k l | None => false end.

(** The zone a time may end with: none, [Z], or hours and minutes after a
    sign. *)
Definition iso_zone (l : list ascii) : bool :=
  match l with
  | [] => true
  | ["Z"%char] => true
  | c :: r =>
      andb (orb (Ascii.eqb c "+") (Ascii.eqb c "-"))
           (then_ (field 2 0 23 r) (fun r1 =>
              match r1 with
              | ":"%char :: r2 =>
                  then_ (field 2 0 59 r2) (fun r3 => match r3 with [] => true | _ => false end)
              | _ => false
              end))
  end.

(** A fraction of a second, if any, then the zone. *)
Definition iso_fraction (l : list ascii) : bool :=
  match l with
  | "."%char :: r =>
      match digits 10 0 O r with
      | (_, S _, r1) => iso_zone r1
      | _ => false
      end
  | _ => iso_zone l
  end.

(** Hours and minutes, then seconds if any. *)
Definition iso_time (l : list ascii) : bool :=
  then_ (field 2 0 23 l) (fun r1 =>
    match r1 with
    | ":"%char :: r2 =>
        then_ (field 2 0 59 r2) (fun r3 =>
          match r3 with
          | ":"%char :: r4 => then_ (field 2 0 59 r4) iso_fraction
          | _ => iso_zone r3
          end)
    | _ => false
    end).

(** [date().iso()]: a text is taken when it is written in a form of ISO
    8601 and the engine reads it as a date.  The forms below are those of
    the date-time format of the language: a year, a year and a month, or a
    calendar date, the date alone or followed by [T] and a time of day to
    the minute, the second or a fraction of it, with an optional zone; the
    month is from 01 to 12, the day from 01 to 31, and so on.  The library
    takes further forms (week dates, ordinal dates, dates and times without
    separators, midnight as [24:00]), for which the reading is the engine's:
    they are refused here. *)
Definition is_iso_date (s : string) : bool :=
  then_ (field 4 0 9999 (list_ascii_of_string s)) (fun r1 =>
    match r1 with
    | [] => true
    | "-"%char :: r2 =>
        then_ (field 2 1 12 r2) (fun r3 =>
          match r3 with
          | [] => true
          | "-"%char :: r4 =>
              then_ (field 2 1 31 r4) (fun r5 =>
                match r5 with
                | [] => true
                | "T"%char :: r6 => iso_time r6
                | _ => false
                end)
          | _ => false
          end)
    | _ => false
    end).

(** *** Violations *)

Definition dotted (p : list string) : string := String.concat "." p.

Definition violate (o : opts) (p : list string) (c : string) : violation :=
  {| path := p; code := c;
     text := match find (fun m => String.eqb c (fst m)) (custom o) with
             | Some m => snd m
             | None => String.append (dotted p) (String.append ": " c)
             end |}.

(** The number a value stands for where a number is expected: the number
    itself, or what a string that reads as a decimal literal between white
    space is converted to, as [parseFloat] converts it. *)
Definition as_number (v : value) : option number :=
  match v with
  | Num n => Some n
  | Str s => match decimal (trim (list_ascii_of_string s)) with
             | Some q => Some (double q)
             | None => None
             end
  | _ => None
  end.

Definition max_safe_integer : Q := inject_Z 9007199254740991.

Definition number_rule (o : opts) (p : list string) (q : Q) (r : rule)
  : list violation :=
  match r with
  | Min n => if Qle_bool (inject_Z n) q then [] else [violate o p "number.min"]
  | Max n => if Qle_bool q (inject_Z n) then [] else [violate o p "number.max"]
  | Integer => if is_integer q then [] else [violate o p "number.integer"]
  | _ => []
  end.

(** *** Numbers in print *)

(** The [n] with [10 ^ (n - 1) <= x < 10 ^ n], for a positive [x]: looked
    for from a bound below it that the binary exponent gives. *)
Fixpoint above (fuel : nat) (x : Q) (n : Z) : Z :=
  match fuel with
  | O => n
  | S f => if Qle_bool (pow10 n) x then above f x (n + 1) else n
  end.

Definition decimal_exponent (x : Q) : Z :=
  above 4 x (binary_exponent x * 30103 / 100000 - 1).

Definition reads_as (x v : Q) : bool :=
  match double v with Fin y => Qeq_bool y x | _ => false end.

(** The decimal of [k] significant digits that is read as [x], if any: the
    nearer of the two next to [x], the one with an even last digit when
    they are as near. *)
Definition with_digits (x : Q) (n k : Z) : option Q :=
  let scale := pow10 (n - k) in
  let s := Qfloor (x / scale) in
  let lo := (inject_Z s * scale)%Q in
  let hi := (lo + scale)%Q in
  match reads_as x lo, reads_as x hi with
  | true, true =>
      Some match Qcompare (x - lo) (hi - x) with
           | Lt => lo
           | Gt => hi
           | Eq => if Z.even s then lo else hi
           end
  | true, false => Some lo
  | false, true => Some hi
  | false, false => None
  end.

Fixpoint fewest_digits (fuel : nat) (x : Q) (n k : Z) : Q :=
  match fuel with
  | O => x
  | S f =>
      match with_digits x n k with
      | Some v => v
      | None => fewest_digits f x n (k + 1)
      end
  end.

(** What [String(x)] writes for a double [x], as a rational: of the decimals
    with the fewest significant digits that are read as [x], the nearest to
    it.  Seventeen digits are enough for any double. *)
Definition printed (x : Q) : Q :=
  if Qeq_bool x 0%Q then 0%Q
  else
    let a := Qabs x in
    let v := fewest_digits 17 a (decimal_exponent a) 1 in
    Qred (if Qle_bool 0%Q x then v else - v).

(** Whether [String(x)] is written with an exponent: from [1e21] on, and
    below [1e-6]. *)
Definition exponential (x : Q) : bool :=
  andb (negb (Qeq_bool x 0%Q))
       (orb (Qle_bool (pow10 21) (Qabs x)) (negb (Qle_bool (pow10 (-6)) (Qabs x)))).

Definition has_exponent (l : list ascii) : bool :=
  existsb (fun c => orb (Ascii.eqb c "e") (Ascii.eqb c "E")) l.

(** A text is unsafe when the double it is converted to does not print with
    the digits of the text: the library normalises both and compares them,
    which is compared here as the values they stand for.  A text without an
    exponent is not tested when the double prints with one. *)
Definition unsafe_text (l : list ascii) (q x : Q) : bool :=
  negb (orb (andb (negb (has_exponent l)) (exponential x))
            (Qeq_bool q (printed x))).

Definition check_finite (o : opts) (p : list string) (q : Q) : list violation :=
  if Qle_bool (Qabs q) max_safe_integer
  then flat_map (number_rule o p q) (rules o)
  else [violate o p "number.unsafe"].

(** A number is checked as it is; a text is converted first, and refused
    when it does not read as a number or is unsafe. *)
Definition check_number (o : opts) (p : list string) (v : value) : list violation :=
  match v with
  | Num (Fin q) => check_finite o p q
  | Num NaN => [violate o p "number.base"]
  | Num _ => [violate o p "number.infinity"]
  | Str s =>
      let l := trim (list_ascii_of_string s) in
      match decimal l with
      | Some q =>
          match double q with
          | Fin x =>
              if unsafe_text l q x then [violate o p "number.unsafe"]
              else check_finite o p x
          | NaN => [violate o p "number.base"]
          | _ => [violate o p "number.infinity"]
          end
      | None => [violate o p "number.base"]
      end
  | _ => [violate o p "number.base"]
  end.

Definition allowed_values (o : opts) : option (list string) :=
  fold_right (fun r acc => match r with Valid l => Some l | _ => acc end)
             None (rules o).

Definition string_rule (o : opts) (p : list string) (s : string) (r : rule)
  : list violation :=
  match r with
  | Min n => if n <=? Z.of_nat (utf16_length s) then [] else [violate o p "string.min"]
  | Max n => if Z.of_nat (utf16_length s) <=? n then [] else [violate o p "string.max"]
  | Uuid => if is_guid s then [] else [violate o p "string.guid"]
  | _ => []
  end.

Definition check_string (o : opts) (p : list string) (v : value) : list violation :=
  match v with
  | Str s =>
      match allowed_values o with
      | Some l =>
          if existsb (String.eqb s) l then [] else [violate o p "any.only"]
      | None =>
          if String.eqb s "" then [violate o p "string.empty"]
          else flat_map (string_rule o p s) (rules o)
      end
  | _ =>
      match allowed_values o with
      | Some _ => [violate o p "any.only"; violate o p "string.base"]
      | None => [violate o p "string.base"]
      end
  end.

Definition date_rule (o : opts) (p : list string) (s : string) (r : rule)
  : list violation :=
  match r with
  | Iso => if is_iso_date s then [] else [violate o p "date.format"]
  | _ => []
  end.

Definition check_date (o : opts) (p : list string) (v : value) : list violation :=
  match v with
  | Str s => flat_map (date_rule o p s) (rules o)
  | _ => [violate o p "date.base"]
  end.

Definition array_rule (o : opts) (p : list string) (n : Z) (r : rule)
  : list violation :=
  match r with
  | Length k => if n =? k then [] else [violate o p "array.length"]
  | Min k => if k <=? n then [] else [violate o p "array.min"]
  | Max k => if n <=? k then [] else [violate o p "array.max"]
  | _ => []
  end.

(** *** Validation *)

(** The violations of [v] against [s], [p] being the path of [v] in the
    request.  An absent value violates a schema only when it is required;
    [null] is a value of no type. *)
Fixpoint check (s : schema) (p : list string) (v : value) {struct s}
  : list violation :=
  match v with
  | Undefined =>
      if is_required (options s) then [violate (options s) p "any.required"] else []
  | _ =>
      match s with
      | Scalar TNumber o => check_number o p v
      | Scalar TString o => check_string o p v
      | Scalar TDate o => check_date o p v
      | Array item o =>
          match v with
          | Arr elems =>
              (fix each (i : Z) (l : list value) : list violation :=
                 match l with
                 | [] => []
                 | x :: r =>
                     match x with
                     | Undefined => [violate o (p ++ [digit_string i]) "array.sparse"]
                     | _ =>
                         match item with
                         | Some it => check it (p ++ [digit_string i]) x
                         | None => []
                         end
                     end ++ each (i + 1) r
                 end) 0 elems
              ++ flat_map (array_rule o p (Z.of_nat (List.length elems))) (rules o)
          | _ => [violate o p "array.base"]
          end
      | Object children o =>
          match v with
          | Obj _ =>
              match children with
              | Some declared =>
                  (fix each (l : list (string * schema)) : list violation :=
                     match l with
                     | [] => []
                     | (k, sub) :: r => check sub (p ++ [k]) (get v k) ++ each r
                     end) declared
              | None => []
              end
          | _ => [violate o p "object.base"]
          end
      end
  end.

(** The two loops of [check], by name. *)

(** The violations of the items of an array, from index [i]. *)
Fixpoint item_violations (o : opts) (item : option schema) (p : list string)
  (i : Z) (l : list value) : list violation :=
  match l with
  | [] => []
  | x :: r =>
      match x with
      | Undefined => [violate o (p ++ [digit_string i]) "array.sparse"]
      | _ => match item with
             | Some it => check it (p ++ [digit_string i]) x
             | None => []
             end
      end ++ item_violations o item p (i + 1) r
  end.

Definition child_violations (p : list string) (v : value)
  (declared : list (string * schema)) : list violation :=
  flat_map (fun ks => check (snd ks) (p ++ [fst ks]) (get v (fst ks))) declared.

(** The codes of some violations. *)
Definition codes (l : list violation) : list string := map code l.

(** [schema.validate(value, options).error]: the violations, from the root. *)
Definition validate (s : schema) (v : value) : list violation := check s [] v.

(** *** The fluent constructors *)

Definition plain : opts :=
  {| rules := []; is_required := false; default_value := None; custom := [] |}.

Definition with_opts (f : opts -> opts) (s : schema) : schema :=
  match s with
  | Scalar b o => Scalar b (f o)
  | Array i o => Array i (f o)
  | Object c o => Object c (f o)
  end.

Definition add (r : rule) : schema -> schema :=
  with_opts (fun o => {| rules := rules o ++ [r]; is_required := is_required o;
                         default_value := default_value o; custom := custom o |}).

Definition number : schema := Scalar TNumber plain.
Definition string : schema := Scalar TString plain.
Definition date : schema := Scalar TDate plain.
Definition array : schema := Array None plain.
Definition object (children : list (String.string * schema)) : schema :=
  Object (Some children) plain.
Definition any_object : schema := Object None plain.

Definition items (it : schema) (s : schema) : schema :=
  match s with Array _ o => Array (Some it) o | _ => s end.

Definition min (n : Z) := add (Min n).
Definition max (n : Z) := add (Max n).
Definition length (n : Z) := add (Length n).
Definition integer := add Integer.
Definition valid (l : list String.string) := add (Valid l).
Definition uuid := add Uuid.
Definition iso := add Iso.

Definition required : schema -> schema :=
  with_opts (fun o => {| rules := rules o; is_required := true;
                         default_value := default_value o; custom := custom o |}).

Definition optional : schema -> schema :=
  with_opts (fun o => {| rules := rules o; is_required := false;
                         default_value := default_value o; custom := custom o |}).

Definition default (d : value) : schema -> schema :=
  with_opts (fun o => {| rules := rules o; is_required := is_required o;
                         default_value := Some d; custom := custom o |}).

Definition messages (m : list (String.string * String.string)) : schema -> schema :=
  with_opts (fun o => {| rules := rules o; is_required := is_required o;
                         default_value := default_value o; custom := custom o ++ m |}).

End Joi.

(** [s .> f] chains a constructor, as [s.f(...)] does. *)
Notation "s .> f" := (f s) (at level 45, left associativity, only parsing).

(** ** HTTP responses *)

Module Http.
Import Js.

(** What a handler does with a request: [res.status(s).json(body)], or
    [next(error)], which hands the error to the application's error
    middleware. *)
Inductive response : Type :=
| Json (status : Z) (body : value)
| Next (message : string).

Definition status_of (r : response) : option Z :=
  match r with Json s _ => Some s | Next _ => None end.

End Http.

(** ** [middleware/validation.js] *)

Module Validation.
Import Js Http.

(** Gate scores schema *)
Definition gateScoresSchema : Joi.schema :=
  Joi.object [
    ("forget_score", Joi.number .> Joi.min 0 .> Joi.max 1 .> Joi.required);
    ("input_score", Joi.number .> Joi.min 0 .> Joi.max 1 .> Joi.required);
    ("output_score", Joi.number .> Joi.min 0 .> Joi.max 1 .> Joi.required);
    ("confidence", Joi.number .> Joi.min 0 .> Joi.max 1 .> Joi.required)
  ].

Definition memory_types : list string :=
  ["conversation"; "event"; "emotion"; "insight"].

(** Memory embedding validation schema *)
Definition memoryEmbeddingSchema : Joi.schema :=
  Joi.object [
    ("user_id", Joi.string .> Joi.uuid .> Joi.required);
    ("memory_type", Joi.string .> Joi.valid memory_types .> Joi.required);
    ("content_summary", Joi.string .> Joi.min 1 .> Joi.max 5000 .> Joi.required);
    ("original_entry_id", Joi.string .> Joi.uuid .> Joi.required);
    ("importance_score", Joi.number .> Joi.min 0 .> Joi.max 1 .> Joi.required);
    ("emotional_significance", Joi.number .> Joi.min 0 .> Joi.max 1 .> Joi.required);
    ("temporal_relevance", Joi.number .> Joi.min 0 .> Joi.max 1 .> Joi.required);
    ("access_frequency", Joi.number .> Joi.integer .> Joi.min 0 .> Joi.default (int 0));
    ("feature_vector",
      Joi.array .> Joi.items Joi.number .> Joi.length 90 .> Joi.required
        .> Joi.messages [
             ("array.base", "Feature vector must be an array of numbers");
             ("array.length", "Feature vector must have exactly 90 dimensions");
             ("any.required", "Feature vector is required")]);
    ("gate_scores", gateScoresSchema .> Joi.required);
    ("relationships",
      Joi.array .> Joi.items (Joi.string .> Joi.uuid) .> Joi.default (Arr []));
    ("context_needed", Joi.any_object .> Joi.default (Obj []));
    ("retrieval_triggers",
      Joi.array .> Joi.items Joi.string .> Joi.default (Arr []))
  ].

(** Update memory embedding schema (partial) *)
Definition updateMemoryEmbeddingSchema : Joi.schema :=
  Joi.object [
    ("content_summary", Joi.string .> Joi.min 1 .> Joi.max 5000 .> Joi.optional);
    ("importance_score", Joi.number .> Joi.min 0 .> Joi.max 1 .> Joi.optional);
    ("emotional_significance", Joi.number .> Joi.min 0 .> Joi.max 1 .> Joi.optional);
    ("temporal_relevance", Joi.number .> Joi.min 0 .> Joi.max 1 .> Joi.optional);
    ("access_frequency", Joi.number .> Joi.integer .> Joi.min 0 .> Joi.optional);
    ("feature_vector",
      Joi.array .> Joi.items Joi.number .> Joi.length 90 .> Joi.optional);
    ("gate_scores", gateScoresSchema .> Joi.optional);
    ("relationships",
      Joi.array .> Joi.items (Joi.string .> Joi.uuid) .> Joi.optional);
    ("context_needed", Joi.any_object .> Joi.optional);
    ("retrieval_triggers", Joi.array .> Joi.items Joi.string .> Joi.optional)
  ].

Definition dateRangeSchema : Joi.schema :=
  Joi.object [
    ("start", Joi.date .> Joi.iso .> Joi.optional);
    ("end", Joi.date .> Joi.iso .> Joi.optional)
  ] .> Joi.optional.

(** Similarity search schema *)
Definition similaritySearchSchema : Joi.schema :=
  Joi.object [
    ("feature_vector",
      Joi.array .> Joi.items Joi.number .> Joi.length 90 .> Joi.required
        .> Joi.messages [
             ("array.length",
              "Feature vector must have exactly 90 dimensions for similarity search")]);
    ("limit", Joi.number .> Joi.integer .> Joi.min 1 .> Joi.max 100
                .> Joi.default (int 10));
    ("filters",
      Joi.object [
        ("user_id", Joi.string .> Joi.uuid .> Joi.optional);
        ("memory_type", Joi.string .> Joi.valid memory_types .> Joi.optional);
        ("min_importance_score", Joi.number .> Joi.min 0 .> Joi.max 1 .> Joi.optional);
        ("min_emotional_significance",
          Joi.number .> Joi.min 0 .> Joi.max 1 .> Joi.optional);
        ("min_temporal_relevance", Joi.number .> Joi.min 0 .> Joi.max 1 .> Joi.optional);
        ("date_range", dateRangeSchema);
        ("retrieval_triggers", Joi.array .> Joi.items Joi.string .> Joi.optional)
      ] .> Joi.optional .> Joi.default (Obj []))
  ].

(** Batch schema for multiple memory embeddings *)
Definition batchSchema : Joi.schema :=
  Joi.object [
    ("embeddings",
      Joi.array .> Joi.items memoryEmbeddingSchema .> Joi.min 1 .> Joi.max 50
        .> Joi.required
        .> Joi.messages [
             ("array.min", "At least one embedding is required");
             ("array.max", "Maximum 50 embeddings allowed per batch")])
  ].

Definition sort_keys : list string :=
  ["created_at"; "last_accessed"; "importance_score"; "emotional_significance";
   "temporal_relevance"; "access_frequency"].

(** Query validation schema *)
Definition querySchema : Joi.schema :=
  Joi.object [
    ("user_id", Joi.string .> Joi.uuid .> Joi.optional);
    ("memory_type", Joi.string .> Joi.valid memory_types .> Joi.optional);
    ("min_importance_score", Joi.number .> Joi.min 0 .> Joi.max 1 .> Joi.optional);
    ("min_emotional_significance", Joi.number .> Joi.min 0 .> Joi.max 1 .> Joi.optional);
    ("min_temporal_relevance", Joi.number .> Joi.min 0 .> Joi.max 1 .> Joi.optional);
    ("date_range", dateRangeSchema);
    ("limit", Joi.number .> Joi.integer .> Joi.min 1 .> Joi.max 100
                .> Joi.default (int 20));
    ("offset", Joi.number .> Joi.integer .> Joi.min 0 .> Joi.default (int 0));
    ("sort_by", Joi.string .> Joi.valid sort_keys .> Joi.default (Str "created_at"));
    ("sort_order", Joi.string .> Joi.valid ["asc"; "desc"] .> Joi.default (Str "desc"))
  ].

(** Memory retrieval schema *)
Definition memoryRetrievalSchema : Joi.schema :=
  Joi.object [
    ("query_text", Joi.string .> Joi.min 1 .> Joi.max 1000 .> Joi.required);
    ("user_id", Joi.string .> Joi.uuid .> Joi.required);
    ("context", Joi.any_object .> Joi.optional .> Joi.default (Obj []));
    ("limit", Joi.number .> Joi.integer .> Joi.min 1 .> Joi.max 50
                .> Joi.default (int 10));
    ("min_relevance_score", Joi.number .> Joi.min 0 .> Joi.max 1
                              .> Joi.default (Num (Fin (3 # 10))))
  ].

(** The body of a rejection: the messages of all the violations, joined. *)
Definition rejection (title : string) (errors : list Joi.violation) : response :=
  Json 400 (Obj [("success", Bool false);
                 ("error", Str title);
                 ("details", Str (String.concat ", " (map Joi.text errors)))]).

(** Validation middleware: [None] is [next()].  Only the error of the
    validation is read; the request keeps the body it came with. *)
Definition validate (schema : Joi.schema) (body : value) : option response :=
  match Joi.validate schema body with
  | [] => None
  | errors => Some (rejection "Validation Error" errors)
  end.

(** Query validation middleware *)
Definition validateQuery (schema : Joi.schema) (query : value) : option response :=
  match Joi.validate schema query with
  | [] => None
  | errors => Some (rejection "Query Validation Error" errors)
  end.

End Validation.

(** ** Effects: a collection that is read and written, and exceptions *)

Module Effect.

Inductive result (A : Type) : Type :=
| Ok (a : A)
| Throw (message : string).   (* [throw new Error(message)] *)

Arguments Ok {A} a.
Arguments Throw {A} message.

Section Monad.
Variable S : Type.

Definition M (A : Type) : Type := S -> result A * S.

Definition ret {A} (a : A) : M A := fun s => (Ok a, s).

Definition throw {A} (message : string) : M A := fun s => (Throw message, s).

Definition bind {A B} (m : M A) (k : A -> M B) : M B :=
  fun s => match m s with
           | (Ok a, s') => k a s'
           | (Throw e, s') => (Throw e, s')
           end.

(** [try { body } catch (error) { throw new Error(prefix + error.message) }] *)
Definition rethrow {A} (prefix : string) (body : M A) : M A :=
  fun s => match body s with
           | (Throw e, s') => (Throw (String.append prefix e), s')
           | r => r
           end.

(** [try { body } catch (error) { handler(error.message) }] *)
Definition try_catch {A} (body : M A) (handler : string -> M A) : M A :=
  fun s => match body s with
           | (Throw e, s') => handler e s'
           | r => r
           end.

(** A result computed without the state, the state as it is, and a change
    of the state. *)
Definition lift {A} (r : result A) : M A := fun s => (r, s).
Definition read {A} (f : S -> A) : M A := fun s => (Ok (f s), s).
Definition modify (f : S -> S) : M unit := fun s => (Ok tt, f s).
End Monad.

Arguments ret {S A} a.
Arguments throw {S A} message.
Arguments bind {S A B} m k.
Arguments rethrow {S A} prefix body.
Arguments try_catch {S A} body handler.
Arguments lift {S A} r.
Arguments read {S A} f.
Arguments modify {S} f.

End Effect.

Notation "x <- m ;; k" := (Effect.bind m (fun x => k))
  (at level 61, m at next level, right associativity).
Notation "m ;;; k" := (Effect.bind m (fun _ => k))
  (at level 61, right associativity).

(** ** The document store

    Modelled from the spec: the store adapter.  The collection is an object
    of the database client, which is not part of this repository; section
    4.3 of the specification gives its contract (insert, point lookup,
    update and delete of one document, filtered scan with sort, skip and
    limit, similarity-ranked scan, counts and grouped aggregates, each of
    which may fail).  The collection below is that contract over a list of
    documents in insertion order. *)

Module Store.
Import Js Effect.

Definition document : Type := list (string * value).

Record collection : Type := {
  docs : list document;
  (** the score of a stored vector against a query vector; the collection is
      created with the cosine metric, and the ranking uses nothing of it but
      the order of the scores *)
  metric : list value -> list value -> Q;
  (** when set, the database is unreachable and every call fails with this
      message *)
  outage : option string
}.

Definition with_docs (c : collection) (l : list document) : collection :=
  {| docs := l; metric := metric c; outage := outage c |}.

Definition call {A} (f : collection -> result A * collection) : M collection A :=
  fun c => match outage c with
           | Some e => (Throw e, c)
           | None => f c
           end.

(** *** Filters *)

Definition comparable (a b : value) : bool :=
  match a, b with
  | Num _, Num _ | Str _, Str _ => true
  | _, _ => false
  end.

Definition contains (field x : value) : bool :=
  orb (eqb field x)
      match field with Arr elems => existsb (fun e => eqb e x) elems | _ => false end.

Definition operator (field : value) (op : string * value) : bool :=
  let '(name, x) := op in
  if String.eqb name "$gte" then andb (comparable field x) (leb x field)
  else if String.eqb name "$lte" then andb (comparable field x) (leb field x)
  else if String.eqb name "$in" then
    match x with Arr xs => existsb (contains field) xs | _ => false end
  else false.

(** A field against its condition: an object of operators, all of which
    must hold, or a literal the field must equal or contain. *)
Definition satisfies (field cond : value) : bool :=
  match cond with
  | Obj (op :: ops) => forallb (operator field) (op :: ops)
  | _ => contains field cond
  end.

Definition matches (filter : value) (d : document) : bool :=
  match filter with
  | Obj conds => forallb (fun c => satisfies (get (Obj d) (fst c)) (snd c)) conds
  | _ => true
  end.

(** *** Order *)

Section Sort.
Variable A : Type.
Variable le : A -> A -> bool.

Fixpoint insert (x : A) (l : list A) : list A :=
  match l with
  | [] => [x]
  | y :: r => if le x y then x :: l else y :: insert x r
  end.

Definition sort (l : list A) : list A := fold_right insert [] l.
End Sort.

Arguments insert {A} le x l.
Arguments sort {A} le l.

(** [sort({ key: 1 })] or [sort({ key: -1 })]. *)
Definition by_field (spec : value) (a b : document) : bool :=
  match spec with
  | Obj ((key, direction) :: _) =>
      if eqb direction (int 1)
      then leb (get (Obj a) key) (get (Obj b) key)
      else leb (get (Obj b) key) (get (Obj a) key)
  | _ => true
  end.

(** A count given to [skip] or [limit]: a non-negative integer, or a text
    that reads as one, which is how [GET /query] hands over the [limit] and
    the [offset] of a request (the tests of the repository ask for
    [limit=10] there and expect a page).  The contract says nothing of other
    values; the collection refuses them. *)
Definition count_of (v : value) : option nat :=
  match match v with
        | Num n => Some n
        | Str s => Some (string_to_number s)
        | _ => None
        end with
  | Some (Fin q) =>
      if andb (is_integer q) (Qle_bool 0%Q q) then Some (Z.to_nat (Qfloor q))
      else None
  | _ => None
  end.

(** [limit(n)]: the first [n] documents.  The contract says nothing of a
    limit of zero; as with cursors of this kind, it is taken as no limit. *)
Definition limited {A} (n : nat) (l : list A) : list A :=
  match n with O => l | _ => firstn n l end.

(** *** Operations *)

Definition id_of (d : document) : value := get (Obj d) "_id".

Definition connect : M collection unit :=
  call (fun c => (Ok tt, c)).

Definition insertOne (d : document) : M collection value :=
  call (fun c =>
    if existsb (fun d' => eqb (id_of d') (id_of d)) (docs c)
    then (Throw "Document already exists with the given _id", c)
    else (Ok (Obj [("insertedId", id_of d)]), with_docs c (docs c ++ [d]))).

(** Documents are inserted one after the other; a failure leaves the
    earlier ones in place. *)
Fixpoint insertEach (l : list document) : M collection (list value) :=
  match l with
  | [] => ret []
  | d :: r =>
      _ <- insertOne d ;;
      ids <- insertEach r ;;
      ret (id_of d :: ids)
  end.

Definition insertMany (l : list document) : M collection value :=
  ids <- insertEach l ;;
  ret (Obj [("insertedCount", int (Z.of_nat (List.length ids)));
            ("insertedIds", Arr ids)]).

Definition findOne (filter : value) : M collection value :=
  call (fun c =>
    (Ok match find (matches filter) (docs c) with
        | Some d => Obj d
        | None => Null
        end, c)).

(** [$set] then [$inc] of an update, on one document. *)
Definition increment (d : result document) (f : string * value) : result document :=
  match d with
  | Ok props =>
      match get (Obj props) (fst f), snd f with
      | Undefined, Num n => Ok (assign (fst f) (Num n) props)
      | Num m, Num n => Ok (assign (fst f) (Num (num_add m n)) props)
      | _, _ => Throw "$inc applies to numbers only"
      end
  | Throw e => Throw e
  end.

Definition fields_of (v : value) : list (string * value) :=
  match v with Obj props => props | _ => [] end.

Definition apply_update (update : value) (d : document) : result document :=
  let after_set := assign_all (fields_of (get update "$set")) d in
  fold_left increment (fields_of (get update "$inc")) (Ok after_set).

Fixpoint replace_first (p : document -> bool) (d' : document) (l : list document)
  : list document :=
  match l with
  | [] => []
  | d :: r => if p d then d' :: r else d :: replace_first p d' r
  end.

(** [findOneAndUpdate(filter, update, { returnDocument: 'after' })] *)
Definition findOneAndUpdate (filter update : value) : M collection value :=
  call (fun c =>
    match find (matches filter) (docs c) with
    | None => (Ok Null, c)
    | Some d =>
        match apply_update update d with
        | Ok d' => (Ok (Obj d'), with_docs c (replace_first (matches filter) d' (docs c)))
        | Throw e => (Throw e, c)
        end
    end).

Fixpoint remove_first (p : document -> bool) (l : list document) : list document :=
  match l with
  | [] => []
  | d :: r => if p d then r else d :: remove_first p r
  end.

Definition deleteOne (filter : value) : M collection value :=
  call (fun c =>
    match find (matches filter) (docs c) with
    | None => (Ok (Obj [("deletedCount", int 0)]), c)
    | Some _ =>
        (Ok (Obj [("deletedCount", int 1)]),
         with_docs c (remove_first (matches filter) (docs c)))
    end).

(** [find(filter).sort(order).skip(skip).limit(limit).toArray()] *)
Definition find_page (filter order skip limit : value) : M collection (list value) :=
  call (fun c =>
    match count_of skip, count_of limit with
    | Some k, Some n =>
        (Ok (map Obj (limited n (skipn k (sort (by_field order)
                                              (List.filter (matches filter) (docs c)))))),
         c)
    | _, _ => (Throw "skip and limit must be non-negative integers", c)
    end).

(** [find(filter, { sort: { $vector: v }, limit, includeSimilarity: true })]:
    the matching documents that carry a vector, by descending score, each
    with its score under [$similarity]. *)
Definition scored (c : collection) (query : list value) (d : document)
  : list (Q * document) :=
  match get (Obj d) "$vector" with
  | Arr v => [(metric c v query, d)]
  | _ => []
  end.

Definition descending (a b : Q * document) : bool := Qle_bool (fst b) (fst a).

Definition annotate (sd : Q * document) : value :=
  Obj (assign "$similarity" (Num (Fin (fst sd))) (snd sd)).

Definition find_similar (filter vector limit : value) : M collection (list value) :=
  call (fun c =>
    match vector, count_of limit with
    | Arr query, Some n =>
        (Ok (map annotate
               (limited n (sort descending
                             (flat_map (scored c query)
                                       (List.filter (matches filter) (docs c)))))),
         c)
    | _, _ => (Throw "a vector and a non-negative integer limit are expected", c)
    end).

Definition countDocuments (filter : value) : M collection value :=
  call (fun c =>
    (Ok (int (Z.of_nat (List.length (List.filter (matches filter) (docs c))))), c)).

(** The two aggregation pipelines the service runs: a count per value of a
    field, and the averages of some fields over the whole collection. *)
Inductive pipeline : Type :=
| GroupCount (field : string)
| GroupAverage (outputs : list (string * string)).

Fixpoint tally (key : value) (groups : list (value * Z)) : list (value * Z) :=
  match groups with
  | [] => [(key, 1)]
  | (k, n) :: r => if eqb k key then (k, n + 1) :: r else (k, n) :: tally key r
  end.

Definition numbers_of (field : string) (l : list document) : list Q :=
  flat_map (fun d => match get (Obj d) field with
                     | Num (Fin q) => [q]
                     | _ => []
                     end) l.

(** [$avg]: over the numeric values of the field; [null] when there is none. *)
Definition average (field : string) (l : list document) : value :=
  match numbers_of field l with
  | [] => Null
  | qs => Num (Fin (Qred (fold_right Qplus 0%Q qs / inject_Z (Z.of_nat (List.length qs)))))
  end.

Definition aggregate (p : pipeline) : M collection (list value) :=
  call (fun c =>
    (Ok match p with
        | GroupCount field =>
            map (fun g => Obj [("_id", fst g); ("count", int (snd g))])
                (fold_left (fun groups d => tally (get (Obj d) field) groups)
                           (docs c) [])
        | GroupAverage outputs =>
            match docs c with
            | [] => []
            | _ => [Obj (("_id", Null)
                         :: map (fun o => (fst o, average (snd o) (docs c))) outputs)]
            end
        end, c)).

End Store.

(** ** [services/memoryEmbeddingService.js] *)

Module Service.
Import Js Effect Store.

Definition service (A : Type) : Type := M collection A.

(** What the environment gives one new document: the identifier drawn by
    [uuidv4()] and the three readings of the clock, in milliseconds. *)
Record stamps : Type := {
  uuid : string;
  at_last_accessed : Z;
  at_created : Z;
  at_updated : Z
}.

(** The collection is obtained from the connection on every call; the
    connection hands back the collection it already has once it is
    established. *)
Definition initialize : service unit := connect.

(** How a property is first read off a value: [o.p], or [const { p } = o]
    with the source text of [o]. *)
Inductive access : Type :=
| Property (p : string)
| Destructure (p source : string).

(** The message of the [TypeError] of such a reading of [undefined] or
    [null], in the words of the engine. *)
Definition type_error (o : value) (a : access) : string :=
  let kind := match o with Null => "null" | _ => "undefined" end in
  match a with
  | Property p =>
      String.concat "" ["Cannot read properties of "; kind; " (reading '"; p; "')"]
  | Destructure p source =>
      String.concat "" ["Cannot destructure property '"; p; "' of '"; source;
                        "' as it is "; kind; "."]
  end.

(** The first reading of a property of [o], which throws when [o] is
    [undefined] or [null]. *)
Definition reading (o : value) (a : access) : service unit :=
  if nullish o then throw (type_error o a) else ret tt.

(** The first of some values that is [undefined] or [null]. *)
Definition first_nullish (l : list value) : value :=
  match find nullish l with Some x => x | None => Undefined end.

(** [o.k = v] when the guard holds. *)
Definition set_if (guard : bool) (k : string) (v : value)
  (o : list (string * value)) : list (string * value) :=
  if guard then assign k v o else o.

(** [{ ...o }] into an object under construction. *)
Definition spread (o : list (string * value)) (into : list (string * value))
  : list (string * value) :=
  assign_all o into.

Definition new_document (st : stamps) (embeddingData : value) : document :=
  [("_id", Str (uuid st));
   ("user_id", get embeddingData "user_id");
   ("memory_type", get embeddingData "memory_type");
   ("content_summary", get embeddingData "content_summary");
   ("original_entry_id", get embeddingData "original_entry_id");
   ("importance_score", get embeddingData "importance_score");
   ("emotional_significance", get embeddingData "emotional_significance");
   ("temporal_relevance", get embeddingData "temporal_relevance");
   ("access_frequency", or_else (get embeddingData "access_frequency") (int 0));
   ("last_accessed", Str (toISOString (at_last_accessed st)));
   ("created_at", Str (toISOString (at_created st)));
   ("$vector", get embeddingData "feature_vector");
   ("gate_scores", get embeddingData "gate_scores");
   ("relationships", or_else (get embeddingData "relationships") (Arr []));
   ("context_needed", or_else (get embeddingData "context_needed") (Obj []));
   ("retrieval_triggers", or_else (get embeddingData "retrieval_triggers") (Arr []));
   ("updated_at", Str (toISOString (at_updated st)))].

(** Create a new memory embedding *)
Definition createMemoryEmbedding (st : stamps) (embeddingData : value)
  : service value :=
  rethrow "Failed to create memory embedding: "
    (initialize ;;;
     reading embeddingData (Property "user_id") ;;;
     let document := new_document st embeddingData in
     result <- insertOne document ;;
     ret (Obj (assign "insertedId" (get result "insertedId")
                 (assign "feature_vector" (get (Obj document) "$vector")
                    (spread document [("id", get (Obj document) "_id")]))))).

(** Get memory embedding by ID *)
Definition getMemoryEmbeddingById (id : value) : service value :=
  rethrow "Failed to get memory embedding: "
    (initialize ;;;
     result <- findOne (Obj [("_id", id)]) ;;
     if negb (truthy result) then throw "Memory embedding not found"
     else
       ret (Obj [("id", get result "_id");
                 ("user_id", get result "user_id");
                 ("memory_type", get result "memory_type");
                 ("content_summary", get result "content_summary");
                 ("original_entry_id", get result "original_entry_id");
                 ("importance_score", get result "importance_score");
                 ("emotional_significance", get result "emotional_significance");
                 ("temporal_relevance", get result "temporal_relevance");
                 ("access_frequency", get result "access_frequency");
                 ("last_accessed", get result "last_accessed");
                 ("created_at", get result "created_at");
                 ("feature_vector", get result "$vector");
                 ("gate_scores", get result "gate_scores");
                 ("relationships", get result "relationships");
                 ("context_needed", get result "context_needed");
                 ("retrieval_triggers", get result "retrieval_triggers");
                 ("updated_at", get result "updated_at")])).

(** The change-set of an update: [updated_at], then each field of the
    request under its guard. *)
Definition updateDoc (now : Z) (updateData : value) : list (string * value) :=
  let d := [("updated_at", Str (toISOString now))] in
  (* Map fields to database structure *)
  let d := set_if (truthy (get updateData "feature_vector"))
             "$vector" (get updateData "feature_vector") d in
  let d := set_if (truthy (get updateData "content_summary"))
             "content_summary" (get updateData "content_summary") d in
  let d := set_if (negb (strict_eq (get updateData "importance_score") Undefined))
             "importance_score" (get updateData "importance_score") d in
  let d := set_if (negb (strict_eq (get updateData "emotional_significance") Undefined))
             "emotional_significance" (get updateData "emotional_significance") d in
  let d := set_if (negb (strict_eq (get updateData "temporal_relevance") Undefined))
             "temporal_relevance" (get updateData "temporal_relevance") d in
  let d := set_if (negb (strict_eq (get updateData "access_frequency") Undefined))
             "access_frequency" (get updateData "access_frequency") d in
  let d := set_if (truthy (get updateData "gate_scores"))
             "gate_scores" (get updateData "gate_scores") d in
  let d := set_if (truthy (get updateData "relationships"))
             "relationships" (get updateData "relationships") d in
  let d := set_if (truthy (get updateData "context_needed"))
             "context_needed" (get updateData "context_needed") d in
  let d := set_if (truthy (get updateData "retrieval_triggers"))
             "retrieval_triggers" (get updateData "retrieval_triggers") d in
  d.

(** Update memory embedding *)
Definition updateMemoryEmbedding (now : Z) (id updateData : value) : service value :=
  rethrow "Failed to update memory embedding: "
    (initialize ;;;
     reading updateData (Property "feature_vector") ;;;
     result <- findOneAndUpdate (Obj [("_id", id)])
                 (Obj [("$set", Obj (updateDoc now updateData))]) ;;
     if negb (truthy result) then throw "Memory embedding not found"
     else
       ret (Obj [("id", get result "_id");
                 ("user_id", get result "user_id");
                 ("memory_type", get result "memory_type");
                 ("content_summary", get result "content_summary");
                 ("original_entry_id", get result "original_entry_id");
                 ("importance_score", get result "importance_score");
                 ("emotional_significance", get result "emotional_significance");
                 ("temporal_relevance", get result "temporal_relevance");
                 ("access_frequency", get result "access_frequency");
                 ("last_accessed", get result "last_accessed");
                 ("created_at", get result "created_at");
                 ("feature_vector", get result "$vector");
                 ("gate_scores", get result "gate_scores");
                 ("relationships", get result "relationships");
                 ("context_needed", get result "context_needed");
                 ("retrieval_triggers", get result "retrieval_triggers");
                 ("updated_at", get result "updated_at")])).

(** Delete memory embedding *)
Definition deleteMemoryEmbedding (id : value) : service value :=
  rethrow "Failed to delete memory embedding: "
    (initialize ;;;
     result <- deleteOne (Obj [("_id", id)]) ;;
     if strict_eq (get result "deletedCount") (int 0)
     then throw "Memory embedding not found"
     else
       ret (Obj [("id", id);
                 ("deleted", Bool true);
                 ("deletedCount", get result "deletedCount")])).

(** [query.created_at = {}] and its two bounds. *)
Definition created_between (date_range : value) : value :=
  Obj (set_if (truthy (get date_range "end")) "$lte" (get date_range "end")
         (set_if (truthy (get date_range "start")) "$gte" (get date_range "start")
            [])).

Definition at_least (bound : value) : value := Obj [("$gte", bound)].

(** The filter of a search, from the optional fields of the request; the
    list search adds no condition on [retrieval_triggers]. *)
Definition build_query (filters : value) (with_triggers : bool)
  : list (string * value) :=
  let query := [] in
  let query := set_if (truthy (get filters "user_id"))
                 "user_id" (get filters "user_id") query in
  let query := set_if (truthy (get filters "memory_type"))
                 "memory_type" (get filters "memory_type") query in
  let query := set_if (truthy (get filters "min_importance_score"))
                 "importance_score" (at_least (get filters "min_importance_score")) query in
  let query := set_if (truthy (get filters "min_emotional_significance"))
                 "emotional_significance"
                 (at_least (get filters "min_emotional_significance")) query in
  let query := set_if (truthy (get filters "min_temporal_relevance"))
                 "temporal_relevance" (at_least (get filters "min_temporal_relevance")) query in
  let query := set_if (truthy (get filters "date_range"))
                 "created_at" (created_between (get filters "date_range")) query in
  let query := set_if (andb with_triggers
                         (andb (truthy (get filters "retrieval_triggers"))
                               (gt (length (get filters "retrieval_triggers")) (int 0))))
                 "retrieval_triggers"
                 (Obj [("$in", get filters "retrieval_triggers")]) query in
  query.

(** Find similar memory embeddings using vector similarity *)
Definition findSimilarMemoryEmbeddings (queryVector options : value) : service value :=
  rethrow "Failed to find similar memory embeddings: "
    (initialize ;;;
     let options := default (Obj []) options in
     reading options (Destructure "limit" "options") ;;;
     let limit := default (int 10) (get options "limit") in
     let filters := default (Obj []) (get options "filters") in
     reading filters (Property "user_id") ;;;
     (* Build query with filters *)
     let query := build_query filters true in
     (* Perform vector similarity search *)
     results <- find_similar (Obj query) queryVector limit ;;
     let n := List.length results in
     ret (Obj [
       ("query_vector_dimensions", length queryVector);
       ("results_count", int (Z.of_nat n));
       ("max_similarity_score",
         if gt (int (Z.of_nat n)) (int 0)
         then get (nth O results Undefined) "$similarity" else int 0);
       ("min_similarity_score",
         if gt (int (Z.of_nat n)) (int 0)
         then get (nth (n - 1) results Undefined) "$similarity" else int 0);
       ("results",
         Arr (map (fun result =>
           Obj [("id", get result "_id");
                ("user_id", get result "user_id");
                ("memory_type", get result "memory_type");
                ("content_summary", get result "content_summary");
                ("original_entry_id", get result "original_entry_id");
                ("importance_score", get result "importance_score");
                ("emotional_significance", get result "emotional_significance");
                ("temporal_relevance", get result "temporal_relevance");
                ("access_frequency", get result "access_frequency");
                ("last_accessed", get result "last_accessed");
                ("created_at", get result "created_at");
                ("feature_vector", get result "$vector");
                ("gate_scores", get result "gate_scores");
                ("relationships", get result "relationships");
                ("context_needed", get result "context_needed");
                ("retrieval_triggers", get result "retrieval_triggers");
                ("similarity_score", get result "$similarity");
                ("updated_at", get result "updated_at")]) results))])).

(** The documents of a batch, the [i]-th with the stamps [st i]. *)
Fixpoint batch_documents (st : nat -> stamps) (i : nat) (l : list value)
  : list document :=
  match l with
  | [] => []
  | embeddingData :: r => new_document (st i) embeddingData :: batch_documents st (S i) r
  end.

(** Create multiple memory embeddings in batch *)
Definition createMemoryEmbeddingsBatch (st : nat -> stamps) (embeddingsArray : value)
  : service value :=
  rethrow "Failed to create memory embeddings batch: "
    (initialize ;;;
     match embeddingsArray with
     | Arr embeddings =>
         reading (if existsb nullish embeddings then first_nullish embeddings
                  else embeddingsArray) (Property "user_id") ;;;
         let documents := batch_documents st O embeddings in
         result <- insertMany documents ;;
         ret (Obj [
           ("inserted_count", get result "insertedCount");
           ("inserted_ids", get result "insertedIds");
           ("documents",
             Arr (map (fun doc : document =>
               Obj [("id", get (Obj doc) "_id");
                    ("user_id", get (Obj doc) "user_id");
                    ("memory_type", get (Obj doc) "memory_type");
                    ("content_summary", get (Obj doc) "content_summary");
                    ("original_entry_id", get (Obj doc) "original_entry_id");
                    ("created_at", get (Obj doc) "created_at")]) documents))])
     | _ => throw "embeddingsArray.map is not a function"
     end).

(** The pagination summary of a page. *)
Definition pagination (offset limit totalCount : value) : value :=
  Obj [("total_count", totalCount);
       ("current_page", plus (floor (div offset limit)) (int 1));
       ("total_pages", ceil (div totalCount limit));
       ("has_next", Bool (lt (plus offset limit) totalCount));
       ("has_previous", Bool (gt offset (int 0)))].

(** Query memory embeddings with filters and pagination *)
Definition queryMemoryEmbeddings (queryOptions : value) : service value :=
  rethrow "Failed to query memory embeddings: "
    (initialize ;;;
     let queryOptions := default (Obj []) queryOptions in
     reading queryOptions (Destructure "user_id" "queryOptions") ;;;
     let limit := default (int 20) (get queryOptions "limit") in
     let offset := default (int 0) (get queryOptions "offset") in
     let sort_by := default (Str "created_at") (get queryOptions "sort_by") in
     let sort_order := default (Str "desc") (get queryOptions "sort_order") in
     (* Build query *)
     let query := build_query queryOptions false in
     (* Build sort *)
     let sortOrder := if strict_eq sort_order (Str "asc") then int 1 else int (-1) in
     let sortObj := Obj [(to_string sort_by, sortOrder)] in
     (* Execute query with pagination *)
     results <- find_page (Obj query) sortObj offset limit ;;
     (* Get total count for pagination *)
     totalCount <- countDocuments (Obj query) ;;
     ret (Obj [
       ("results",
         Arr (map (fun result =>
           Obj [("id", get result "_id");
                ("user_id", get result "user_id");
                ("memory_type", get result "memory_type");
                ("content_summary", get result "content_summary");
                ("original_entry_id", get result "original_entry_id");
                ("importance_score", get result "importance_score");
                ("emotional_significance", get result "emotional_significance");
                ("temporal_relevance", get result "temporal_relevance");
                ("access_frequency", get result "access_frequency");
                ("last_accessed", get result "last_accessed");
                ("created_at", get result "created_at");
                ("gate_scores", get result "gate_scores");
                ("relationships", get result "relationships");
                ("context_needed", get result "context_needed");
                ("retrieval_triggers", get result "retrieval_triggers");
                ("updated_at", get result "updated_at")]) results));
       ("pagination", pagination offset limit totalCount)])).

(** Update access frequency and last accessed time; the clock is read once
    for [last_accessed] and once for [updated_at]. *)
Definition recordMemoryAccess (at_access at_update : Z) (id : value) : service value :=
  rethrow "Failed to record memory access: "
    (initialize ;;;
     result <- findOneAndUpdate (Obj [("_id", id)])
                 (Obj [("$inc", Obj [("access_frequency", int 1)]);
                       ("$set", Obj [("last_accessed", Str (toISOString at_access));
                                     ("updated_at", Str (toISOString at_update))])]) ;;
     if negb (truthy result) then throw "Memory embedding not found"
     else
       ret (Obj [("id", get result "_id");
                 ("access_frequency", get result "access_frequency");
                 ("last_accessed", get result "last_accessed")])).

Definition week : Z := 7 * 86400000.

(** Get collection statistics; [now] is the reading of the clock from which
    the last seven days are counted ([setDate(getDate() - 7)], seven days of
    86400000 milliseconds in a zone without clock changes). *)
Definition getStatistics (now : Z) : service value :=
  rethrow "Failed to get statistics: "
    (initialize ;;;
     totalCount <- countDocuments (Obj []) ;;
     (* Get statistics by memory type *)
     memoryTypeStats <- aggregate (GroupCount "memory_type") ;;
     (* Get recent activity (last 7 days) *)
     let sevenDaysAgo := now - week in
     recentCount <- countDocuments
                      (Obj [("created_at", at_least (Str (toISOString sevenDaysAgo)))]) ;;
     (* Average scores *)
     scoreStats <- aggregate (GroupAverage [
                     ("avg_importance_score", "importance_score");
                     ("avg_emotional_significance", "emotional_significance");
                     ("avg_temporal_relevance", "temporal_relevance");
                     ("avg_access_frequency", "access_frequency")]) ;;
     ret (Obj [
       ("total_memories", totalCount);
       ("recent_memories_7_days", recentCount);
       ("memory_type_distribution",
         Obj (fold_left (fun acc stat =>
                           assign (to_string (get stat "_id")) (get stat "count") acc)
                        memoryTypeStats []));
       ("score_statistics",
         or_else (nth O scoreStats Undefined)
                 (Obj [("avg_importance_score", int 0);
                       ("avg_emotional_significance", int 0);
                       ("avg_temporal_relevance", int 0);
                       ("avg_access_frequency", int 0)]));
       ("collection_info",
         Obj [("name", Str "memory_embeddings");
              ("vector_dimensions", int 90)])])).

End Service.

(** ** [routes/memoryEmbeddings.js] *)

Module Routes.
Import Js Effect Store Http.

Definition handler : Type := collection -> response * collection.

Definition not_found_message : string := "Memory embedding not found".

Definition not_found : response :=
  Json 404 (Obj [("success", Bool false);
                 ("error", Str "Memory embedding not found")]).

(** [try { ... res.json(...) } catch (error) { next(error) }] *)
Definition respond (run : Service.service value) (reply : value -> response) : handler :=
  fun c => match run c with
           | (Ok data, c') => (reply data, c')
           | (Throw message, c') => (Next message, c')
           end.

(** The same, with the test of the error message before [next(error)]. *)
Definition respond_or_404 (run : Service.service value) (reply : value -> response)
  : handler :=
  fun c => match run c with
           | (Ok data, c') => (reply data, c')
           | (Throw message, c') =>
               if String.eqb message not_found_message
               then (not_found, c')
               else (Next message, c')
           end.

(** [const { ... } = req.body] at the head of a handler: a body that is
    [undefined] or [null] throws, and the error goes to [next]. *)
Definition destructured (body : value) (property : string) (h : handler) : handler :=
  fun c => if nullish body
           then (Next (Service.type_error body
                         (Service.Destructure property "req.body")), c)
           else h c.

(** A middleware in front of a handler: its response ends the request. *)
Definition guarded (check : option response) (h : handler) : handler :=
  fun c => match check with
           | Some rejection => (rejection, c)
           | None => h c
           end.

Definition success (status : Z) (data : value) (message : string) : response :=
  Json status (Obj [("success", Bool true); ("data", data); ("message", Str message)]).

Definition found (data : value) (what : string) : string :=
  String.append "Found "
    (String.append (to_string (length (get data "results"))) what).

(** GET /api/memory-embeddings/stats *)
Definition get_stats (now : Z) : handler :=
  respond (Service.getStatistics now)
    (fun stats => Json 200 (Obj [("success", Bool true); ("data", stats)])).

(** POST /api/memory-embeddings/similarity *)
Definition post_similarity (body : value) : handler :=
  guarded (Validation.validate Validation.similaritySearchSchema body)
    (destructured body "feature_vector" (respond
       (Service.findSimilarMemoryEmbeddings (get body "feature_vector")
          (Obj [("limit", get body "limit"); ("filters", get body "filters")]))
       (fun result => success 200 result (found result " similar memory embeddings")))).

(** POST /api/memory-embeddings/batch *)
Definition post_batch (st : nat -> Service.stamps) (body : value) : handler :=
  guarded (Validation.validate Validation.batchSchema body)
    (destructured body "embeddings" (respond
       (Service.createMemoryEmbeddingsBatch st (get body "embeddings"))
       (fun result =>
          success 201 result
            (String.append "Successfully created "
               (String.append (to_string (get result "inserted_count"))
                              " memory embeddings"))))).

(** GET /api/memory-embeddings/query *)
Definition get_query (query : value) : handler :=
  guarded (Validation.validateQuery Validation.querySchema query)
    (respond (Service.queryMemoryEmbeddings query)
       (fun result => success 200 result (found result " memory embeddings"))).

(** POST /api/memory-embeddings *)
Definition post_create (st : Service.stamps) (body : value) : handler :=
  guarded (Validation.validate Validation.memoryEmbeddingSchema body)
    (respond (Service.createMemoryEmbedding st body)
       (fun memoryEmbedding =>
          success 201 memoryEmbedding "Memory embedding created successfully")).

(** GET /api/memory-embeddings/:id *)
Definition get_by_id (id : string) : handler :=
  respond_or_404 (Service.getMemoryEmbeddingById (Str id))
    (fun memoryEmbedding =>
       Json 200 (Obj [("success", Bool true); ("data", memoryEmbedding)])).

(** PUT /api/memory-embeddings/:id *)
Definition put_by_id (now : Z) (id : string) (body : value) : handler :=
  guarded (Validation.validate Validation.updateMemoryEmbeddingSchema body)
    (respond_or_404 (Service.updateMemoryEmbedding now (Str id) body)
       (fun memoryEmbedding =>
          success 200 memoryEmbedding "Memory embedding updated successfully")).

(** DELETE /api/memory-embeddings/:id *)
Definition delete_by_id (id : string) : handler :=
  respond_or_404 (Service.deleteMemoryEmbedding (Str id))
    (fun result => success 200 result "Memory embedding deleted successfully").

(** [parseInt(v)]: of the string of [v]. *)
Definition parse_int (v : value) : value := Num (parseInt (to_string v)).

(** GET /api/memory-embeddings/user/:userId *)
Definition get_user (userId : string) (query : value) : handler :=
  let limit := default (int 20) (get query "limit") in
  let offset := default (int 0) (get query "offset") in
  let sort_by := default (Str "created_at") (get query "sort_by") in
  let sort_order := default (Str "desc") (get query "sort_order") in
  respond
    (Service.queryMemoryEmbeddings
       (Obj [("user_id", Str userId);
             ("limit", parse_int limit);
             ("offset", parse_int offset);
             ("sort_by", sort_by);
             ("sort_order", sort_order)]))
    (fun result =>
       success 200 result
         (String.append (found result " memory embeddings for user ") userId)).

(** GET /api/memory-embeddings/type/:memoryType *)
Definition get_type (memoryType : string) (query : value) : handler :=
  let limit := default (int 20) (get query "limit") in
  let offset := default (int 0) (get query "offset") in
  let sort_by := default (Str "importance_score") (get query "sort_by") in
  let sort_order := default (Str "desc") (get query "sort_order") in
  respond
    (Service.queryMemoryEmbeddings
       (Obj [("memory_type", Str memoryType);
             ("limit", parse_int limit);
             ("offset", parse_int offset);
             ("sort_by", sort_by);
             ("sort_order", sort_order)]))
    (fun result =>
       success 200 result
         (String.append (found result " ")
            (String.append memoryType " memory embeddings"))).

(** POST /api/memory-embeddings/:id/access *)
Definition post_access (at_access at_update : Z) (id : string) : handler :=
  respond_or_404 (Service.recordMemoryAccess at_access at_update (Str id))
    (fun result => success 200 result "Memory access recorded successfully").

(** [parseFloat(v)]: of the string of [v]. *)
Definition parse_float (v : value) : value := Num (parseFloat (to_string v)).

(** GET /api/memory-embeddings/user/:userId/important *)
Definition get_user_important (userId : string) (query : value) : handler :=
  let limit := default (int 10) (get query "limit") in
  let min_score := default (Num (Fin (7 # 10))) (get query "min_score") in
  respond
    (Service.queryMemoryEmbeddings
       (Obj [("user_id", Str userId);
             ("min_importance_score", parse_float min_score);
             ("limit", parse_int limit);
             ("sort_by", Str "importance_score");
             ("sort_order", Str "desc")]))
    (fun result =>
       success 200 result
         (String.append (found result " important memories for user ") userId)).

(** GET /api/memory-embeddings/user/:userId/recent *)
Definition get_user_recent (userId : string) (query : value) : handler :=
  let limit := default (int 10) (get query "limit") in
  respond
    (Service.queryMemoryEmbeddings
       (Obj [("user_id", Str userId);
             ("limit", parse_int limit);
             ("sort_by", Str "last_accessed");
             ("sort_order", Str "desc")]))
    (fun result =>
       success 200 result
         (String.append (found result " recently accessed memories for user ")
                        userId)).

Definition access_denied : response :=
  Json 403 (Obj [("success", Bool false);
                 ("error", Str "Access denied to this memory")]).

(** What [for (const x of v)] goes through: the items of an array, the
    characters of a string; another value is not iterable. *)
Definition iterate (v : value) : option (list value) :=
  match v with
  | Arr items => Some items
  | Str s => Some (map (fun ch => Str (String ch EmptyString)) (list_ascii_of_string s))
  | _ => None
  end.

(** The loop over the relationships of a memory: each related memory is
    looked up in turn and kept when it is the user's; a lookup that throws is
    skipped. *)
Fixpoint related (userId : string) (ids : list value) (relatedMemories : list value)
  (c : collection) : list value * collection :=
  match ids with
  | [] => (relatedMemories, c)
  | relatedId :: rest =>
      match Service.getMemoryEmbeddingById relatedId c with
      | (Ok relatedMemory, c') =>
          related userId rest
            (if strict_eq (get relatedMemory "user_id") (Str userId)
             then relatedMemories ++ [relatedMemory]
             else relatedMemories)
            c'
      | (Throw _, c') =>
          (* Skip memories that don't exist or can't be accessed *)
          related userId rest relatedMemories c'
      end
  end.

(** GET /api/memory-embeddings/user/:userId/relationships/:memoryId *)
Definition get_relationships (userId memoryId : string) : handler :=
  fun c =>
    (* First get the memory to find its relationships *)
    match Service.getMemoryEmbeddingById (Str memoryId) c with
    | (Throw message, c') =>
        if String.eqb message not_found_message
        then (not_found, c')
        else (Next message, c')
    | (Ok memory, c') =>
        if negb (strict_eq (get memory "user_id") (Str userId))
        then (access_denied, c')
        else
          (* Get related memories *)
          match iterate (get memory "relationships") with
          | None => (Next "memory.relationships is not iterable", c')
          | Some ids =>
              let (relatedMemories, c'') := related userId ids [] c' in
              let count := int (Z.of_nat (List.length relatedMemories)) in
              (success 200
                 (Obj [("source_memory", memory);
                       ("related_memories", Arr relatedMemories);
                       ("relationship_count", count)])
                 (String.append "Found "
                    (String.append (to_string count) " related memories")),
               c'')
          end
    end.

End Routes.

(** ** [process.env] *)

Module Process.
Import Js.

(** The variables that are set, each with its text. *)
Definition environment : Type := list (string * string).

(** [process.env[name]]: [undefined] when the variable is not set. *)
Definition getenv (env : environment) (name : string) : value :=
  match find (fun kv => String.eqb name (fst kv)) env with
  | Some kv => Str (snd kv)
  | None => Undefined
  end.

End Process.

(** ** [config/astradb.js]

    The connection to the database.  What the database client answers to the
    calls made during one operation is given with the operation.  Writes to
    the console are left out: they change nothing an operation returns,
    throws or keeps. *)

Module AstraDB.
Import Js Effect Process.

(** A collection as the client hands it over: created with its vector
    options, or looked up by name. *)
Inductive handle : Type :=
| Created (name : string) (dimension : Z) (metric : string)
| Accessed (name : string).

Record answers : Type := {
  newClient : result unit;          (* [new DataAPIClient(token)] *)
  openDb : result unit;             (* [client.db(endpoint, { keyspace })] *)
  info : result unit;               (* [db.info()] and the reading of its answer *)
  createCollection : result unit;   (* [db.createCollection(name, options)] *)
  getCollection : result unit;      (* [db.collection(name)] *)
  options : result value            (* [collection.options()] *)
}.

(** The fields of the connection object. *)
Record connection : Type := {
  client : option value;            (* the client, made with this token *)
  db : option (value * value);      (* the database: endpoint and keyspace *)
  collection : option handle;
  isConnected : bool
}.

(** The connection as its constructor leaves it. *)
Definition constructed : connection :=
  {| client := None; db := None; collection := None; isConnected := false |}.

Definition set_client (v : option value) (s : connection) : connection :=
  {| client := v; db := db s; collection := collection s;
     isConnected := isConnected s |}.

Definition set_db (v : option (value * value)) (s : connection) : connection :=
  {| client := client s; db := v; collection := collection s;
     isConnected := isConnected s |}.

Definition set_collection (v : option handle) (s : connection) : connection :=
  {| client := client s; db := db s; collection := v;
     isConnected := isConnected s |}.

Definition set_isConnected (v : bool) (s : connection) : connection :=
  {| client := client s; db := db s; collection := collection s;
     isConnected := v |}.

Definition requiredVars : list string :=
  ["ASTRA_DB_APPLICATION_TOKEN"; "ASTRA_DB_ID"; "ASTRA_DB_REGION";
   "ASTRA_DB_KEYSPACE"].

Definition newline : string := String (ascii_of_nat 10) EmptyString.

(** The message of the error of [validateConfig]. *)
Definition missing_message (missingVars : list string) : string :=
  String.concat newline
    [EmptyString;
     String.append "❌ Missing required environment variables: "
                   (String.concat ", " missingVars);
     "";
     "Please add these to your .env file:";
     "";
     "ASTRA_DB_APPLICATION_TOKEN=your_token_here";
     "ASTRA_DB_ID=your_database_id_here";
     "ASTRA_DB_REGION=your_region_here";
     "ASTRA_DB_KEYSPACE=default_keyspace";
     "";
     "Visit https://astra.datastax.com to get these values.";
     "      "].

Definition validateConfig (env : environment) : result unit :=
  let missingVars :=
    List.filter (fun varName => negb (truthy (getenv env varName))) requiredVars in
  if gt (int (Z.of_nat (List.length missingVars))) (int 0)
  then Throw (missing_message missingVars)
  else Ok tt.

(** The endpoint of the database: the one given, or the one made of the
    identifier and the region. *)
Definition endpoint (env : environment) : value :=
  or_else (getenv env "ASTRA_DB_API_ENDPOINT")
    (Str (String.concat ""
            ["https://"; to_string (getenv env "ASTRA_DB_ID"); "-";
             to_string (getenv env "ASTRA_DB_REGION");
             ".apps.astra.datastax.com"])).

(** [connect()].  Its outer [catch] writes to the console and throws the
    error again, as it came. *)
Definition connect (env : environment) (d : answers) : M connection (option handle) :=
  connected <- read isConnected ;;
  if connected then read collection
  else
    (* Validate required environment variables *)
    lift (validateConfig env) ;;;
    (* Initialize DataAPI client *)
    lift (newClient d) ;;;
    modify (set_client (Some (getenv env "ASTRA_DB_APPLICATION_TOKEN"))) ;;;
    (* Connect to database using API endpoint *)
    lift (openDb d) ;;;
    modify (set_db (Some (endpoint env, getenv env "ASTRA_DB_KEYSPACE"))) ;;;
    (* Test connection by getting database info *)
    try_catch (lift (info d)) (fun _ => ret tt) ;;;
    (* Create or get memory embeddings collection *)
    try_catch
      (lift (createCollection d) ;;;
       modify (set_collection (Some (Created "memory_embeddings" 90 "cosine"))))
      (fun message =>
         if includes message "already exists"
         then
           (* Collection exists, just get it *)
           lift (getCollection d) ;;;
           modify (set_collection (Some (Accessed "memory_embeddings")))
         else throw message) ;;;
    modify (set_isConnected true) ;;;
    read collection.

(** [disconnect()] *)
Definition disconnect : M connection unit :=
  client <- read client ;;
  match client with
  | Some _ => modify (fun _ => constructed)
  | None => ret tt
  end.

(** [healthCheck()]; [now] is the reading of the clock for the timestamp. *)
Definition healthCheck (env : environment) (d : answers) (now : Z)
  : M connection value :=
  try_catch
    (connected <- read isConnected ;;
     (if negb connected then connect env d ;;; ret tt else ret tt) ;;;
     (* Try to get collection info to verify connection *)
     collection <- read collection ;;
     match collection with
     | None => throw "Cannot read properties of null (reading 'options')"
     | Some _ =>
         stats <- lift (options d) ;;
         if nullish stats
         then throw "Cannot read properties of undefined (reading 'vector')"
         else
           connected <- read isConnected ;;
           ret (Obj [("status", Str "healthy");
                     ("connected", Bool connected);
                     ("collection", Str "memory_embeddings");
                     ("vectorDimensions",
                       or_else (get (get stats "vector") "dimension") (int 90));
                     ("timestamp", Str (toISOString now))])
     end)
    (fun message =>
       ret (Obj [("status", Str "unhealthy");
                 ("connected", Bool false);
                 ("error", Str message);
                 ("timestamp", Str (toISOString now))])).

End AstraDB.

(** ** [server.js] *)

Module Server.
Import Js Effect Http Process.

(** Rate limiting: the window and the number of requests it allows. *)
Definition windowMs (env : environment) : value :=
  or_else (Routes.parse_int (getenv env "RATE_LIMIT_WINDOW_MS")) (int (15 * 60 * 1000)).

Definition max (env : environment) : value :=
  or_else (Routes.parse_int (getenv env "RATE_LIMIT_MAX_REQUESTS")) (int 100).

Definition unauthorized : response :=
  Json 401 (Obj [("success", Bool false);
                 ("error", Str "Invalid or missing API key")]).

(** API Key validation middleware; [apiKey] is [req.header('X-API-Key')],
    and [None] is [next()]. *)
Definition validateApiKey (env : environment) (apiKey : value) : option response :=
  if strict_eq (getenv env "NODE_ENV") (Str "production")
  then
    if orb (negb (truthy apiKey))
           (negb (strict_eq apiKey (getenv env "API_KEY")))
    then Some unauthorized
    else None
  else None.

(** Health check endpoint; [now] is the reading of the clock and [uptime]
    is [process.uptime()]. *)
Definition health (env : environment) (d : AstraDB.answers) (now : Z) (uptime : value)
  (s : AstraDB.connection) : response * AstraDB.connection :=
  (* Test database connection *)
  match AstraDB.connect env d s with
  | (Ok _, s') =>
      (Json 200 (Obj [("success", Bool true);
                      ("status", Str "healthy");
                      ("timestamp", Str (toISOString now));
                      ("service", Str "mymindspace-semantic-search-service");
                      ("version", Str "1.0.0");
                      ("database", Str "connected");
                      ("uptime", uptime)]), s')
  | (Throw message, s') =>
      (Json 503 (Obj [("success", Bool false);
                      ("status", Str "unhealthy");
                      ("timestamp", Str (toISOString now));
                      ("service", Str "mymindspace-semantic-search-service");
                      ("version", Str "1.0.0");
                      ("database", Str "disconnected");
                      ("error", Str message);
                      ("uptime", uptime)]), s')
  end.

End Server.

(** ** The terms of the statements *)

Module Terms.
Import Js Effect Store.

(** *** Records *)

(** The filter of a lookup by id. *)
Definition by_id (id : string) : value := Obj [("_id", Str id)].

(** The record a service call answers with, from the stored document. *)
Definition record_of (result : value) : value :=
  Obj [("id", get result "_id");
       ("user_id", get result "user_id");
       ("memory_type", get result "memory_type");
       ("content_summary", get result "content_summary");
       ("original_entry_id", get result "original_entry_id");
       ("importance_score", get result "importance_score");
       ("emotional_significance", get result "emotional_significance");
       ("temporal_relevance", get result "temporal_relevance");
       ("access_frequency", get result "access_frequency");
       ("last_accessed", get result "last_accessed");
       ("created_at", get result "created_at");
       ("feature_vector", get result "$vector");
       ("gate_scores", get result "gate_scores");
       ("relationships", get result "relationships");
       ("context_needed", get result "context_needed");
       ("retrieval_triggers", get result "retrieval_triggers");
       ("updated_at", get result "updated_at")].

(** The record of a search result, from the document the store answers. *)
Definition similar_record (result : value) : value :=
  Obj [("id", get result "_id");
       ("user_id", get result "user_id");
       ("memory_type", get result "memory_type");
       ("content_summary", get result "content_summary");
       ("original_entry_id", get result "original_entry_id");
       ("importance_score", get result "importance_score");
       ("emotional_significance", get result "emotional_significance");
       ("temporal_relevance", get result "temporal_relevance");
       ("access_frequency", get result "access_frequency");
       ("last_accessed", get result "last_accessed");
       ("created_at", get result "created_at");
       ("feature_vector", get result "$vector");
       ("gate_scores", get result "gate_scores");
       ("relationships", get result "relationships");
       ("context_needed", get result "context_needed");
       ("retrieval_triggers", get result "retrieval_triggers");
       ("similarity_score", get result "$similarity");
       ("updated_at", get result "updated_at")].

(** A record without its embedding. *)
Definition without_vector (record : value) : value :=
  match record with
  | Obj props =>
      Obj (List.filter (fun f => negb (String.eqb (fst f) "feature_vector")) props)
  | _ => record
  end.

(** *** Lookups *)

(** No stored document has this id. *)
Definition no_document (id : string) (c : collection) : Prop :=
  find (matches (by_id id)) (docs c) = None.

(** *** Queries *)

(** The limit and the offset a query runs with, after the defaults. *)
Definition query_limit (queryOptions : value) : value :=
  default (int 20) (get (default (Obj []) queryOptions) "limit").

Definition query_offset (queryOptions : value) : value :=
  default (int 0) (get (default (Obj []) queryOptions) "offset").

(** The number of documents that match the filter of a query. *)
Definition total_matching (queryOptions : value) (c : collection) : Z :=
  Z.of_nat (List.length
              (List.filter
                 (matches (Obj (Service.build_query (default (Obj []) queryOptions) false)))
                 (docs c))).

(** The row of a list query is the record of the document without the
    [feature_vector]. *)
Definition query_row (result : value) : value :=
  Obj [("id", get result "_id");
       ("user_id", get result "user_id");
       ("memory_type", get result "memory_type");
       ("content_summary", get result "content_summary");
       ("original_entry_id", get result "original_entry_id");
       ("importance_score", get result "importance_score");
       ("emotional_significance", get result "emotional_significance");
       ("temporal_relevance", get result "temporal_relevance");
       ("access_frequency", get result "access_frequency");
       ("last_accessed", get result "last_accessed");
       ("created_at", get result "created_at");
       ("gate_scores", get result "gate_scores");
       ("relationships", get result "relationships");
       ("context_needed", get result "context_needed");
       ("retrieval_triggers", get result "retrieval_triggers");
       ("updated_at", get result "updated_at")].

(** *** Updates *)

(** The fields an update may carry, each with the key it is stored under. *)
Definition updatable : list (string * string) :=
  [("feature_vector", "$vector");
   ("content_summary", "content_summary");
   ("importance_score", "importance_score");
   ("emotional_significance", "emotional_significance");
   ("temporal_relevance", "temporal_relevance");
   ("access_frequency", "access_frequency");
   ("gate_scores", "gate_scores");
   ("relationships", "relationships");
   ("context_needed", "context_needed");
   ("retrieval_triggers", "retrieval_triggers")].


(** *** Searches *)

(** The documents the store ranks for a search, best first. *)
Definition ranked (c : collection) (query : list value) (options : value)
  (n : nat) : list (Q * document) :=
  limited n
    (sort descending
       (flat_map (scored c query)
          (List.filter
             (matches (Obj (Service.build_query
                              (default (Obj []) (get (default (Obj []) options) "filters"))
                              true)))
             (docs c)))).

Definition search_limit (options : value) : value :=
  default (int 10) (get (default (Obj []) options) "limit").

Definition score_of (sd : Q * document) : value := Num (Fin (fst sd)).

Definition scores (rows : list value) : list value :=
  map (fun row => get row "similarity_score") rows.

(** *** Accesses *)

(** Successive calls of the record-access operation on one id; each call
    comes with its two readings of the clock. *)
Fixpoint accesses (readings : list (Z * Z)) (id : string) (c : collection)
  : list (result value) * collection :=
  match readings with
  | [] => ([], c)
  | (at_access, at_update) :: later =>
      let (answer, c') := Service.recordMemoryAccess at_access at_update (Str id) c in
      let (answers, c'') := accesses later id c' in
      (answer :: answers, c'')
  end.

(** The answers expected of them, for a counter that stands at [n]. *)
Fixpoint answers_from (id : value) (n : Z) (readings : list (Z * Z))
  : list (result value) :=
  match readings with
  | [] => []
  | (at_access, _) :: later =>
      Ok (Obj [("id", id);
               ("access_frequency", int (n + 1));
               ("last_accessed", Str (toISOString at_access))])
      :: answers_from id (n + 1) later
  end.

(** The document after one access. *)
Definition accessed (at_access at_update : Z) (n : Z) (d : document) : document :=
  assign "access_frequency" (int (n + 1))
    (assign "updated_at" (Str (toISOString at_update))
       (assign "last_accessed" (Str (toISOString at_access)) d)).

Definition touched (k : string) : bool :=
  orb (String.eqb k "access_frequency")
      (orb (String.eqb k "last_accessed") (String.eqb k "updated_at")).

(** The time a document was last accessed at, after the calls: that of the
    last call, when there is one. *)
Definition last_reading (readings : list (Z * Z)) (d : document) : value * value :=
  match readings with
  | [] => (get (Obj d) "last_accessed", get (Obj d) "updated_at")
  | r :: later =>
      (Str (toISOString (fst (last later r))), Str (toISOString (snd (last later r))))
  end.

(** *** Batches *)

(** A record that passes the create rules. *)
Definition valid_record (e : value) : Prop :=
  e <> Undefined /\ Joi.validate Validation.memoryEmbeddingSchema e = [].

(** A body whose [embeddings] are between 1 and 50 valid records. *)
Definition acceptable (body : value) : Prop :=
  exists l,
    get body "embeddings" = Arr l
    /\ (1 <= List.length l <= 50)%nat
    /\ Forall valid_record l.

(** *** Storage *)

(** A vector of 90 items. *)
Definition dimension_ok (v : value) : Prop :=
  exists l, v = Arr l /\ List.length l = 90%nat.

(** Every stored document carries a vector of 90 items. *)
Definition vectors_ok (c : collection) : Prop :=
  Forall (fun d => dimension_ok (get (Obj d) "$vector")) (docs c).

(** The requests of the routes above. *)
Inductive request : Type :=
| GetStats (now : Z)
| PostSimilarity (body : value)
| PostBatch (st : nat -> Service.stamps) (body : value)
| GetQuery (query : value)
| PostCreate (st : Service.stamps) (body : value)
| GetById (id : string)
| PutById (now : Z) (id : string) (body : value)
| DeleteById (id : string)
| GetUser (userId : string) (query : value)
| GetType (memoryType : string) (query : value)
| PostAccess (at_access at_update : Z) (id : string).

Definition handle (r : request) : Routes.handler :=
  match r with
  | GetStats now => Routes.get_stats now
  | PostSimilarity body => Routes.post_similarity body
  | PostBatch st body => Routes.post_batch st body
  | GetQuery query => Routes.get_query query
  | PostCreate st body => Routes.post_create st body
  | GetById id => Routes.get_by_id id
  | PutById now id body => Routes.put_by_id now id body
  | DeleteById id => Routes.delete_by_id id
  | GetUser userId query => Routes.get_user userId query
  | GetType memoryType query => Routes.get_type memoryType query
  | PostAccess at_access at_update id => Routes.post_access at_access at_update id
  end.

(** A call that leaves the collection as it was. *)
Definition readonly {A} (m : M collection A) : Prop := forall c, snd (m c) = c.

(** *** The connection *)

(** A variable of the environment that is set, and not to the empty text. *)
Definition provided (env : Process.environment) (name : string) : Prop :=
  exists s, Process.getenv env name = Str s /\ s <> "".

(** The required variables that are not provided. *)
Definition missing (env : Process.environment) : list string :=
  List.filter (fun varName => negb (truthy (Process.getenv env varName)))
              AstraDB.requiredVars.

(** The same answers, but for that of [db.info()]. *)
Definition with_info (i : result unit) (d : AstraDB.answers) : AstraDB.answers :=
  {| AstraDB.newClient := AstraDB.newClient d;
     AstraDB.openDb := AstraDB.openDb d;
     AstraDB.info := i;
     AstraDB.createCollection := AstraDB.createCollection d;
     AstraDB.getCollection := AstraDB.getCollection d;
     AstraDB.options := AstraDB.options d |}.

(** The states of the connection that its operations lead to. *)
Inductive reachable : AstraDB.connection -> Prop :=
| reach_constructed : reachable AstraDB.constructed
| reach_connect env d s :
    reachable s -> reachable (snd (AstraDB.connect env d s))
| reach_disconnect s :
    reachable s -> reachable (snd (AstraDB.disconnect s))
| reach_healthCheck env d now s :
    reachable s -> reachable (snd (AstraDB.healthCheck env d now s)).

(** The collection of the memories, created or looked up. *)
Definition memory_embeddings (h : option AstraDB.handle) : Prop :=
  h = Some (AstraDB.Created "memory_embeddings" 90 "cosine")
  \/ h = Some (AstraDB.Accessed "memory_embeddings").

(** A connected state holds the collection of the memories. *)
Definition well_kept (s : AstraDB.connection) : Prop :=
  AstraDB.isConnected s = true -> memory_embeddings (AstraDB.collection s).

(** The two reports of a health check. *)
Definition unhealthy (now : Z) (message : string) : value :=
  Obj [("status", Str "unhealthy");
       ("connected", Bool false);
       ("error", Str message);
       ("timestamp", Str (toISOString now))].

Definition healthy (now : Z) (connected : bool) (stats : value) : value :=
  Obj [("status", Str "healthy");
       ("connected", Bool connected);
       ("collection", Str "memory_embeddings");
       ("vectorDimensions", or_else (get (get stats "vector") "dimension") (int 90));
       ("timestamp", Str (toISOString now))].

(** The health check once the connection is had. *)
Definition verified (d : AstraDB.answers) (now : Z) (s : AstraDB.connection)
  : result value * AstraDB.connection :=
  match AstraDB.collection s with
  | None => (Ok (unhealthy now "Cannot read properties of null (reading 'options')"), s)
  | Some _ =>
      match AstraDB.options d with
      | Throw message => (Ok (unhealthy now message), s)
      | Ok stats =>
          if nullish stats
          then (Ok (unhealthy now
                      "Cannot read properties of undefined (reading 'vector')"), s)
          else (Ok (healthy now (AstraDB.isConnected s) stats), s)
      end
  end.

(** *** Requests *)

(** The value of a header: [undefined] when the request has none. *)
Definition header (h : option string) : value :=
  match h with Some s => Str s | None => Undefined end.

(** *** Related memories *)

(** The stored document of an id, if any. *)
Definition stored (id : value) (c : collection) : option document :=
  find (matches (Obj [("_id", id)])) (docs c).

(** The record of a related memory, when it is stored and is the user's. *)
Definition owned (userId : string) (c : collection) (id : value) : list value :=
  match stored id c with
  | Some d =>
      if strict_eq (get (Obj d) "user_id") (Str userId)
      then [record_of (Obj d)]
      else []
  | None => []
  end.

(** The answer of the route of the relationships. *)
Definition related_answer (memory : value) (relatedMemories : list value)
  : Http.response :=
  let count := int (Z.of_nat (List.length relatedMemories)) in
  Routes.success 200
    (Obj [("source_memory", memory);
          ("related_memories", Arr relatedMemories);
          ("relationship_count", count)])
    (String.append "Found " (String.append (to_string count) " related memories")).

(** *** Pages *)

(** The filter and the order a query runs with. *)
Definition query_filter (queryOptions : value) : value :=
  Obj (Service.build_query (default (Obj []) queryOptions) false).

Definition query_order (queryOptions : value) : value :=
  let sort_by :=
    default (Str "created_at") (get (default (Obj []) queryOptions) "sort_by") in
  let sort_order :=
    default (Str "desc") (get (default (Obj []) queryOptions) "sort_order") in
  Obj [(to_string sort_by, if strict_eq sort_order (Str "asc") then int 1 else int (-1))].

(** The documents of a page: the matches, sorted, from the [k]-th, [n] of
    them. *)
Definition page (c : collection) (queryOptions : value) (k n : nat) : list document :=
  limited n (skipn k (sort (by_field (query_order queryOptions))
                           (List.filter (matches (query_filter queryOptions)) (docs c)))).

(** A field that is the value, or a list that holds it. *)
Definition names (field x : value) : Prop :=
  field = x \/ exists l, field = Arr l /\ In x l.

(** A value that has its place in the order: any but [NaN]. *)
Definition proper (v : value) : Prop := v <> Num NaN.

(** Rows in the order of a key, ascending or descending. *)
Definition in_order (key : string) (ascending : bool) (rows : list value) : Prop :=
  StronglySorted
    (fun r1 r2 =>
       (if ascending then leb (get r1 key) (get r2 key)
        else leb (get r2 key) (get r1 key)) = true)
    rows.

(** *** New records *)

(** The fields of a record that are stored as the create request gives
    them. *)
Definition given : list string :=
  ["user_id"; "memory_type"; "content_summary"; "original_entry_id";
   "importance_score"; "emotional_significance"; "temporal_relevance";
   "feature_vector"; "gate_scores"].

(** Whether the documents can be inserted one after the other: none has
    the identifier of a stored document or of an earlier one. *)
Fixpoint insertable (l existing : list document) : bool :=
  match l with
  | [] => true
  | d :: r =>
      andb (negb (existsb (fun d' => eqb (id_of d') (id_of d)) existing))
           (insertable r (existing ++ [d]))
  end.

(** The fields of [given] that a body does not carry. *)
Definition absent (body : value) : list string :=
  List.filter (fun f => is_undefined (get body f)) given.

(** *** Requests that fail *)

(** A request that is refused: answered 400 or handed to [next], the
    collection being as it was. *)
Definition refused (r : Http.response * collection) (c : collection) : Prop :=
  snd r = c /\ (Http.status_of (fst r) = Some 400 \/ exists m, fst r = Http.Next m).

(** *** Bodies *)

(** An object without a key. *)
Definition without (k : string) (props : list (string * value))
  : list (string * value) :=
  List.filter (fun kv => negb (String.eqb (fst kv) k)) props.

(** The keys an object schema declares. *)
Definition declared (s : Joi.schema) : list string :=
  match s with
  | Joi.Object (Some children) _ => map fst children
  | _ => []
  end.

(** The schema of a score. *)
Definition a_score : Joi.schema :=
  Joi.number .> Joi.min 0 .> Joi.max 1 .> Joi.required.

(** A score: a number, or a text that reads as one, from 0 to 1. *)
Definition score (v : value) : Prop :=
  exists q, Joi.as_number v = Some (Fin q) /\ (0 <= q <= 1)%Q.

Definition gate_keys : list string :=
  ["forget_score"; "input_score"; "output_score"; "confidence"].

(** The gate scores: an object with its four scores. *)
Definition gate_scores (v : value) : Prop :=
  (exists props, v = Obj props) /\ Forall (fun k => score (get v k)) gate_keys.

(** A text that reads as a GUID. *)
Definition guid (v : value) : Prop := exists s, v = Str s /\ Joi.is_guid s = true.

(** A text of a length between two bounds. *)
Definition text_between (lo hi : Z) (v : value) : Prop :=
  exists s, v = Str s /\ lo <= Z.of_nat (utf16_length s) <= hi.

(** One of the texts of a list. *)
Definition one_of (l : list string) (v : value) : Prop :=
  exists s, v = Str s /\ In s l.

(** A number, or a text that reads as one. *)
Definition numeric (v : value) : Prop := exists q, Joi.as_number v = Some (Fin q).

(** A whole number that is not negative. *)
Definition whole (v : value) : Prop :=
  exists q, Joi.as_number v = Some (Fin q) /\ is_integer q = true /\ (0 <= q)%Q.

(** A text that is not empty. *)
Definition text (v : value) : Prop := exists s, v = Str s /\ s <> "".

Definition list_of (P : value -> Prop) (v : value) : Prop :=
  exists l, v = Arr l /\ Forall P l.

Definition absent_or (P : value -> Prop) (v : value) : Prop := v = Undefined \/ P v.

(** What the create rules ask of a record. *)
Record well_formed (body : value) : Prop := {
  wf_user_id : guid (get body "user_id");
  wf_memory_type : one_of Validation.memory_types (get body "memory_type");
  wf_content_summary : text_between 1 5000 (get body "content_summary");
  wf_original_entry_id : guid (get body "original_entry_id");
  wf_importance_score : score (get body "importance_score");
  wf_emotional_significance : score (get body "emotional_significance");
  wf_temporal_relevance : score (get body "temporal_relevance");
  wf_access_frequency : absent_or whole (get body "access_frequency");
  wf_feature_vector :
    exists l, get body "feature_vector" = Arr l
              /\ List.length l = 90%nat /\ Forall numeric l;
  wf_gate_scores : gate_scores (get body "gate_scores");
  wf_relationships : absent_or (list_of guid) (get body "relationships");
  wf_context_needed :
    absent_or (fun v => exists props, v = Obj props) (get body "context_needed");
  wf_retrieval_triggers : absent_or (list_of text) (get body "retrieval_triggers")
}.

(** What the query rules ask of the parameters of a query. *)
Definition whole_between (lo hi : Z) (v : value) : Prop :=
  exists q, Joi.as_number v = Some (Fin q) /\ is_integer q = true
            /\ (inject_Z lo <= q <= inject_Z hi)%Q.

Record bounded (query : value) : Prop := {
  b_user_id : absent_or guid (get query "user_id");
  b_memory_type : absent_or (one_of Validation.memory_types) (get query "memory_type");
  b_min_importance_score : absent_or score (get query "min_importance_score");
  b_min_emotional_significance :
    absent_or score (get query "min_emotional_significance");
  b_min_temporal_relevance : absent_or score (get query "min_temporal_relevance");
  b_limit : absent_or (whole_between 1 100) (get query "limit");
  b_offset : absent_or whole (get query "offset");
  b_sort_by : absent_or (one_of Validation.sort_keys) (get query "sort_by");
  b_sort_order : absent_or (one_of ["asc"; "desc"]) (get query "sort_order")
}.

(** The filter a similarity search gives to the collection. *)
Definition search_filter (options : value) : value :=
  Obj (Service.build_query
         (default (Obj []) (get (default (Obj []) options) "filters")) true).

(** The request for ten rows after the first ten, as a query string gives
    it: both values are texts. *)
Definition ten_after_ten : value := Obj [("offset", Str "10"); ("limit", Str "10")].

(** The greatest integer below which every integer is a double. *)
Definition max_safe_integer : Z := 9007199254740991.

(** The documents a similarity search chooses from, each with its score:
    those that match the filter and carry a vector. *)
Definition candidates (c : collection) (query : list value) (options : value)
  : list (Q * document) :=
  flat_map (scored c query) (List.filter (matches (search_filter options)) (docs c)).

End Terms.

(** ** A collection of three memories *)

Module Sample.
Import Js Effect Store Http Terms.

(** The first coordinate of the stored vector, as a score. *)
Definition first_coordinate (v query : list value) : Q :=
  match v with
  | Num (Fin q) :: _ => q
  | _ => 0%Q
  end.

Definition vector (x : Q) : value := Arr (Num (Fin x) :: repeat (int 0) 89).

Definition memory (user : string) (kind : string) (importance x : Q) : value :=
  Obj [("user_id", Str user);
       ("memory_type", Str kind);
       ("content_summary", Str "a walk by the river");
       ("original_entry_id", Str "550e8400-e29b-41d4-a716-446655440001");
       ("importance_score", Num (Fin importance));
       ("emotional_significance", Num (Fin (7 # 10)));
       ("temporal_relevance", Num (Fin (9 # 10)));
       ("feature_vector", vector x);
       ("gate_scores", Obj [("forget_score", Num (Fin (1 # 5)));
                            ("input_score", Num (Fin (4 # 5)));
                            ("output_score", Num (Fin (9 # 10)));
                            ("confidence", Num (Fin (17 # 20)))]);
       ("retrieval_triggers", Arr [Str "river"; Str "walk"])].

Definition ann : string := "550e8400-e29b-41d4-a716-446655440000".
Definition bob : string := "550e8400-e29b-41d4-a716-446655440123".

Definition stamp (id : string) (t : Z) : Service.stamps :=
  {| Service.uuid := id; Service.at_last_accessed := t;
     Service.at_created := t; Service.at_updated := t |}.

Definition m1 : document :=
  Service.new_document (stamp "m1" 1000) (memory ann "conversation" (1 # 2) (1 # 4)).
Definition m2 : document :=
  Service.new_document (stamp "m2" 2000) (memory bob "event" (1 # 4) (3 # 4)).
Definition m3 : document :=
  Service.new_document (stamp "m3" 3000) (memory ann "insight" (3 # 4) (1 # 2)).

Definition memories : collection :=
  {| docs := [m1; m2; m3]; metric := first_coordinate; outage := None |}.

Definition nothing : collection :=
  {| docs := []; metric := first_coordinate; outage := None |}.

(** A record whose vector has 50 items. *)
Definition short_vector : value :=
  Obj [("user_id", Str ann); ("feature_vector", Arr (repeat (int 0) 50))].

(** Fifty-one records in one batch. *)
Definition too_many : value :=
  Obj [("embeddings", Arr (repeat (memory ann "event" (1 # 2) (1 # 2)) 51))].

(** Two accesses of the first memory within one millisecond. *)
Definition same_instant : list (result value) :=
  fst (accesses [(4000, 4000); (4000, 4000)] "m1" memories).

(** The first memory, listed and looked up. *)
Definition listed : result value :=
  fst (Service.queryMemoryEmbeddings (Obj [("limit", int 1)]) memories).

Definition looked_up : result value :=
  fst (Service.getMemoryEmbeddingById (Str "m1") memories).

Definition answer_of (r : result value) : value :=
  match r with Ok a => a | Throw _ => Undefined end.

(** An environment with the four variables of the database, and a database
    client for which every call succeeds, one that finds the collection
    already there, and one that fails every call. *)
Definition configured : Process.environment :=
  [("ASTRA_DB_APPLICATION_TOKEN", "AstraCS:secret");
   ("ASTRA_DB_ID", "0f1e2d3c");
   ("ASTRA_DB_REGION", "us-east1");
   ("ASTRA_DB_KEYSPACE", "default_keyspace")].

Definition all_well : AstraDB.answers :=
  {| AstraDB.newClient := Ok tt; AstraDB.openDb := Ok tt; AstraDB.info := Ok tt;
     AstraDB.createCollection := Ok tt; AstraDB.getCollection := Ok tt;
     AstraDB.options :=
       Ok (Obj [("vector", Obj [("dimension", int 90); ("metric", Str "cosine")])]) |}.

Definition already_there : AstraDB.answers :=
  {| AstraDB.newClient := Ok tt; AstraDB.openDb := Ok tt;
     AstraDB.info := Throw "not allowed";
     AstraDB.createCollection := Throw "Collection already exists";
     AstraDB.getCollection := Ok tt;
     AstraDB.options := Ok (Obj []) |}.

Definition out_of_reach : AstraDB.answers :=
  {| AstraDB.newClient := Ok tt; AstraDB.openDb := Ok tt;
     AstraDB.info := Throw "getaddrinfo ENOTFOUND";
     AstraDB.createCollection := Throw "getaddrinfo ENOTFOUND";
     AstraDB.getCollection := Ok tt;
     AstraDB.options := Throw "getaddrinfo ENOTFOUND" |}.

(** The connection once established. *)
Definition established : AstraDB.connection :=
  snd (AstraDB.connect configured all_well AstraDB.constructed).

(** A fourth memory, of Ann, with relationships to the third memory, to the
    second, which is Bob's, and to one that is not stored. *)
Definition linked (ids : list string) (body : value) : value :=
  match body with
  | Obj props => Obj (("relationships", Arr (map Str ids)) :: props)
  | _ => body
  end.

Definition m4 : document :=
  Service.new_document (stamp "m4" 4000)
    (linked ["m3"; "m2"; "m9"] (memory ann "event" (1 # 2) (1 # 8))).

Definition family : collection :=
  {| docs := [m1; m2; m3; m4]; metric := first_coordinate; outage := None |}.

(** The three memories behind a database that cannot be reached. *)
Definition unreachable : collection :=
  {| docs := [m1; m2; m3]; metric := first_coordinate;
     outage := Some "getaddrinfo ENOTFOUND" |}.

(** Two records in one batch, and their stamps. *)
Definition two_records : value :=
  Obj [("embeddings", Arr [memory ann "event" (1 # 2) (1 # 2);
                           memory bob "insight" (1 # 4) (3 # 4)])].

Definition batch_stamps (i : nat) : Service.stamps :=
  match i with
  | O => stamp "m5" 5000
  | _ => stamp "m6" 5000
  end.

(** Twenty-five memories of Ann. *)
Definition numbered (i : nat) : document :=
  Service.new_document
    (stamp (String.append "n" (digit_string (Z.of_nat i))) (1000 * Z.of_nat i))
    (memory ann "event" (1 # 2) (1 # 2)).

Definition twenty_five : collection :=
  {| docs := map numbered (seq 0 25); metric := first_coordinate; outage := None |}.

End Sample.

(** * Properties *)

(** ** Integers as JavaScript numbers *)

Module NumberFacts.
Import Js.

Lemma Qred_inject_Z (z : Z) : Qred (inject_Z z) = inject_Z z.
Proof.
  unfold Qred, inject_Z.
  pose proof (Z.ggcd_gcd z 1) as Hg.
  pose proof (Z.ggcd_correct_divisors z 1) as Hd.
  destruct (Z.ggcd z 1) as (g, (a, b)); simpl in *.
  rewrite Z.gcd_1_r in Hg; subst g.
  destruct Hd as [Ha Hb].
  replace b with 1 by lia. replace a with z by lia. reflexivity.
Qed.

Lemma num_add_int (a b : Z) :
  num_add (Fin (inject_Z a)) (Fin (inject_Z b)) = Fin (inject_Z (a + b)).
Proof.
  unfold num_add. f_equal. rewrite <- (Qred_inject_Z (a + b)).
  apply Qred_complete. rewrite inject_Z_plus. reflexivity.
Qed.

Lemma Qeq_bool_inject_Z (a b : Z) : Qeq_bool (inject_Z a) (inject_Z b) = (a =? b).
Proof.
  unfold Qeq_bool, inject_Z; simpl. rewrite !Z.mul_1_r.
  reflexivity.
Qed.

Lemma Qle_bool_inject_Z (a b : Z) : Qle_bool (inject_Z a) (inject_Z b) = (a <=? b).
Proof. unfold Qle_bool, inject_Z; simpl. rewrite !Z.mul_1_r. reflexivity. Qed.

Lemma num_lt_int (a b : Z) :
  num_lt (Fin (inject_Z a)) (Fin (inject_Z b)) = (a <? b).
Proof. simpl. rewrite Qle_bool_inject_Z. rewrite Z.ltb_antisym. reflexivity. Qed.

Lemma num_eqb_int (a b : Z) :
  num_eqb (Fin (inject_Z a)) (Fin (inject_Z b)) = (a =? b).
Proof. apply Qeq_bool_inject_Z. Qed.

Lemma is_integer_int (z : Z) : is_integer (inject_Z z) = true.
Proof.
  unfold is_integer. rewrite Qfloor_Z. apply Qeq_bool_iff. reflexivity.
Qed.

Lemma num_div_int (a b : Z) :
  b <> 0 ->
  num_div (Fin (inject_Z a)) (Fin (inject_Z b))
  = Fin (Qred (inject_Z a / inject_Z b)).
Proof.
  intros Hb. unfold num_div.
  change 0%Q with (inject_Z 0). rewrite Qeq_bool_inject_Z.
  destruct (Z.eqb_spec b 0); [contradiction | reflexivity].
Qed.

(** [Math.floor(a / b)] on integers is the quotient of the division. *)
Lemma floor_div_int (a b : Z) :
  b <> 0 ->
  num_floor (num_div (Fin (inject_Z a)) (Fin (inject_Z b))) = Fin (inject_Z (a / b)).
Proof.
  intros Hb. rewrite num_div_int by exact Hb. unfold num_floor.
  rewrite (Qfloor_comp _ _ (Qred_correct _)), <- Zdiv_Qdiv. reflexivity.
Qed.

(** [Math.ceil(a / b)] on integers. *)
Lemma ceil_div_int (a b : Z) :
  b <> 0 ->
  num_ceil (num_div (Fin (inject_Z a)) (Fin (inject_Z b)))
  = Fin (inject_Z (- (- a / b))).
Proof.
  intros Hb. rewrite num_div_int by exact Hb. unfold num_ceil, Qceiling.
  assert (E : (- Qred (inject_Z a / inject_Z b) == inject_Z (- a) / inject_Z b)%Q).
  { rewrite Qred_correct. rewrite inject_Z_opp. unfold Qdiv.
    ring. }
  rewrite (Qfloor_comp _ _ E), <- Zdiv_Qdiv. reflexivity.
Qed.

(** The quotient rounded up is the least number of pages of [b] items that
    hold [a] items. *)
Lemma ceiling_pages (a b : Z) :
  0 < b -> b * (- (- a / b) - 1) < a <= b * - (- a / b).
Proof.
  intros Hb.
  pose proof (Z.div_mod (- a) b ltac:(lia)) as E.
  pose proof (Z.mod_pos_bound (- a) b Hb) as B.
  nia.
Qed.

Lemma count_of_int (n : Z) : 0 <= n -> Store.count_of (int n) = Some (Z.to_nat n).
Proof.
  intros Hn. unfold Store.count_of, int.
  rewrite is_integer_int. change 0%Q with (inject_Z 0).
  rewrite Qle_bool_inject_Z.
  destruct (Z.leb_spec 0 n); [| lia]. cbn [andb]. rewrite Qfloor_Z. reflexivity.
Qed.

End NumberFacts.

(** ** Objects *)

Module ObjectFacts.
Import Js.

Lemma lookup_assign (k k' : string) (v : value) (props : list (string * value)) :
  lookup k (assign k' v props)
  = if String.eqb k k' then Some v else lookup k props.
Proof.
  induction props as [| [k0 v0] r IH]; simpl.
  - destruct (String.eqb k k'); reflexivity.
  - destruct (String.eqb_spec k' k0) as [-> | Hne]; simpl.
    + destruct (String.eqb k k0); reflexivity.
    + rewrite IH. destruct (String.eqb_spec k k0) as [-> | Hne'].
      * destruct (String.eqb_spec k0 k'); [congruence | reflexivity].
      * reflexivity.
Qed.

Lemma get_assign (k k' : string) (v : value) (props : list (string * value)) :
  get (Obj (assign k' v props)) k
  = if String.eqb k k' then v else get (Obj props) k.
Proof.
  unfold get. rewrite lookup_assign. destruct (String.eqb k k'); reflexivity.
Qed.

(** Assigning fields leaves the properties they do not name as they were. *)
Lemma lookup_assign_all (k : string) (fields into : list (string * value)) :
  lookup k fields = None ->
  lookup k (assign_all fields into) = lookup k into.
Proof.
  revert into. induction fields as [| [k0 v0] r IH]; intros into H; simpl in *.
  - reflexivity.
  - destruct (String.eqb_spec k k0) as [-> | Hne]; [discriminate |].
    rewrite (IH _ H), lookup_assign.
    destruct (String.eqb_spec k k0); [contradiction | reflexivity].
Qed.

(** A property assigned once is read back. *)
Lemma lookup_assign_all_last (k : string) (v : value)
  (fields into : list (string * value)) :
  lookup k fields = Some v -> NoDup (keys fields) ->
  lookup k (assign_all fields into) = Some v.
Proof.
  revert into. induction fields as [| [k0 v0] r IH]; intros into H ND; simpl in *.
  - discriminate.
  - inversion ND as [| ? ? Hnot ND']; subst.
    destruct (String.eqb_spec k k0) as [-> | Hne].
    + injection H as ->.
      assert (Hnone : lookup k0 r = None).
      { clear - Hnot. induction r as [| [k1 v1] r IH]; simpl in *; [reflexivity |].
        destruct (String.eqb_spec k0 k1) as [-> | ?]; [tauto |].
        apply IH. tauto. }
      fold (assign_all r (assign k0 v into)).
      rewrite (lookup_assign_all _ _ _ Hnone), lookup_assign, String.eqb_refl.
      reflexivity.
    + apply IH; assumption.
Qed.

Lemma keys_assign (k : string) (v : value) (props : list (string * value)) :
  keys (assign k v props)
  = if existsb (String.eqb k) (keys props) then keys props else keys props ++ [k].
Proof.
  induction props as [| [k0 v0] r IH]; simpl; [reflexivity |].
  destruct (String.eqb_spec k k0) as [-> | Hne]; simpl; [reflexivity |].
  rewrite IH. destruct (existsb (String.eqb k) (keys r)); reflexivity.
Qed.

Lemma NoDup_keys_assign (k : string) (v : value) (props : list (string * value)) :
  NoDup (keys props) -> NoDup (keys (assign k v props)).
Proof.
  intros ND. rewrite keys_assign.
  destruct (existsb (String.eqb k) (keys props)) eqn:E; [exact ND |].
  apply NoDup_app.
  - exact ND.
  - constructor; [intros [] | constructor].
  - intros x Hx [Hk | []]. subst x.
    assert (existsb (String.eqb k) (keys props) = true); [| congruence].
    apply existsb_exists. exists k. split; [exact Hx | apply String.eqb_refl].
Qed.

End ObjectFacts.

(** ** Exceptions *)

Module EffectFacts.
Import Js Effect Store.

Lemma rethrow_message {A} (prefix : string) (body : M collection A) c message c' :
  rethrow prefix body c = (Throw message, c') ->
  exists e, message = String.append prefix e.
Proof.
  unfold rethrow. destruct (body c) as [[a | e] c0]; intros H.
  - discriminate.
  - injection H as <- _. exists e. reflexivity.
Qed.

End EffectFacts.

(** ** Not-found responses *)

Module NotFound.
Import Js Effect Store Http Routes Terms.

(** Whatever the service throws, the message a handler receives is not the
    one it tests for. *)
Lemma respond_or_404_has_prefix
  (prefix : string) (body : Service.service value) (reply : value -> response)
  (c : collection) :
  (forall e, String.eqb (String.append prefix e) not_found_message = false) ->
  (forall data, status_of (reply data) <> Some 404) ->
  status_of (fst (respond_or_404 (rethrow prefix body) reply c)) <> Some 404.
Proof.
  intros Hprefix Hreply. unfold respond_or_404.
  destruct (rethrow prefix body c) as [[data | message] c'] eqn:E; simpl.
  - apply Hreply.
  - destruct (EffectFacts.rethrow_message _ _ _ _ _ E) as [e ->].
    rewrite Hprefix. simpl. discriminate.
Qed.

Lemma guarded_status (check : option response) (h : handler) (c : collection) :
  (forall r, check = Some r -> status_of r <> Some 404) ->
  status_of (fst (h c)) <> Some 404 ->
  status_of (fst (guarded check h c)) <> Some 404.
Proof.
  intros Hc Hh. unfold guarded. destruct check as [r |]; simpl.
  - apply Hc. reflexivity.
  - exact Hh.
Qed.

Lemma validate_status (schema : Joi.schema) (body : value) (r : response) :
  Validation.validate schema body = Some r -> status_of r = Some 400.
Proof.
  unfold Validation.validate. destruct (Joi.validate schema body); intros H.
  - discriminate.
  - injection H as <-. reflexivity.
Qed.

(** None of the four handlers answers 404, for any collection, id and
    body: the message they compare with is never the one they receive. *)
Lemma no_handler_answers_404 (c : collection) (id : string) (body : value)
  (now at_access at_update : Z) :
  status_of (fst (get_by_id id c)) <> Some 404
  /\ status_of (fst (put_by_id now id body c)) <> Some 404
  /\ status_of (fst (delete_by_id id c)) <> Some 404
  /\ status_of (fst (post_access at_access at_update id c)) <> Some 404.
Proof.
  repeat split.
  - apply respond_or_404_has_prefix; [reflexivity | discriminate].
  - apply guarded_status.
    + intros r H. rewrite (validate_status _ _ _ H). discriminate.
    + apply respond_or_404_has_prefix; [reflexivity | discriminate].
  - apply respond_or_404_has_prefix; [reflexivity | discriminate].
  - apply respond_or_404_has_prefix; [reflexivity | discriminate].
Qed.

(** C1, as the code has it.  The claim: a request for an id that is not
    stored is answered 404 by the handlers of get, update, delete and
    record-access, which recognise the not-found error of the service.  The
    service rethrows every error behind a prefix of its own, so for an id
    that is not stored each of the four handlers receives a message other
    than the one it tests for and hands the error to [next], as it does any
    other failure; none of them answers 404. *)
Theorem missing_id_is_forwarded :
  forall (c : collection) (id : string),
    outage c = None -> no_document id c ->
    get_by_id id c
    = (Next "Failed to get memory embedding: Memory embedding not found", c)
    /\ delete_by_id id c
       = (Next "Failed to delete memory embedding: Memory embedding not found", c)
    /\ (forall now body,
          Validation.validate Validation.updateMemoryEmbeddingSchema body = None ->
          nullish body = false ->
          put_by_id now id body c
          = (Next "Failed to update memory embedding: Memory embedding not found", c))
    /\ (forall at_access at_update,
          post_access at_access at_update id c
          = (Next "Failed to record memory access: Memory embedding not found", c))
    /\ (forall now body at_access at_update,
          status_of (fst (get_by_id id c)) <> Some 404
          /\ status_of (fst (put_by_id now id body c)) <> Some 404
          /\ status_of (fst (delete_by_id id c)) <> Some 404
          /\ status_of (fst (post_access at_access at_update id c)) <> Some 404).
Proof.
  intros c id Hup Hno. unfold no_document, by_id in Hno.
  split; [| split; [| split; [| split]]];
    try (intros; apply no_handler_answers_404);
    intros;
    unfold get_by_id, delete_by_id, put_by_id, post_access, guarded,
      respond_or_404, Service.getMemoryEmbeddingById, Service.deleteMemoryEmbedding,
      Service.updateMemoryEmbedding, Service.recordMemoryAccess,
      Service.initialize, Service.reading, connect, findOne, deleteOne,
      findOneAndUpdate, rethrow, bind, call, ret;
    try match goal with H : Validation.validate _ _ = None |- _ => rewrite H end;
    try match goal with H : nullish _ = false |- _ => rewrite H end;
    repeat first [rewrite Hup | rewrite Hno | progress cbv beta iota];
    reflexivity.
Qed.

End NotFound.

(** ** Pagination *)

Module Pagination.
Import Js Effect Store Http NumberFacts Terms.

Lemma limited_length {A} (n : nat) (l : list A) :
  (0 < n)%nat -> (List.length (limited n l) <= n)%nat.
Proof.
  intros Hn. destruct n; [lia |]. unfold limited.
  rewrite length_firstn. lia.
Qed.

Lemma limited_page {A} (limit : Z) (l : list A) :
  0 < limit -> Z.of_nat (List.length (limited (Z.to_nat limit) l)) <= limit.
Proof.
  intros Hpos. pose proof (limited_length (Z.to_nat limit) l ltac:(lia)). lia.
Qed.

(** A query with integer limit and offset runs to its end, and leaves the
    collection as it was. *)
Lemma query_runs (c : collection) (queryOptions : value) (offset limit : Z) :
  outage c = None ->
  queryOptions <> Null ->
  query_limit queryOptions = int limit ->
  query_offset queryOptions = int offset ->
  0 <= limit -> 0 <= offset ->
  exists rows,
    Service.queryMemoryEmbeddings queryOptions c
    = (Ok (Obj [("results", Arr rows);
                ("pagination",
                  Service.pagination (int offset) (int limit)
                    (int (total_matching queryOptions c)))]), c)
    /\ (0 < limit -> Z.of_nat (List.length rows) <= limit).
Proof.
  intros Hup Hnull Hl Ho Hl0 Ho0.
  unfold query_limit, query_offset in *.
  assert (Hobj : nullish (default (Obj []) queryOptions) = false)
    by (destruct queryOptions; try reflexivity; contradiction).
  unfold Service.queryMemoryEmbeddings, Service.initialize, Service.reading,
    connect, find_page, countDocuments, rethrow, bind, call, ret.
  cbv beta. repeat rewrite Hup. cbv beta iota. rewrite Hobj. cbv beta iota.
  rewrite Hl, Ho, (count_of_int _ Hl0), (count_of_int _ Ho0).
  cbv beta iota. repeat rewrite Hup. cbv beta iota.
  eexists. split; [reflexivity |].
  intros Hpos. rewrite !length_map. apply limited_page. exact Hpos.
Qed.

(** The summary computed from an integer offset, a non-zero integer limit
    and an integer total. *)
Lemma pagination_of_integers (offset limit total : Z) :
  limit <> 0 ->
  Service.pagination (int offset) (int limit) (int total)
  = Obj [("total_count", int total);
         ("current_page", int (offset / limit + 1));
         ("total_pages", int (- (- total / limit)));
         ("has_next", Bool (offset + limit <? total));
         ("has_previous", Bool (0 <? offset))].
Proof.
  intros Hl. unfold Service.pagination, plus, floor, div, ceil, gt, lt, int.
  cbn [stringy orb andb to_number].
  rewrite (floor_div_int _ _ Hl), (ceil_div_int _ _ Hl), !num_add_int, !num_lt_int.
  reflexivity.
Qed.

(** The summary of a query whose offset and limit are numbers, as the
    routes of a user and of a type give them: for a non-negative integer
    offset and a positive integer limit, [total] being the number of
    documents that match the filter, [has_next] is [offset + limit < total],
    [has_previous] is [offset > 0], [current_page] is
    [floor(offset / limit) + 1], [total_pages] is the least number of pages
    of [limit] items that hold [total] items, that is [ceil(total / limit)],
    and the page has at most [limit] records.  The integers are within the
    53 bits of a double. *)
Lemma pagination_summary_of_a_query :
  forall (c : collection) (queryOptions : value) (offset limit : Z),
    outage c = None ->
    queryOptions <> Null ->
    query_limit queryOptions = int limit ->
    query_offset queryOptions = int offset ->
    0 < limit -> 0 <= offset ->
    offset + limit <= max_safe_integer ->
    total_matching queryOptions c <= max_safe_integer ->
    exists rows summary,
      Service.queryMemoryEmbeddings queryOptions c
      = (Ok (Obj [("results", Arr rows); ("pagination", summary)]), c)
      /\ get summary "total_count" = int (total_matching queryOptions c)
      /\ get summary "has_next"
         = Bool (offset + limit <? total_matching queryOptions c)
      /\ get summary "has_previous" = Bool (0 <? offset)
      /\ get summary "current_page" = int (offset / limit + 1)
      /\ (exists pages,
            get summary "total_pages" = int pages
            /\ limit * (pages - 1) < total_matching queryOptions c <= limit * pages)
      /\ Z.of_nat (List.length rows) <= limit.
Proof.
  intros c queryOptions offset limit Hup Hnull Hl Ho Hpos Hoff _ _.
  destruct (query_runs c queryOptions offset limit Hup Hnull Hl Ho ltac:(lia) Hoff)
    as [rows [Hrun Hlen]].
  exists rows. eexists. split; [exact Hrun |].
  rewrite pagination_of_integers by lia.
  do 4 (split; [reflexivity |]).
  split.
  - eexists. split; [reflexivity |]. apply ceiling_pages. exact Hpos.
  - apply Hlen. exact Hpos.
Qed.

(** The summary computed with a limit of zero: the two divisions are by
    zero. *)
Lemma pagination_of_limit_zero (offset total : Z) :
  0 <= offset -> 0 <= total ->
  get (Service.pagination (int offset) (int 0) (int total)) "current_page"
  = Num (if offset =? 0 then NaN else PosInf)
  /\ get (Service.pagination (int offset) (int 0) (int total)) "total_pages"
     = Num (if total =? 0 then NaN else PosInf).
Proof.
  intros Ho Ht.
  unfold Service.pagination, plus, floor, div, ceil, int, num_div, get.
  cbn [lookup String.eqb Ascii.eqb Bool.eqb stringy orb to_number].
  change 0%Q with (inject_Z 0). rewrite !Qeq_bool_inject_Z.
  change (0 =? 0) with true. cbv iota.
  unfold sign_inf. change 0%Q with (inject_Z 0). rewrite !Qle_bool_inject_Z.
  split.
  - destruct (Z.eqb_spec offset 0); [reflexivity |].
    destruct (Z.leb_spec offset 0); [lia | reflexivity].
  - destruct (Z.eqb_spec total 0); [reflexivity |].
    destruct (Z.leb_spec total 0); [lia | reflexivity].
Qed.

(** The operands of the summary as a query string holds them, before any
    conversion: [+] concatenates two strings, and the sum that [has_next]
    compares is not the sum of the numbers. *)
Lemma pagination_of_strings :
  get (Service.pagination (Str "10") (Str "10") (int 25)) "has_next" = Bool false
  /\ get (Service.pagination (int 10) (int 10) (int 25)) "has_next" = Bool true.
Proof. split; reflexivity. Qed.

Lemma total_matching_nonneg (queryOptions : value) (c : collection) :
  0 <= total_matching queryOptions c.
Proof. unfold total_matching. lia. Qed.

(** C4, as the code has it.  The claim: with a limit of zero the pagination
    does not divide by zero, the query being rejected or answered with a
    defined single page.  The routes that list the memories of a user or of
    a type pass [parseInt(limit)] to the service with no validation, and the
    service divides by it: [GET /user/:userId?limit=0] is answered 200 with
    [current_page = NaN] and [total_pages] equal to [NaN] or [Infinity]. *)
Theorem limit_zero_divides_by_zero :
  forall (c : collection) (userId : string),
    outage c = None ->
    exists rows summary message,
      Routes.get_user userId (Obj [("limit", Str "0")]) c
      = (Json 200 (Obj [("success", Bool true);
                        ("data", Obj [("results", Arr rows);
                                      ("pagination", summary)]);
                        ("message", Str message)]), c)
      /\ get summary "current_page" = Num NaN
      /\ (get summary "total_pages" = Num NaN
          \/ get summary "total_pages" = Num PosInf).
Proof.
  intros c userId Hup.
  set (options := Obj [("user_id", Str userId);
                       ("limit", Routes.parse_int (Str "0"));
                       ("offset", Routes.parse_int (int 0));
                       ("sort_by", Str "created_at");
                       ("sort_order", Str "desc")]).
  destruct (query_runs c options 0 0 Hup ltac:(discriminate) eq_refl eq_refl
              ltac:(lia) ltac:(lia))
    as [rows [Hrun _]].
  pose proof (pagination_of_limit_zero 0 (total_matching options c)
                ltac:(lia) (total_matching_nonneg _ _)) as [Hpage Hpages].
  exists rows. eexists. eexists. split.
  - unfold Routes.get_user, Routes.respond.
    change (Service.queryMemoryEmbeddings _ c)
      with (Service.queryMemoryEmbeddings options c).
    rewrite Hrun. reflexivity.
  - split; [exact Hpage |].
    rewrite Hpages. destruct (total_matching options c =? 0); [left | right]; reflexivity.
Qed.

End Pagination.

(** ** Validation *)

Module JoiFacts.
Import Js Joi.

Section SchemaInduction.
Variable P : schema -> Prop.
Hypothesis scalar_case : forall b o, P (Scalar b o).
Hypothesis array_case :
  forall item o, (forall it, item = Some it -> P it) -> P (Array item o).
Hypothesis object_case :
  forall children o,
    (forall declared, children = Some declared ->
                      Forall (fun ks => P (snd ks)) declared) ->
    P (Object children o).

Lemma schema_induction (s : schema) : P s.
Proof.
  revert s. fix IH 1. intros [b o | item o | children o].
  - apply scalar_case.
  - apply array_case. intros it E.
    destruct item as [it0 |]; [| discriminate]. injection E as <-. apply IH.
  - apply object_case. intros declared E.
    destruct children as [l |]; [| discriminate]. injection E as <-.
    induction l as [| ks r IHr]; constructor; [apply IH | exact IHr].
Qed.
End SchemaInduction.

Lemma check_array (item : option schema) (o : opts) (p : list String.string)
  (elems : list value) :
  check (Array item o) p (Arr elems)
  = item_violations o item p 0 elems
    ++ flat_map (array_rule o p (Z.of_nat (List.length elems))) (rules o).
Proof.
  simpl. f_equal. generalize 0 as i.
  induction elems as [| x r IH]; intros i; simpl; [reflexivity |].
  rewrite IH. reflexivity.
Qed.

Lemma check_object (declared : list (String.string * schema)) (o : opts)
  (p : list String.string) (props : list (String.string * value)) :
  check (Object (Some declared) o) p (Obj props)
  = child_violations p (Obj props) declared.
Proof.
  simpl. induction declared as [| [k sub] r IH]; simpl; [reflexivity |].
  rewrite IH. reflexivity.
Qed.

Lemma flat_map_nil {A B} (f : A -> list B) (l : list A) :
  flat_map f l = [] <-> Forall (fun x => f x = []) l.
Proof.
  induction l as [| x r IH]; simpl.
  - split; intros; constructor.
  - split.
    + intros H. apply app_eq_nil in H as [Hx Hr]. constructor; [exact Hx | apply IH, Hr].
    + intros H. inversion H; subst. rewrite (proj2 IH) by assumption.
      rewrite H2. reflexivity.
Qed.

(** A value that passes an object schema is absent or an object, each
    declared key of which passes its own schema. *)
Lemma valid_object (declared : list (String.string * schema)) (o : opts)
  (p : list String.string) (v : value) :
  check (Object (Some declared) o) p v = [] ->
  v = Undefined
  \/ exists props,
      v = Obj props
      /\ Forall (fun ks => check (snd ks) (p ++ [fst ks]) (get v (fst ks)) = [])
                declared.
Proof.
  intros H. destruct v; try (simpl in H; discriminate).
  - left. reflexivity.
  - right. exists props. split; [reflexivity |].
    rewrite check_object in H. apply flat_map_nil in H. exact H.
Qed.

Lemma valid_any_object (children : option (list (String.string * schema))) (o : opts)
  (p : list String.string) (v : value) :
  check (Object children o) p v = [] ->
  v = Undefined \/ exists props, v = Obj props.
Proof.
  intros H. destruct v; try (simpl in H; discriminate).
  - left. reflexivity.
  - right. eexists. reflexivity.
Qed.

(** A value that passes an array schema is absent or an array that passes
    the rules on its length. *)
Lemma valid_array (item : option schema) (o : opts) (p : list String.string) (v : value) :
  check (Array item o) p v = [] ->
  v = Undefined
  \/ exists elems,
      v = Arr elems
      /\ item_violations o item p 0 elems = []
      /\ Forall (fun r => array_rule o p (Z.of_nat (List.length elems)) r = [])
                (rules o).
Proof.
  intros H. destruct v as [| | | | | elems |]; try (simpl in H; discriminate).
  - left. reflexivity.
  - right. exists elems. split; [reflexivity |].
    rewrite check_array in H. apply app_eq_nil in H as [Hi Hr].
    split; [exact Hi | apply flat_map_nil, Hr].
Qed.

(** A value that passes a string schema with no list of allowed values is
    absent or a string that is not empty. *)
Lemma valid_string (o : opts) (p : list String.string) (v : value) :
  allowed_values o = None ->
  check (Scalar TString o) p v = [] ->
  v = Undefined \/ exists s, v = Str s /\ s <> "".
Proof.
  intros Hall H. destruct v; try (simpl in H; rewrite ?Hall in H; discriminate).
  - left. reflexivity.
  - right. exists s. split; [reflexivity |].
    simpl in H. unfold check_string in H. rewrite Hall in H.
    destruct (String.eqb_spec s ""); [discriminate | assumption].
Qed.

(** *** The path of a value has no part in its validity *)

Lemma codes_app (a b : list violation) : codes (a ++ b) = codes a ++ codes b.
Proof. apply map_app. Qed.

Lemma codes_flat_map {A} (f g : A -> list violation) (l : list A) :
  (forall x, codes (f x) = codes (g x)) ->
  codes (flat_map f l) = codes (flat_map g l).
Proof.
  intros H. induction l as [| x r IH]; simpl; [reflexivity |].
  rewrite !codes_app, H, IH. reflexivity.
Qed.

Lemma codes_scalar (b : base) (o : opts) (p p' : list String.string) (v : value) :
  codes (check (Scalar b o) p v) = codes (check (Scalar b o) p' v).
Proof.
  destruct v; simpl; try (destruct (is_required o); reflexivity);
    destruct b; simpl;
    unfold check_number, check_finite, check_string, check_date; simpl;
    repeat match goal with
           | |- context [match ?x with _ => _ end] =>
               match x with
               | context [p] => fail 1
               | context [p'] => fail 1
               | _ => destruct x
               end
           end;
    try reflexivity;
    apply codes_flat_map; intros r; destruct r; simpl;
    repeat match goal with
           | |- context [if ?x then _ else _] => destruct x
           end;
    reflexivity.
Qed.

Lemma codes_items (o : opts) (item : option schema) (p p' : list String.string) :
  (forall it, item = Some it ->
              forall q q' v, codes (check it q v) = codes (check it q' v)) ->
  forall (elems : list value) (i : Z),
    codes (item_violations o item p i elems)
    = codes (item_violations o item p' i elems).
Proof.
  intros IH elems. induction elems as [| x r IHr]; intros i; simpl; [reflexivity |].
  rewrite !codes_app, IHr. f_equal.
  destruct x; try reflexivity; destruct item as [it |]; try reflexivity;
    apply (IH it eq_refl).
Qed.

Lemma codes_path_independent (s : schema) :
  forall (p p' : list String.string) (v : value),
    codes (check s p v) = codes (check s p' v).
Proof.
  induction s as [b o | item o IH | children o IH] using schema_induction;
    intros p p' v.
  - apply codes_scalar.
  - destruct v as [| | | | | elems |];
      try (simpl; try destruct (is_required o); reflexivity).
    rewrite !check_array, !codes_app. f_equal.
    + apply codes_items. exact IH.
    + apply codes_flat_map. intros r. destruct r; simpl;
        repeat match goal with
               | |- context [if ?x then _ else _] => destruct x
               end; reflexivity.
  - destruct v as [| | | | | | props];
      try (simpl; try destruct (is_required o); reflexivity).
    destruct children as [declared |]; [| reflexivity].
    rewrite !check_object. unfold child_violations.
    specialize (IH declared eq_refl).
    induction IH as [| ks r Hks Hr IHr]; cbn [flat_map]; [reflexivity |].
    rewrite !codes_app, IHr. f_equal. apply Hks.
Qed.

Lemma valid_at_any_path (s : schema) (p p' : list String.string) (v : value) :
  check s p v = [] -> check s p' v = [].
Proof.
  intros H. pose proof (codes_path_independent s p p' v) as E.
  rewrite H in E. simpl in E. symmetry in E.
  apply map_eq_nil in E. exact E.
Qed.

(** The items of an array are valid when each is present and valid. *)
Lemma valid_items (o : opts) (it : schema) (p : list String.string)
  (elems : list value) (i : Z) :
  item_violations o (Some it) p i elems = []
  <-> Forall (fun x => x <> Undefined /\ validate it x = []) elems.
Proof.
  revert i. induction elems as [| x r IH]; intros i; simpl.
  - split; intros; constructor.
  - split.
    + intros H. apply app_eq_nil in H as [Hx Hr]. constructor.
      * destruct x; try discriminate;
          (split; [discriminate | eapply valid_at_any_path, Hx]).
      * apply (IH (i + 1)), Hr.
    + intros H. inversion H as [| ? ? [Hx Hv] Hr]; subst.
      rewrite (proj2 (IH (i + 1)) Hr), app_nil_r.
      destruct x; try contradiction; eapply valid_at_any_path, Hv.
Qed.

End JoiFacts.

(** ** Updates *)

Module Update.
Import Js Effect Store Http ObjectFacts Terms.

Lemma strict_eq_undefined (v : value) : strict_eq v Undefined = is_undefined v.
Proof. destruct v; reflexivity. Qed.

Lemma lookup_set_if (guard : bool) (k k' : string) (v : value)
  (o : list (string * value)) :
  lookup k (Service.set_if guard k' v o)
  = if andb guard (String.eqb k k') then Some v else lookup k o.
Proof.
  unfold Service.set_if. destruct guard; simpl; [apply lookup_assign | reflexivity].
Qed.

Lemma truthy_present (v : value) :
  (v = Undefined
   \/ (exists s, v = Str s /\ s <> "")
   \/ (exists l, v = Arr l)
   \/ (exists props, v = Obj props)) ->
  truthy v = negb (is_undefined v).
Proof.
  intros [-> | [[s [-> Hs]] | [[l ->] | [props ->]]]]; simpl; try reflexivity.
  destruct (String.eqb_spec s ""); [contradiction | reflexivity].
Qed.

Ltac children H :=
  repeat match type of H with
         | Forall _ (_ :: _) =>
             let H1 := fresh "Hchild" in
             let H2 := fresh "Hrest" in
             inversion H as [| ? ? H1 H2]; subst; clear H;
             cbn [fst snd app] in H1; rename H2 into H
         end.

(** On a validated update the tests of the service for the presence of a
    field, by truth value, hold exactly when the field is supplied: a
    validated string is not empty, and arrays and objects are true values
    even when empty. *)
Lemma guards_of_a_valid_update (body : value) :
  Joi.validate Validation.updateMemoryEmbeddingSchema body = [] ->
  truthy (get body "feature_vector") = negb (is_undefined (get body "feature_vector"))
  /\ truthy (get body "content_summary")
     = negb (is_undefined (get body "content_summary"))
  /\ truthy (get body "gate_scores") = negb (is_undefined (get body "gate_scores"))
  /\ truthy (get body "relationships") = negb (is_undefined (get body "relationships"))
  /\ truthy (get body "context_needed")
     = negb (is_undefined (get body "context_needed"))
  /\ truthy (get body "retrieval_triggers")
     = negb (is_undefined (get body "retrieval_triggers")).
Proof.
  intros H. unfold Joi.validate in H.
  apply JoiFacts.valid_object in H as [-> | [props [-> H]]].
  - repeat split; reflexivity.
  - children H.
    apply JoiFacts.valid_string in Hchild; [| reflexivity].
    apply JoiFacts.valid_array in Hchild4.
    apply JoiFacts.valid_any_object in Hchild5.
    apply JoiFacts.valid_array in Hchild6.
    apply JoiFacts.valid_any_object in Hchild7.
    apply JoiFacts.valid_array in Hchild8.
    repeat split; apply truthy_present.
    + destruct Hchild4 as [E | [l [E _]]]; rewrite E; eauto.
    + destruct Hchild as [E | [s [E Hs]]]; rewrite E; eauto.
    + destruct Hchild5 as [E | [s E]]; rewrite E; eauto 6.
    + destruct Hchild6 as [E | [l [E _]]]; rewrite E; eauto.
    + destruct Hchild7 as [E | [s E]]; rewrite E; eauto 6.
    + destruct Hchild8 as [E | [l [E _]]]; rewrite E; eauto.
Qed.

(** The change-set of a validated update, key by key: [updated_at], and
    each field of [updatable] that the request supplies, with the value
    supplied. *)
Lemma change_set (now : Z) (body : value) (k : string) :
  Joi.validate Validation.updateMemoryEmbeddingSchema body = [] ->
  lookup k (Service.updateDoc now body)
  = if String.eqb k "updated_at" then Some (Str (toISOString now))
    else match find (fun fk => String.eqb k (snd fk)) updatable with
         | Some fk => if is_undefined (get body (fst fk)) then None
                      else Some (get body (fst fk))
         | None => None
         end.
Proof.
  intros H.
  destruct (guards_of_a_valid_update body H) as (G1 & G2 & G3 & G4 & G5 & G6).
  unfold Service.updateDoc. rewrite !lookup_set_if, !strict_eq_undefined.
  rewrite G1, G2, G3, G4, G5, G6. clear.
  unfold updatable, find. cbn [snd fst lookup].
  repeat match goal with
         | |- context [String.eqb k ?l] =>
             destruct (String.eqb_spec k l);
             [ subst k; cbn [String.eqb Ascii.eqb Bool.eqb fst snd];
               rewrite ?andb_false_r, ?andb_true_r; cbv iota;
               repeat match goal with
                      | |- context [is_undefined ?v] => destruct (is_undefined v)
                      end;
               reflexivity
             | ]
         end.
  rewrite ?andb_false_r. reflexivity.
Qed.

Lemma NoDup_set_if (guard : bool) (k : string) (v : value)
  (o : list (string * value)) :
  NoDup (keys o) -> NoDup (keys (Service.set_if guard k v o)).
Proof.
  intros ND. unfold Service.set_if.
  destruct guard; [apply NoDup_keys_assign |]; exact ND.
Qed.

Lemma NoDup_updateDoc (now : Z) (body : value) :
  NoDup (keys (Service.updateDoc now body)).
Proof.
  unfold Service.updateDoc. repeat apply NoDup_set_if.
  constructor; [intros [] | constructor].
Qed.


(** An update of a stored document runs to its end: the change-set is
    assigned to the document, which is answered as a record. *)
Lemma update_runs (now : Z) (id : string) (body : value) (c : collection)
  (d : document) :
  outage c = None ->
  nullish body = false ->
  find (matches (by_id id)) (docs c) = Some d ->
  Service.updateMemoryEmbedding now (Str id) body c
  = (Ok (record_of (Obj (assign_all (Service.updateDoc now body) d))),
     with_docs c (replace_first (matches (by_id id))
                    (assign_all (Service.updateDoc now body) d) (docs c))).
Proof.
  intros Hup Hbody Hfind. unfold by_id in *.
  unfold Service.updateMemoryEmbedding, Service.initialize, Service.reading,
    connect, findOneAndUpdate, rethrow, bind, call, ret.
  cbv beta. repeat rewrite Hup. cbv beta iota. rewrite Hbody. cbv beta iota.
  repeat rewrite Hup. cbv beta iota. rewrite Hfind. reflexivity.
Qed.

Lemma get_of_lookup (k : string) (a b : list (string * value)) :
  lookup k a = lookup k b -> get (Obj a) k = get (Obj b) k.
Proof. unfold get. intros ->. reflexivity. Qed.


End Update.

(** ** Ranking *)

Module SortFacts.
Import Store.

Section Sorted.
Variable A : Type.
Variable le : A -> A -> bool.
Hypothesis le_total : forall a b, le a b = true \/ le b a = true.
Hypothesis le_trans : forall a b c, le a b = true -> le b c = true -> le a c = true.

Let R (a b : A) : Prop := le a b = true.

Lemma In_insert (x y : A) (l : list A) : In y (insert le x l) <-> y = x \/ In y l.
Proof.
  induction l as [| z r IH]; simpl.
  - intuition congruence.
  - destruct (le x z); simpl; [intuition congruence |].
    rewrite IH. intuition congruence.
Qed.

Lemma In_sort (y : A) (l : list A) : In y (sort le l) <-> In y l.
Proof.
  induction l as [| x r IH]; simpl; [reflexivity |].
  unfold sort in IH. rewrite In_insert, IH. intuition congruence.
Qed.

Lemma insert_sorted (x : A) (l : list A) :
  StronglySorted R l -> StronglySorted R (insert le x l).
Proof.
  induction 1 as [| y r Hr IH Hy]; simpl.
  - repeat constructor.
  - destruct (le x y) eqn:E.
    + constructor; [constructor; assumption |].
      constructor; [exact E |].
      apply Forall_forall. intros z Hz.
      rewrite Forall_forall in Hy. exact (le_trans _ _ _ E (Hy z Hz)).
    + constructor; [exact IH |].
      apply Forall_forall. intros z Hz. apply In_insert in Hz as [-> | Hz].
      * destruct (le_total x y) as [H | H]; [congruence | exact H].
      * rewrite Forall_forall in Hy. apply Hy, Hz.
Qed.

Lemma sort_sorted (l : list A) : StronglySorted R (sort le l).
Proof.
  induction l as [| x r IH]; simpl; [constructor |].
  apply insert_sorted. exact IH.
Qed.

Lemma firstn_sorted (n : nat) (l : list A) :
  StronglySorted R l -> StronglySorted R (firstn n l).
Proof.
  intros H. revert n. induction H as [| x r Hr IH Hx]; intros [| n]; simpl;
    try constructor.
  - apply IH.
  - apply Forall_forall. intros z Hz. rewrite Forall_forall in Hx.
    apply Hx. revert Hz. clear. revert n.
    induction r as [| y r IH]; intros [| n] H; simpl in *; try contradiction.
    destruct H as [-> | H]; [left; reflexivity | right; eapply IH, H].
Qed.

Lemma limited_sorted (n : nat) (l : list A) :
  StronglySorted R l -> StronglySorted R (limited n l).
Proof.
  intros H. destruct n; [exact H | apply firstn_sorted, H].
Qed.

(** In a sorted list the first element is below all, and all are below
    the last. *)
Lemma sorted_first (x : A) (l : list A) :
  StronglySorted R (x :: l) -> Forall (R x) (x :: l).
Proof.
  intros H. inversion H; subst. constructor; [| assumption].
  destruct (le_total x x); assumption.
Qed.

Lemma sorted_last (d : A) (l : list A) :
  StronglySorted R l -> Forall (fun y => R y (last l d)) l.
Proof.
  induction 1 as [| x r Hr IH Hx]; [constructor |].
  destruct r as [| y r'].
  - constructor; [| constructor]. simpl. destruct (le_total x x); assumption.
  - constructor.
    + rewrite Forall_forall in Hx. apply Hx.
      change (last (x :: y :: r') d) with (last (y :: r') d).
      clear. generalize y. induction r' as [| z r IH]; intros y0; simpl.
      * left; reflexivity.
      * right. apply (IH z).
    + exact IH.
Qed.
End Sorted.

Lemma nth_last {A} (d : A) (l : list A) : nth (List.length l - 1) l d = last l d.
Proof.
  induction l as [| x r IH]; [reflexivity |].
  destruct r as [| y r']; [reflexivity |].
  change (last (x :: y :: r') d) with (last (y :: r') d). rewrite <- IH.
  simpl. rewrite Nat.sub_0_r. reflexivity.
Qed.

Lemma In_limited {A} (n : nat) (x : A) (l : list A) : In x (limited n l) -> In x l.
Proof.
  destruct n; [auto |]. unfold limited.
  intros H. rewrite <- (firstn_skipn (S n) l). apply in_or_app. left. exact H.
Qed.

Lemma length_insert {A} (le : A -> A -> bool) (x : A) (l : list A) :
  List.length (insert le x l) = S (List.length l).
Proof.
  induction l as [| y r IH]; [reflexivity |]. simpl.
  destruct (le x y); simpl; [reflexivity | rewrite IH; reflexivity].
Qed.

Lemma length_sort {A} (le : A -> A -> bool) (l : list A) :
  List.length (sort le l) = List.length l.
Proof.
  induction l as [| x r IH]; [reflexivity |].
  unfold sort. cbn [fold_right]. fold (sort le r).
  rewrite length_insert, IH. reflexivity.
Qed.

End SortFacts.

(** ** Similarity search *)

Module Similarity.
Import Js Effect Store Http NumberFacts ObjectFacts SortFacts Terms.

Lemma descending_total (a b : Q * document) :
  descending a b = true \/ descending b a = true.
Proof.
  unfold descending.
  destruct (Qle_bool (fst b) (fst a)) eqn:E; [left; reflexivity | right].
  apply Qle_bool_iff. apply Qlt_le_weak, Qnot_le_lt.
  intros H. apply Qle_bool_iff in H. congruence.
Qed.

Lemma descending_trans (a b c : Q * document) :
  descending a b = true -> descending b c = true -> descending a c = true.
Proof.
  unfold descending. rewrite !Qle_bool_iff. intros H1 H2.
  eapply Qle_trans; eassumption.
Qed.

Lemma ranked_sorted c query options n :
  StronglySorted (fun a b => descending a b = true) (ranked c query options n).
Proof.
  apply limited_sorted, sort_sorted;
    [apply descending_total | apply descending_trans].
Qed.

Lemma similarity_of_annotate (sd : Q * document) :
  get (annotate sd) "$similarity" = score_of sd.
Proof. unfold annotate. rewrite get_assign. reflexivity. Qed.

Lemma score_of_record (sd : Q * document) :
  get (similar_record (annotate sd)) "similarity_score" = score_of sd.
Proof. apply similarity_of_annotate. Qed.

Lemma leb_scores (a b : Q * document) :
  leb (score_of a) (score_of b) = descending b a.
Proof. unfold leb, score_of, descending, num_lt. apply negb_involutive. Qed.

(** A search with a vector and a non-negative integer limit runs to its
    end, and leaves the collection as it was. *)
Lemma search_runs (c : collection) (query : list value) (options : value)
  (limit : Z) :
  outage c = None ->
  options <> Null -> get (default (Obj []) options) "filters" <> Null ->
  search_limit options = int limit -> 0 <= limit ->
  let rows := map annotate (ranked c query options (Z.to_nat limit)) in
  Service.findSimilarMemoryEmbeddings (Arr query) options c
  = (Ok (Obj [
       ("query_vector_dimensions", int (Z.of_nat (List.length query)));
       ("results_count", int (Z.of_nat (List.length rows)));
       ("max_similarity_score",
         if 0 <? Z.of_nat (List.length rows)
         then get (nth O rows Undefined) "$similarity" else int 0);
       ("min_similarity_score",
         if 0 <? Z.of_nat (List.length rows)
         then get (last rows Undefined) "$similarity" else int 0);
       ("results", Arr (map similar_record rows))]), c).
Proof.
  intros Hup Hnull Hfilters Hl Hl0 rows. unfold search_limit in Hl.
  assert (Hobj : nullish (default (Obj []) options) = false)
    by (destruct options; try reflexivity; contradiction).
  assert (Hobj' : nullish (default (Obj [])
                             (get (default (Obj []) options) "filters")) = false)
    by (destruct (get (default (Obj []) options) "filters");
        try reflexivity; contradiction).
  unfold Service.findSimilarMemoryEmbeddings, Service.initialize, Service.reading,
    connect, find_similar, rethrow, bind, call, ret.
  cbv beta. repeat rewrite Hup. cbv beta iota.
  rewrite Hobj. cbv beta iota. rewrite Hobj'. cbv beta iota.
  repeat rewrite Hup. cbv beta iota.
  rewrite Hl, (count_of_int _ Hl0). cbv beta iota.
  fold (ranked c query options (Z.to_nat limit)). fold rows.
  rewrite nth_last.
  unfold gt, lt, int. cbn [stringy andb to_number]. rewrite num_lt_int.
  reflexivity.
Qed.

Lemma last_map {A B} (f : A -> B) (l : list A) (d : A) (d' : B) :
  l <> [] -> last (map f l) d' = f (last l d).
Proof.
  induction l as [| x r IH]; [congruence |]. intros _.
  destruct r as [| y r']; [reflexivity |].
  change (last (map f (x :: y :: r')) d') with (last (map f (y :: r')) d').
  change (last (x :: y :: r') d) with (last (y :: r') d).
  apply IH. discriminate.
Qed.

Lemma In_last {A} (l : list A) (d : A) : l <> [] -> In (last l d) l.
Proof.
  induction l as [| x r IH]; [congruence |]. intros _.
  destruct r as [| y r']; [left; reflexivity |].
  right. apply IH. discriminate.
Qed.

(** Every ranked pair is a stored document with its score against the
    query. *)
Lemma ranked_from_store c query options n (sd : Q * document) :
  In sd (ranked c query options n) ->
  exists v, In (snd sd) (docs c)
            /\ get (Obj (snd sd)) "$vector" = Arr v
            /\ fst sd = metric c v query.
Proof.
  unfold ranked. intros H. apply In_limited in H. apply In_sort in H.
  apply in_flat_map in H as [d [Hd Hs]]. apply filter_In in Hd as [Hd _].
  unfold scored in Hs. destruct (get (Obj d) "$vector") eqn:E; try contradiction.
  destruct Hs as [<- | []]. exists items. simpl. auto.
Qed.

(** The ranked documents are the candidates by descending score, cut at
    the limit. *)
Lemma length_ranked_candidates c query options n :
  (0 < n)%nat ->
  List.length (ranked c query options n)
  = Nat.min n (List.length (candidates c query options)).
Proof.
  intros Hn. unfold ranked, limited. destruct n; [lia |].
  rewrite length_firstn, length_sort. reflexivity.
Qed.

(** C5.  A similarity search with a query vector and a non-negative integer
    limit answers the number of dimensions of the query, the number of
    records, and the records.  The records are those of the ranked search of
    the collection: the documents that match the filter and carry a vector,
    by descending score and cut at the limit, each with the score of its
    vector against the query under [similarity_score]; there are as many as
    the limit allows, or as there are candidates.  [max_similarity_score]
    and [min_similarity_score] are both [0] when no record is returned, and
    otherwise are the greatest and the least of the scores returned. *)
Theorem similarity_search_summary :
  forall (c : collection) (query : list value) (options : value) (limit : Z),
    outage c = None ->
    options <> Null -> get (default (Obj []) options) "filters" <> Null ->
    search_limit options = int limit -> 0 <= limit ->
    exists answer rows,
      Service.findSimilarMemoryEmbeddings (Arr query) options c = (Ok answer, c)
      /\ get answer "query_vector_dimensions" = int (Z.of_nat (List.length query))
      /\ get answer "results" = Arr rows
      /\ rows = map similar_record
                   (map annotate (ranked c query options (Z.to_nat limit)))
      /\ (0 < limit ->
          List.length rows
          = Nat.min (Z.to_nat limit) (List.length (candidates c query options)))
      /\ get answer "results_count" = int (Z.of_nat (List.length rows))
      /\ Forall (fun row =>
                   exists d v,
                     In d (docs c)
                     /\ get (Obj d) "$vector" = Arr v
                     /\ get row "id" = get (Obj d) "_id"
                     /\ get row "similarity_score" = Num (Fin (metric c v query)))
                rows
      /\ (rows = [] ->
          get answer "max_similarity_score" = int 0
          /\ get answer "min_similarity_score" = int 0)
      /\ (rows <> [] ->
          In (get answer "max_similarity_score") (scores rows)
          /\ In (get answer "min_similarity_score") (scores rows)
          /\ Forall (fun s => leb s (get answer "max_similarity_score") = true)
                    (scores rows)
          /\ Forall (fun s => leb (get answer "min_similarity_score") s = true)
                    (scores rows)).
Proof.
  intros c query options limit Hup Hnull Hfilters Hl Hl0.
  pose proof (search_runs c query options limit Hup Hnull Hfilters Hl Hl0) as Hrun.
  cbv zeta in Hrun.
  pose proof (ranked_sorted c query options (Z.to_nat limit)) as Hsorted.
  pose proof (ranked_from_store c query options (Z.to_nat limit)) as Hfrom.
  set (R := ranked c query options (Z.to_nat limit)) in *.
  eexists. exists (map similar_record (map annotate R)).
  split; [exact Hrun |].
  split; [reflexivity |]. split; [reflexivity |].
  split; [reflexivity |].
  split; [intros Hpos; rewrite !length_map; unfold R;
          apply length_ranked_candidates; lia |].
  split; [cbn [get lookup String.eqb Ascii.eqb Bool.eqb]; rewrite !length_map; reflexivity |].
  split.
  { apply Forall_forall. intros row Hrow.
    apply in_map_iff in Hrow as [a [<- Ha]]. apply in_map_iff in Ha as [sd [<- Hsd]].
    destruct (Hfrom sd Hsd) as [v [Hd [Hv Hs]]].
    exists (snd sd), v. repeat split; try assumption.
    - change (get (similar_record (annotate sd)) "id") with (get (annotate sd) "_id").
      unfold annotate. rewrite get_assign. reflexivity.
    - rewrite score_of_record. unfold score_of. rewrite Hs. reflexivity. }
  assert (Hscores : scores (map similar_record (map annotate R)) = map score_of R).
  { unfold scores. rewrite !map_map. apply map_ext. intros sd. apply score_of_record. }
  rewrite Hscores.
  cbn [get lookup String.eqb Ascii.eqb Bool.eqb]. rewrite length_map.
  destruct R as [| x r] eqn:ER.
  - split; [intros _; split; reflexivity | intros H; contradiction H; reflexivity].
  - split; [discriminate |]. intros _.
    change (0 <? Z.of_nat (List.length (x :: r))) with true. cbv iota.
    rewrite (last_map annotate (x :: r) x Undefined) by discriminate.
    change (nth O (map annotate (x :: r)) Undefined) with (annotate x).
    rewrite !similarity_of_annotate.
    split; [left; reflexivity |].
    split; [apply in_map, In_last; discriminate |].
    split.
    + apply Forall_forall. intros s Hs. apply in_map_iff in Hs as [y [<- Hy]].
      rewrite leb_scores.
      pose proof (sorted_first _ _ descending_total x r Hsorted) as Hx.
      rewrite Forall_forall in Hx. apply Hx, Hy.
    + apply Forall_forall. intros s Hs. apply in_map_iff in Hs as [y [<- Hy]].
      rewrite leb_scores.
      pose proof (sorted_last _ _ descending_total x (x :: r) Hsorted) as Hx.
      rewrite Forall_forall in Hx. apply Hx, Hy.
Qed.

End Similarity.

(** ** Statistics *)

Module Statistics.
Import Js Effect Store.

(** C9.  The statistics of a reachable collection always report 90 as the
    dimension of the vectors; when the collection is empty the total is 0,
    the distribution of memory types is the empty object and the four
    average scores are the number 0. *)
Theorem statistics_of_an_empty_collection :
  forall (c : collection) (now : Z),
    outage c = None ->
    exists stats,
      Service.getStatistics now c = (Ok stats, c)
      /\ get (get stats "collection_info") "vector_dimensions" = int 90
      /\ (docs c = [] ->
          get stats "total_memories" = int 0
          /\ get stats "memory_type_distribution" = Obj []
          /\ get stats "score_statistics"
             = Obj [("avg_importance_score", int 0);
                    ("avg_emotional_significance", int 0);
                    ("avg_temporal_relevance", int 0);
                    ("avg_access_frequency", int 0)]).
Proof.
  intros c now Hup.
  unfold Service.getStatistics, Service.initialize, connect, countDocuments,
    aggregate, rethrow, bind, call, ret.
  cbv beta. repeat rewrite Hup. cbv beta iota.
  eexists. split; [reflexivity |]. split; [reflexivity |].
  intros Hempty. cbn [get lookup String.eqb Ascii.eqb Bool.eqb].
  rewrite Hempty. repeat split; reflexivity.
Qed.

End Statistics.

(** ** The shape of the records *)

Module Shape.
Import Js Effect Store Terms SortFacts ObjectFacts.

Lemma In_skipn {A} (k : nat) (x : A) (l : list A) : In x (skipn k l) -> In x l.
Proof.
  intros H. rewrite <- (firstn_skipn k l). apply in_or_app. right. exact H.
Qed.

Lemma query_row_is_a_projection (result : value) :
  query_row result = without_vector (record_of result).
Proof. reflexivity. Qed.

Lemma query_answer (c : collection) (queryOptions answer : value) :
  fst (Service.queryMemoryEmbeddings queryOptions c) = Ok answer ->
  exists rows,
    get answer "results" = Arr (map query_row (map Obj rows))
    /\ Forall (fun d => In d (docs c)) rows.
Proof.
  unfold Service.queryMemoryEmbeddings, Service.initialize, Service.reading,
    connect, find_page, countDocuments, rethrow, bind, call, ret, throw.
  cbv beta. destruct (outage c) eqn:Hup; cbv beta iota; [discriminate |].
  destruct (nullish _); cbv beta iota; [discriminate |].
  repeat (rewrite Hup; cbv beta iota).
  repeat match goal with
         | |- context [count_of ?v] => destruct (count_of v)
         end;
    cbv beta iota; repeat (rewrite Hup; cbv beta iota); cbn [fst];
    try discriminate.
  intros H. injection H as <-.
  eexists. split; [reflexivity |].
  apply Forall_forall. intros d Hd.
  apply In_limited, In_skipn, In_sort, filter_In in Hd. tauto.
Qed.

Lemma get_answer (c : collection) (id answer : value) :
  fst (Service.getMemoryEmbeddingById id c) = Ok answer ->
  exists d, In d (docs c) /\ answer = record_of (Obj d).
Proof.
  unfold Service.getMemoryEmbeddingById, Service.initialize, connect, findOne,
    rethrow, bind, call, ret, throw.
  cbv beta. destruct (outage c) eqn:Hup; cbv beta iota; [discriminate |].
  repeat (rewrite Hup; cbv beta iota).
  destruct (find _ (docs c)) as [d |] eqn:E; cbn [truthy negb fst]; [| discriminate].
  intros H. injection H as <-. exists d. split; [| reflexivity].
  apply find_some in E. tauto.
Qed.

Lemma search_answer (c : collection) (queryVector options answer : value) :
  fst (Service.findSimilarMemoryEmbeddings queryVector options c) = Ok answer ->
  exists rows : list (Q * document),
    get answer "results" = Arr (map similar_record (map annotate rows))
    /\ Forall (fun sd => In (snd sd) (docs c)) rows.
Proof.
  unfold Service.findSimilarMemoryEmbeddings, Service.initialize, Service.reading,
    connect, find_similar, rethrow, bind, call, ret, throw.
  cbv beta. destruct (outage c) eqn:Hup; cbv beta iota; [discriminate |].
  destruct (nullish _); cbv beta iota; [discriminate |].
  destruct (nullish _); cbv beta iota; [discriminate |].
  repeat (rewrite Hup; cbv beta iota).
  destruct queryVector; try discriminate;
    destruct (count_of _) as [n |]; try discriminate.
  cbv beta iota. cbn [fst]. intros H. injection H as <-.
  eexists. split; [reflexivity |].
  apply Forall_forall. intros sd Hsd.
  apply In_limited, In_sort, in_flat_map in Hsd as [d [Hd Hs]].
  apply filter_In in Hd as [Hd _].
  unfold scored in Hs. destruct (get (Obj d) "$vector"); try contradiction.
  destruct Hs as [<- | []]. exact Hd.
Qed.

(** C10.  Every record of a list query is the record of a stored document
    with the [feature_vector] key dropped, and nothing else changed; the
    record of a lookup by id and every record of a similarity search are
    records of stored documents that carry, under [feature_vector], the
    vector stored with the document. *)
Theorem list_results_drop_the_embedding :
  forall (c : collection),
    (forall queryOptions answer,
        fst (Service.queryMemoryEmbeddings queryOptions c) = Ok answer ->
        exists rows,
          get answer "results" = Arr rows
          /\ Forall (fun row =>
                       has_key "feature_vector" row = false
                       /\ exists d, In d (docs c)
                                    /\ row = without_vector (record_of (Obj d)))
                    rows)
    /\ (forall id answer,
           fst (Service.getMemoryEmbeddingById id c) = Ok answer ->
           has_key "feature_vector" answer = true
           /\ exists d, In d (docs c)
                        /\ answer = record_of (Obj d)
                        /\ get answer "feature_vector" = get (Obj d) "$vector")
    /\ (forall queryVector options answer,
           fst (Service.findSimilarMemoryEmbeddings queryVector options c) = Ok answer ->
           exists rows,
             get answer "results" = Arr rows
             /\ Forall (fun row =>
                          has_key "feature_vector" row = true
                          /\ exists d, In d (docs c)
                                       /\ get row "id" = get (Obj d) "_id"
                                       /\ get row "feature_vector"
                                          = get (Obj d) "$vector")
                       rows).
Proof.
  intros c. repeat split.
  - intros queryOptions answer H.
    destruct (query_answer c queryOptions answer H) as [docs' [Hres Hin]].
    eexists. split; [exact Hres |].
    apply Forall_forall. intros row Hrow.
    apply in_map_iff in Hrow as [r [<- Hr]]. apply in_map_iff in Hr as [d [<- Hd]].
    split; [reflexivity |].
    exists d. split; [| reflexivity].
    rewrite Forall_forall in Hin. apply Hin, Hd.
  - destruct (get_answer c id answer H) as [d [_ ->]]. reflexivity.
  - destruct (get_answer c id answer H) as [d [Hd ->]].
    exists d. repeat split; assumption.
  - intros queryVector options answer H.
    destruct (search_answer c queryVector options answer H) as [rows [Hres Hin]].
    eexists. split; [exact Hres |].
    apply Forall_forall. intros row Hrow.
    apply in_map_iff in Hrow as [r [<- Hr]]. apply in_map_iff in Hr as [sd [<- Hsd]].
    split; [reflexivity |].
    exists (snd sd). rewrite Forall_forall in Hin. split; [apply Hin, Hsd |].
    split.
    + change (get (similar_record (annotate sd)) "id") with (get (annotate sd) "_id").
      unfold annotate. rewrite get_assign. reflexivity.
    + change (get (similar_record (annotate sd)) "feature_vector")
        with (get (annotate sd) "$vector").
      unfold annotate. rewrite get_assign. reflexivity.
Qed.

End Shape.

(** ** Recording accesses *)

Module Access.
Import Js Effect Store Terms NumberFacts ObjectFacts.

Lemma accessed_other (at_access at_update n : Z) (d : document) (k : string) :
  touched k = false ->
  get (Obj (accessed at_access at_update n d)) k = get (Obj d) k.
Proof.
  unfold touched, accessed. intros H.
  apply orb_false_iff in H as [H1 H]. apply orb_false_iff in H as [H2 H3].
  rewrite !get_assign, H1, H2, H3. reflexivity.
Qed.

Lemma find_replace_first (p : document -> bool) (d d' : document)
  (l : list document) :
  find p l = Some d -> p d' = true -> find p (replace_first p d' l) = Some d'.
Proof.
  induction l as [| x r IH]; simpl; [discriminate |].
  destruct (p x) eqn:E; intros H Hd'.
  - simpl. rewrite Hd'. reflexivity.
  - simpl. rewrite E. apply IH; assumption.
Qed.

Lemma matches_by_id (id : string) (d d' : document) :
  get (Obj d') "_id" = get (Obj d) "_id" ->
  matches (by_id id) d = true -> matches (by_id id) d' = true.
Proof.
  unfold matches, by_id. cbn [forallb fst snd]. intros ->. auto.
Qed.

(** One access of a stored document whose counter is the integer [n]. *)
Lemma access_runs (at_access at_update : Z) (id : string) (c : collection)
  (d : document) (n : Z) :
  outage c = None ->
  find (matches (by_id id)) (docs c) = Some d ->
  get (Obj d) "access_frequency" = int n ->
  Service.recordMemoryAccess at_access at_update (Str id) c
  = (Ok (Obj [("id", get (Obj d) "_id");
              ("access_frequency", int (n + 1));
              ("last_accessed", Str (toISOString at_access))]),
     with_docs c (replace_first (matches (by_id id))
                    (accessed at_access at_update n d) (docs c))).
Proof.
  intros Hup Hfind Hn. unfold by_id in *.
  match goal with |- _ = ?R => set (rhs := R) end.
  unfold Service.recordMemoryAccess, Service.initialize, connect, findOneAndUpdate,
    rethrow, bind, call, ret.
  repeat first [rewrite Hup | rewrite Hfind | progress cbv beta iota].
  unfold apply_update.
  cbn [get lookup String.eqb Ascii.eqb Bool.eqb fields_of fold_left fst snd
       assign_all].
  unfold increment. cbn [fst snd].
  rewrite !get_assign. cbn [String.eqb Ascii.eqb Bool.eqb].
  rewrite Hn. unfold int at 1 2 3. cbv beta iota.
  rewrite num_add_int. fold (int (n + 1)).
  cbn [truthy negb]. cbv beta iota.
  fold (accessed at_access at_update n d).
  subst rhs. f_equal. f_equal.
  unfold accessed at 1 2 3. rewrite !get_assign.
  cbn [String.eqb Ascii.eqb Bool.eqb]. reflexivity.
Qed.

Lemma last_cons {A} (l : list A) (x d : A) : last (x :: l) d = last l x.
Proof.
  revert x d. induction l as [| y r IH]; intros x d; [reflexivity |].
  change (last (x :: y :: r) d) with (last (y :: r) d).
  rewrite !IH. reflexivity.
Qed.

Lemma accesses_from (readings : list (Z * Z)) :
  forall (id : string) (c : collection) (d : document) (n : Z),
    outage c = None ->
    find (matches (by_id id)) (docs c) = Some d ->
    get (Obj d) "access_frequency" = int n ->
    exists d' c',
      accesses readings id c = (answers_from (get (Obj d) "_id") n readings, c')
      /\ find (matches (by_id id)) (docs c') = Some d'
      /\ get (Obj d') "access_frequency" = int (n + Z.of_nat (List.length readings))
      /\ (forall k, touched k = false -> get (Obj d') k = get (Obj d) k)
      /\ (get (Obj d') "last_accessed", get (Obj d') "updated_at")
         = last_reading readings d.
Proof.
  induction readings as [| [t1 t2] later IH]; intros id c d n Hup Hfind Hn.
  - exists d, c. simpl. rewrite Z.add_0_r. auto.
  - pose proof (access_runs t1 t2 id c d n Hup Hfind Hn) as Hrun.
    set (d1 := accessed t1 t2 n d) in *.
    set (c1 := with_docs c (replace_first (matches (by_id id)) d1 (docs c))) in *.
    assert (Hid : get (Obj d1) "_id" = get (Obj d) "_id")
      by (apply accessed_other; reflexivity).
    assert (Hfind1 : find (matches (by_id id)) (docs c1) = Some d1).
    { apply (find_replace_first _ d); [exact Hfind |].
      apply (matches_by_id id d); [exact Hid |].
      apply find_some in Hfind. tauto. }
    assert (Hn1 : get (Obj d1) "access_frequency" = int (n + 1)).
    { unfold d1, accessed. rewrite get_assign. reflexivity. }
    destruct (IH id c1 d1 (n + 1) Hup Hfind1 Hn1)
      as (d' & c' & Hrest & Hfind' & Hcount & Hother & Hlast).
    exists d', c'. cbn [accesses]. rewrite Hrun, Hrest.
    cbn [answers_from]. rewrite Hid.
    split; [reflexivity |]. split; [exact Hfind' |].
    split; [rewrite Hcount; f_equal; cbn [List.length]; lia |].
    split.
    + intros k Hk. rewrite (Hother k Hk). apply accessed_other. exact Hk.
    + rewrite Hlast. unfold last_reading.
      destruct later as [| r later']; [| rewrite (last_cons later' r); reflexivity].
      unfold d1, accessed. rewrite !get_assign. reflexivity.
Qed.

(** C8, amended.  Each call of the record-access operation on a stored
    document whose counter is a number adds 1 to [access_frequency], sets
    [last_accessed] and [updated_at] to the time the clock gives at the
    call, and answers the new counter and [last_accessed]; so from a counter
    of 0, [N] calls leave [access_frequency = N], [last_accessed] is the time
    of the last call, and no other field of the document has changed. *)
Theorem record_access_counts_the_calls :
  forall (readings : list (Z * Z)) (id : string) (c : collection) (d : document),
    outage c = None ->
    find (matches (by_id id)) (docs c) = Some d ->
    get (Obj d) "access_frequency" = int 0 ->
    exists d' c',
      accesses readings id c = (answers_from (get (Obj d) "_id") 0 readings, c')
      /\ find (matches (by_id id)) (docs c') = Some d'
      /\ get (Obj d') "access_frequency" = int (Z.of_nat (List.length readings))
      /\ (forall k, touched k = false -> get (Obj d') k = get (Obj d) k)
      /\ (get (Obj d') "last_accessed", get (Obj d') "updated_at")
         = last_reading readings d.
Proof.
  intros readings id c d Hup Hfind Hn.
  exact (accesses_from readings id c d 0 Hup Hfind Hn).
Qed.

End Access.

(** ** Batches *)

Module Batch.
Import Js Effect Store Http JoiFacts Terms.

Lemma rejection_is_400 (schema : Joi.schema) (body : value) :
  Joi.validate schema body <> [] ->
  exists details, Validation.validate schema body = Some (Json 400 details).
Proof.
  unfold Validation.validate. destruct (Joi.validate schema body) as [| e l].
  - intros H. contradiction H. reflexivity.
  - intros _. eexists. reflexivity.
Qed.

Lemma acceptance (schema : Joi.schema) (body : value) :
  Validation.validate schema body = None <-> Joi.validate schema body = [].
Proof.
  unfold Validation.validate. destruct (Joi.validate schema body).
  - tauto.
  - split; discriminate.
Qed.

Lemma batch_accepted_iff (body : value) :
  body <> Undefined ->
  Joi.validate Validation.batchSchema body = [] <-> acceptable body.
Proof.
  intros Hbody. split.
  - intros H. unfold Joi.validate in H.
    apply valid_object in H as [-> | [props [-> H]]]; [contradiction |].
    inversion H as [| ? ? Hchild _]; subst. cbn [fst snd app] in Hchild.
    pose proof Hchild as Hcopy.
    apply valid_array in Hchild as [E | [elems [E [Hitems Hrules]]]].
    + rewrite E in Hcopy. discriminate.
    + exists elems. split; [exact E |].
      cbn [Joi.rules Joi.options] in Hrules.
      inversion Hrules as [| ? ? Hmin Hrest]; subst.
      inversion Hrest as [| ? ? Hmax _]; subst.
      cbn [Joi.array_rule] in Hmin, Hmax.
      destruct (Z.leb_spec 1 (Z.of_nat (List.length elems))); [| discriminate].
      destruct (Z.leb_spec (Z.of_nat (List.length elems)) 50); [| discriminate].
      split; [lia |].
      apply valid_items in Hitems. exact Hitems.
  - intros [l [E [Hlen Hall]]].
    destruct body as [| | | | | | props]; try discriminate.
    unfold Joi.validate, Validation.batchSchema, Joi.object.
    rewrite check_object. unfold Joi.child_violations.
    cbn [flat_map fst snd app]. rewrite E, app_nil_r.
    cbv [Joi.messages Joi.required Joi.max Joi.min Joi.items Joi.array Joi.add
         Joi.with_opts Joi.plain Joi.rules Joi.is_required Joi.default_value
         Joi.custom app].
    rewrite check_array.
    rewrite (proj2 (valid_items _ _ _ _ _) Hall).
    cbn [Joi.rules Joi.options flat_map Joi.array_rule app].
    destruct (Z.leb_spec 1 (Z.of_nat (List.length l))); [| lia].
    destruct (Z.leb_spec (Z.of_nat (List.length l)) 50); [| lia].
    reflexivity.
Qed.

(** C7.  A batch request is accepted by the validation exactly when its
    [embeddings] are a list of 1 to 50 records that each pass the create
    rules; any other batch is answered 400 and the collection is left as it
    was. *)
Theorem batch_is_validated_as_a_whole :
  forall (st : nat -> Service.stamps) (body : value) (c : collection),
    body <> Undefined ->
    (Validation.validate Validation.batchSchema body = None <-> acceptable body)
    /\ (~ acceptable body ->
        exists details, Routes.post_batch st body c = (Json 400 details, c)).
Proof.
  intros st body c Hbody. split.
  - rewrite acceptance. apply batch_accepted_iff. exact Hbody.
  - intros Hno.
    destruct (rejection_is_400 Validation.batchSchema body) as [details E].
    + intros H. apply Hno, batch_accepted_iff; assumption.
    + exists details. unfold Routes.post_batch, Routes.guarded. rewrite E.
      reflexivity.
Qed.

End Batch.

(** ** The dimension of the stored vectors *)

Module Dimension.
Import Js Effect Store Http JoiFacts ObjectFacts Terms.

(** *** What the validation says of a vector *)

Lemma length_rule (o : Joi.opts) (p : list string) (n : Z) :
  Joi.array_rule o p n (Joi.Length 90) = [] -> n = 90.
Proof.
  cbn [Joi.array_rule]. destruct (Z.eqb_spec n 90); [auto | discriminate].
Qed.

Lemma vector_of_a_valid_record (body : value) :
  body <> Undefined ->
  Joi.validate Validation.memoryEmbeddingSchema body = [] ->
  dimension_ok (get body "feature_vector").
Proof.
  intros Hbody H. unfold Joi.validate in H.
  apply valid_object in H as [-> | [props [-> H]]]; [contradiction |].
  do 8 (inversion H as [| ? ? _ H']; subst; clear H; rename H' into H).
  inversion H as [| ? ? Hchild _]; subst. cbn [fst snd app] in Hchild.
  pose proof Hchild as Hcopy.
  apply valid_array in Hchild as [E | [elems [E [_ Hrules]]]].
  - rewrite E in Hcopy. discriminate.
  - exists elems. split; [exact E |].
    cbn [Joi.rules Joi.options] in Hrules.
    inversion Hrules as [| ? ? Hlen _]; subst.
    apply length_rule in Hlen. lia.
Qed.

Lemma vector_of_a_valid_update (body : value) :
  Joi.validate Validation.updateMemoryEmbeddingSchema body = [] ->
  get body "feature_vector" = Undefined \/ dimension_ok (get body "feature_vector").
Proof.
  intros H. unfold Joi.validate in H.
  apply valid_object in H as [-> | [props [-> H]]]; [left; reflexivity |].
  do 5 (inversion H as [| ? ? _ H']; subst; clear H; rename H' into H).
  inversion H as [| ? ? Hchild _]; subst. cbn [fst snd app] in Hchild.
  apply valid_array in Hchild as [E | [elems [E [_ Hrules]]]]; [left; exact E |].
  right. exists elems. split; [exact E |].
  cbn [Joi.rules Joi.options] in Hrules.
  inversion Hrules as [| ? ? Hlen _]; subst.
  apply length_rule in Hlen. lia.
Qed.

(** A vector of another length is a violation, on create and on update. *)
Lemma create_rejects_the_length (body : value) (l : list value) :
  get body "feature_vector" = Arr l -> List.length l <> 90%nat ->
  Joi.validate Validation.memoryEmbeddingSchema body <> [].
Proof.
  intros E Hlen H.
  assert (Hbody : body <> Undefined) by (intros ->; discriminate).
  destruct (vector_of_a_valid_record body Hbody H) as [l' [E' Hl']].
  congruence.
Qed.

Lemma update_rejects_the_length (body : value) (l : list value) :
  get body "feature_vector" = Arr l -> List.length l <> 90%nat ->
  Joi.validate Validation.updateMemoryEmbeddingSchema body <> [].
Proof.
  intros E Hlen H.
  destruct (vector_of_a_valid_update body H) as [E' | [l' [E' Hl']]]; congruence.
Qed.

(** *** Calls that leave the collection as it was *)

Lemma readonly_ret {A} (a : A) : readonly (ret a).
Proof. intros c. reflexivity. Qed.

Lemma readonly_throw {A} (e : string) : readonly (@throw collection A e).
Proof. intros c. reflexivity. Qed.

Lemma readonly_bind {A B} (m : M collection A) (k : A -> M collection B) :
  readonly m -> (forall a, readonly (k a)) -> readonly (bind m k).
Proof.
  intros Hm Hk c. unfold bind. specialize (Hm c).
  destruct (m c) as [[a | e] c']; simpl in Hm; subst c'.
  - apply Hk.
  - reflexivity.
Qed.

Lemma readonly_rethrow {A} (prefix : string) (m : M collection A) :
  readonly m -> readonly (rethrow prefix m).
Proof.
  intros Hm c. unfold rethrow. specialize (Hm c).
  destruct (m c) as [[a | e] c']; exact Hm.
Qed.

Lemma readonly_call {A} (f : collection -> result A * collection) :
  (forall c, snd (f c) = c) -> readonly (call f).
Proof.
  intros Hf c. unfold call. destruct (outage c); [reflexivity | apply Hf].
Qed.

Lemma readonly_if {A} (b : bool) (m1 m2 : M collection A) :
  readonly m1 -> readonly m2 -> readonly (if b then m1 else m2).
Proof. destruct b; auto. Qed.

Ltac readonly :=
  repeat first
    [ apply readonly_rethrow
    | apply readonly_bind; [| intros ? ]
    | apply readonly_ret
    | apply readonly_throw
    | apply readonly_if
    | apply readonly_call; intros ?; cbv beta;
      repeat match goal with
             | |- context [match ?x with _ => _ end] => destruct x
             end; reflexivity ].

Lemma readonly_getStatistics now : readonly (Service.getStatistics now).
Proof.
  unfold Service.getStatistics, Service.initialize, connect, countDocuments,
    aggregate.
  readonly.
Qed.

Lemma readonly_getMemoryEmbeddingById id :
  readonly (Service.getMemoryEmbeddingById id).
Proof.
  unfold Service.getMemoryEmbeddingById, Service.initialize, connect, findOne.
  readonly.
Qed.

Lemma readonly_queryMemoryEmbeddings queryOptions :
  readonly (Service.queryMemoryEmbeddings queryOptions).
Proof.
  unfold Service.queryMemoryEmbeddings, Service.initialize, Service.reading,
    connect, find_page, countDocuments.
  readonly.
Qed.

Lemma readonly_findSimilarMemoryEmbeddings queryVector options :
  readonly (Service.findSimilarMemoryEmbeddings queryVector options).
Proof.
  unfold Service.findSimilarMemoryEmbeddings, Service.initialize, Service.reading,
    connect, find_similar.
  readonly.
Qed.

(** *** The collection after a handler *)

Lemma snd_respond run reply c : snd (Routes.respond run reply c) = snd (run c).
Proof. unfold Routes.respond. destruct (run c) as [[a | e] c']; reflexivity. Qed.

Lemma snd_respond_or_404 run reply c :
  snd (Routes.respond_or_404 run reply c) = snd (run c).
Proof.
  unfold Routes.respond_or_404. destruct (run c) as [[a | e] c']; [reflexivity |].
  destruct (String.eqb e Routes.not_found_message); reflexivity.
Qed.

Lemma guarded_preserves (P : collection -> Prop) check h c :
  P c -> (check = None -> P (snd (h c))) -> P (snd (Routes.guarded check h c)).
Proof.
  intros Hc Hh. unfold Routes.guarded. destruct check; [exact Hc | auto].
Qed.

Lemma destructured_preserves (P : collection -> Prop) body property h c :
  P c -> (nullish body = false -> P (snd (h c))) ->
  P (snd (Routes.destructured body property h c)).
Proof.
  intros Hc Hh. unfold Routes.destructured. destruct (nullish body); [exact Hc | auto].
Qed.

(** *** Writes *)

Lemma Forall_replace_first {P : document -> Prop} p d' l :
  Forall P l -> P d' -> Forall P (replace_first p d' l).
Proof.
  intros Hl Hd. induction Hl as [| x r Hx Hr IH]; simpl; [constructor |].
  destruct (p x); constructor; assumption.
Qed.

Lemma Forall_remove_first {P : document -> Prop} p l :
  Forall P l -> Forall P (remove_first p l).
Proof.
  intros Hl. induction Hl as [| x r Hx Hr IH]; simpl; [constructor |].
  destruct (p x); [assumption | constructor; assumption].
Qed.

Lemma vector_of_new_document st body :
  get (Obj (Service.new_document st body)) "$vector" = get body "feature_vector".
Proof. reflexivity. Qed.

Lemma create_preserves st body c :
  Joi.validate Validation.memoryEmbeddingSchema body = [] ->
  vectors_ok c -> vectors_ok (snd (Service.createMemoryEmbedding st body c)).
Proof.
  intros Hvalid Hc.
  unfold Service.createMemoryEmbedding, Service.initialize, Service.reading,
    connect, insertOne, rethrow, bind, call, ret, throw.
  cbv beta. destruct (outage c) eqn:Hup; cbv beta iota; [exact Hc |].
  destruct (nullish body) eqn:Hbody; cbv beta iota; [exact Hc |].
  repeat (rewrite Hup; cbv beta iota).
  destruct (existsb _ (docs c)); cbv beta iota; [exact Hc |].
  unfold vectors_ok. cbn [snd docs with_docs].
  apply Forall_app. split; [exact Hc |].
  constructor; [| constructor].
  rewrite vector_of_new_document. apply vector_of_a_valid_record; [| exact Hvalid].
  intros ->. discriminate.
Qed.

Lemma update_preserves now id body c :
  Joi.validate Validation.updateMemoryEmbeddingSchema body = [] ->
  vectors_ok c -> vectors_ok (snd (Service.updateMemoryEmbedding now id body c)).
Proof.
  intros Hvalid Hc.
  unfold Service.updateMemoryEmbedding, Service.initialize, Service.reading,
    connect, findOneAndUpdate, rethrow, bind, call, ret, throw.
  cbv beta. destruct (outage c) eqn:Hup; cbv beta iota; [exact Hc |].
  destruct (nullish body) eqn:Hbody; cbv beta iota; [exact Hc |].
  repeat (rewrite Hup; cbv beta iota).
  destruct (find _ (docs c)) as [d |] eqn:Hfind; cbv beta iota; [| exact Hc].
  unfold apply_update.
  cbn [get lookup String.eqb Ascii.eqb Bool.eqb fields_of fold_left].
  fold (assign_all (Service.updateDoc now body) d).
  cbn [truthy negb snd docs with_docs]. unfold vectors_ok. cbn [docs].
  apply Forall_replace_first; [exact Hc |].
  pose proof (Update.change_set now body "$vector" Hvalid) as Hset.
  cbn [String.eqb Ascii.eqb Bool.eqb updatable find fst snd] in Hset.
  destruct (vector_of_a_valid_update body Hvalid) as [E | Hok].
  - rewrite E in Hset. cbn [is_undefined] in Hset.
    rewrite (Update.get_of_lookup "$vector" _ d (lookup_assign_all _ _ _ Hset)).
    unfold vectors_ok in Hc. rewrite Forall_forall in Hc.
    apply Hc. apply find_some in Hfind. tauto.
  - destruct Hok as [l [E Hl]]. rewrite E in Hset. cbn [is_undefined] in Hset.
    unfold get. rewrite (lookup_assign_all_last _ _ _ _ Hset (Update.NoDup_updateDoc _ _)).
    exists l. auto.
Qed.

Lemma delete_preserves id c :
  vectors_ok c -> vectors_ok (snd (Service.deleteMemoryEmbedding id c)).
Proof.
  intros Hc.
  unfold Service.deleteMemoryEmbedding, Service.initialize, connect, deleteOne,
    rethrow, bind, call, ret, throw.
  cbv beta. destruct (outage c) eqn:Hup; cbv beta iota; [exact Hc |].
  repeat (rewrite Hup; cbv beta iota).
  destruct (find _ (docs c)); cbv beta iota; [| exact Hc].
  cbn [get lookup String.eqb Ascii.eqb Bool.eqb strict_eq snd].
  apply Forall_remove_first. exact Hc.
Qed.

Lemma access_preserves at_access at_update id c :
  vectors_ok c ->
  vectors_ok (snd (Service.recordMemoryAccess at_access at_update id c)).
Proof.
  intros Hc.
  unfold Service.recordMemoryAccess, Service.initialize, connect, findOneAndUpdate,
    rethrow, bind, call, ret, throw.
  cbv beta. destruct (outage c) eqn:Hup; cbv beta iota; [exact Hc |].
  repeat (rewrite Hup; cbv beta iota).
  destruct (find _ (docs c)) as [d |] eqn:Hfind; cbv beta iota; [| exact Hc].
  assert (Hd : dimension_ok (get (Obj d) "$vector")).
  { unfold vectors_ok in Hc. rewrite Forall_forall in Hc.
    apply Hc. apply find_some in Hfind. tauto. }
  unfold apply_update.
  cbn [get lookup String.eqb Ascii.eqb Bool.eqb fields_of fold_left fst snd
       assign_all].
  unfold increment. cbn [fst snd].
  destruct (get _ "access_frequency") as [| | | m | | |]; cbv beta iota;
    try exact Hc; unfold int; cbv beta iota; cbn [truthy negb snd];
    (apply Forall_replace_first; [exact Hc |]);
    rewrite !get_assign; cbn [String.eqb Ascii.eqb Bool.eqb]; exact Hd.
Qed.

Lemma insertEach_preserves (l : list document) :
  Forall (fun d => dimension_ok (get (Obj d) "$vector")) l ->
  forall c, vectors_ok c -> vectors_ok (snd (insertEach l c)).
Proof.
  induction 1 as [| d r Hd Hr IH]; intros c Hc; [exact Hc |].
  cbn [insertEach]. unfold bind at 1. unfold insertOne, call.
  destruct (outage c); cbv beta iota; [exact Hc |].
  destruct (existsb _ (docs c)); cbv beta iota; [exact Hc |].
  unfold bind, ret.
  match goal with |- context [insertEach r ?c1] =>
    specialize (IH c1); destruct (insertEach r c1) as [[ids | e] c2]
  end; cbn [snd] in *; apply IH;
    (apply Forall_app; split; [exact Hc | constructor; [exact Hd | constructor]]).
Qed.

Lemma batch_documents_ok st (l : list value) :
  Forall valid_record l ->
  forall i, Forall (fun d => dimension_ok (get (Obj d) "$vector"))
                   (Service.batch_documents st i l).
Proof.
  induction 1 as [| e r [He Hv] Hr IH]; intros i; cbn [Service.batch_documents];
    constructor; [| apply IH].
  rewrite vector_of_new_document. apply vector_of_a_valid_record; assumption.
Qed.

Lemma batch_preserves st embeddings c :
  Forall valid_record embeddings ->
  vectors_ok c ->
  vectors_ok (snd (Service.createMemoryEmbeddingsBatch st (Arr embeddings) c)).
Proof.
  intros Hvalid Hc.
  unfold Service.createMemoryEmbeddingsBatch, Service.initialize, Service.reading,
    connect, insertMany, rethrow, bind, call, ret, throw.
  cbv beta. destruct (outage c) eqn:Hup; cbv beta iota; [exact Hc |].
  destruct (nullish _); cbv beta iota; [exact Hc |].
  pose proof (insertEach_preserves _ (batch_documents_ok st embeddings Hvalid O) c Hc)
    as Hins.
  destruct (insertEach _ c) as [[ids | e] c']; exact Hins.
Qed.

(** A valid record whose identifier is new is stored, with its vector. *)
Lemma valid_create_is_stored st body c :
  Joi.validate Validation.memoryEmbeddingSchema body = [] ->
  body <> Undefined ->
  outage c = None ->
  existsb (fun d => eqb (id_of d) (Str (Service.uuid st))) (docs c) = false ->
  docs (snd (Routes.post_create st body c))
  = docs c ++ [Service.new_document st body]
  /\ dimension_ok (get (Obj (Service.new_document st body)) "$vector").
Proof.
  intros Hvalid Hbody Hup Hnew. split.
  - assert (Hobj : nullish body = false).
    { apply valid_object in Hvalid as [-> | [props [-> _]]];
        [contradiction | reflexivity]. }
    unfold Routes.post_create, Routes.guarded, Validation.validate.
    rewrite Hvalid, snd_respond.
    unfold Service.createMemoryEmbedding, Service.initialize, Service.reading,
      connect, insertOne, rethrow, bind, call, ret.
    repeat first [rewrite Hup | rewrite Hobj | progress cbv beta iota].
    change (id_of (Service.new_document st body)) with (Str (Service.uuid st)).
    rewrite Hnew. reflexivity.
  - rewrite vector_of_new_document.
    apply vector_of_a_valid_record; assumption.
Qed.

(** Every request leaves the stored vectors 90 items long. *)
Lemma handle_preserves (r : request) (c : collection) :
  vectors_ok c -> vectors_ok (snd (handle r c)).
Proof.
  intros Hc. destruct r; cbn [handle].
  - unfold Routes.get_stats. rewrite snd_respond, readonly_getStatistics. exact Hc.
  - unfold Routes.post_similarity.
    apply guarded_preserves; [exact Hc | intros _].
    apply destructured_preserves; [exact Hc | intros _].
    rewrite snd_respond, readonly_findSimilarMemoryEmbeddings. exact Hc.
  - unfold Routes.post_batch.
    apply guarded_preserves; [exact Hc | intros Hvalid].
    apply destructured_preserves; [exact Hc | intros Hbody].
    rewrite snd_respond.
    apply Batch.acceptance, Batch.batch_accepted_iff in Hvalid;
      [| intros ->; discriminate].
    destruct Hvalid as [l [-> [_ Hall]]].
    apply batch_preserves; assumption.
  - unfold Routes.get_query.
    apply guarded_preserves; [exact Hc | intros _].
    rewrite snd_respond, readonly_queryMemoryEmbeddings. exact Hc.
  - unfold Routes.post_create.
    apply guarded_preserves; [exact Hc | intros Hvalid].
    rewrite snd_respond. apply create_preserves; [| exact Hc].
    apply Batch.acceptance. exact Hvalid.
  - unfold Routes.get_by_id.
    rewrite snd_respond_or_404, readonly_getMemoryEmbeddingById. exact Hc.
  - unfold Routes.put_by_id.
    apply guarded_preserves; [exact Hc | intros Hvalid].
    rewrite snd_respond_or_404. apply update_preserves; [| exact Hc].
    apply Batch.acceptance. exact Hvalid.
  - unfold Routes.delete_by_id. rewrite snd_respond_or_404.
    apply delete_preserves. exact Hc.
  - unfold Routes.get_user. rewrite snd_respond, readonly_queryMemoryEmbeddings.
    exact Hc.
  - unfold Routes.get_type. rewrite snd_respond, readonly_queryMemoryEmbeddings.
    exact Hc.
  - unfold Routes.post_access. rewrite snd_respond_or_404.
    apply access_preserves. exact Hc.
Qed.

(** C6.  A create or an update request whose [feature_vector] is a list of a
    length other than 90 is answered 400 by the validation, and the
    collection is left as it was; and whatever the requests, the vector
    stored with every document stays 90 items long. *)
Theorem wrong_length_never_reaches_storage :
  (forall (st : Service.stamps) (body : value) (l : list value) (c : collection),
      get body "feature_vector" = Arr l -> List.length l <> 90%nat ->
      exists details, Routes.post_create st body c = (Json 400 details, c))
  /\ (forall (now : Z) (id : string) (body : value) (l : list value)
             (c : collection),
         get body "feature_vector" = Arr l -> List.length l <> 90%nat ->
         exists details, Routes.put_by_id now id body c = (Json 400 details, c))
  /\ (forall (r : request) (c : collection),
         vectors_ok c -> vectors_ok (snd (handle r c))).
Proof.
  split; [| split].
  - intros st body l c E Hlen.
    destruct (Batch.rejection_is_400 Validation.memoryEmbeddingSchema body
                (create_rejects_the_length body l E Hlen)) as [details Hrej].
    exists details. unfold Routes.post_create, Routes.guarded. rewrite Hrej.
    reflexivity.
  - intros now id body l c E Hlen.
    destruct (Batch.rejection_is_400 Validation.updateMemoryEmbeddingSchema body
                (update_rejects_the_length body l E Hlen)) as [details Hrej].
    exists details. unfold Routes.put_by_id, Routes.guarded. rewrite Hrej.
    reflexivity.
  - exact handle_preserves.
Qed.

End Dimension.

(** ** The validated query route *)

Module QueryRoute.
Import Js Effect Store Http Routes Terms.
Import NumberFacts ObjectFacts JoiFacts SortFacts.

(** [GET /query] is behind the query schema, which holds the limit to
    [1..100]: a limit of zero, number or string, is answered 400 there. *)
Lemma query_route_rejects_limit_zero (query : value) (c : collection) :
  get query "limit" = int 0 \/ get query "limit" = Str "0" ->
  exists details, Routes.get_query query c = (Json 400 details, c).
Proof.
  intros Hlimit.
  assert (Hno : Joi.validate Validation.querySchema query <> []).
  { intros H. unfold Joi.validate in H.
    apply valid_object in H as [-> | [props [-> H]]].
    - destruct Hlimit; discriminate.
    - do 6 (inversion H as [| ? ? _ H']; subst; clear H; rename H' into H).
      inversion H as [| ? ? Hchild _]; subst. cbn [fst snd app] in Hchild.
      destruct Hlimit as [E | E]; rewrite E in Hchild; vm_compute in Hchild;
        discriminate. }
  unfold Routes.get_query, Routes.guarded, Validation.validateQuery.
  destruct (Joi.validate Validation.querySchema query); [contradiction Hno; reflexivity |].
  eexists. reflexivity.
Qed.

(** A query whose offset and limit the collection takes for counts runs to
    its end: it answers the page of its filter and order, and the summary
    computed from the offset and the limit as they were given. *)
Lemma query_counts (c : collection) (queryOptions : value) (k n : nat) :
  outage c = None ->
  queryOptions <> Null ->
  count_of (query_offset queryOptions) = Some k ->
  count_of (query_limit queryOptions) = Some n ->
  Service.queryMemoryEmbeddings queryOptions c
  = (Ok (Obj [("results", Arr (map query_row (map Obj (page c queryOptions k n))));
              ("pagination",
                Service.pagination (query_offset queryOptions)
                  (query_limit queryOptions)
                  (int (total_matching queryOptions c)))]), c).
Proof.
  intros Hup Hnull Hk Hn.
  assert (Hobj : nullish (default (Obj []) queryOptions) = false)
    by (destruct queryOptions; try reflexivity; contradiction).
  unfold Service.queryMemoryEmbeddings, Service.initialize, Service.reading,
    connect, find_page, countDocuments, rethrow, bind, call, ret.
  cbv beta. repeat rewrite Hup. cbv beta iota. rewrite Hobj. cbv beta iota.
  fold (query_offset queryOptions). fold (query_limit queryOptions).
  rewrite Hk, Hn. cbv beta iota. repeat rewrite Hup. cbv beta iota.
  reflexivity.
Qed.

Lemma filter_all {A} (p : A -> bool) (l : list A) :
  (forall x, p x = true) -> List.filter p l = l.
Proof.
  intros Hp. induction l as [| x r IH]; [reflexivity |].
  simpl. rewrite Hp, IH. reflexivity.
Qed.

(** The second page of ten, of more than twenty documents. *)
Lemma page_of_ten (c : collection) :
  (20 < List.length (docs c))%nat ->
  List.length (page c ten_after_ten 10 10) = 10%nat
  /\ total_matching ten_after_ten c = Z.of_nat (List.length (docs c)).
Proof.
  intros Hlen.
  assert (Hall : List.filter (matches (query_filter ten_after_ten)) (docs c) = docs c)
    by (apply filter_all; intros d; reflexivity).
  split.
  - unfold page, limited. rewrite Hall, length_firstn, length_skipn, length_sort. lia.
  - unfold total_matching. fold (query_filter ten_after_ten). rewrite Hall. reflexivity.
Qed.

(** C3, as the code has it.  The claim: for every generic query,
    [has_next] is [offset + limit < total].  [GET /query] validates the
    query string and hands it over as it came, so an [offset] and a [limit]
    that the request gives are texts, and [+] joins two texts: for
    [offset=10&limit=10] the route compares [1010] with the total.  With
    more than 20 matching documents, and no more than 1010, it answers the
    ten rows of the second page and says that there is no next one. *)
Theorem texts_are_joined_not_added :
  forall c : collection,
    outage c = None ->
    (20 < List.length (docs c) <= 1010)%nat ->
    exists rows summary,
      get_query ten_after_ten c
      = (success 200 (Obj [("results", Arr rows); ("pagination", summary)])
           "Found 10 memory embeddings", c)
      /\ List.length rows = 10%nat
      /\ get summary "total_count" = int (Z.of_nat (List.length (docs c)))
      /\ (10 + 10 <? Z.of_nat (List.length (docs c))) = true
      /\ get summary "has_next" = Bool false
      /\ get summary "has_previous" = Bool true
      /\ get summary "current_page" = int 2.
Proof.
  intros c Hup Hlen.
  destruct (page_of_ten c ltac:(lia)) as [Hpage Htotal].
  assert (Hrows : List.length (map query_row (map Obj (page c ten_after_ten 10 10)))
                  = 10%nat)
    by (rewrite !length_map; exact Hpage).
  eexists. eexists. split.
  - unfold get_query, guarded.
    change (Validation.validateQuery Validation.querySchema ten_after_ten) with (@None response).
    unfold respond.
    rewrite (query_counts c ten_after_ten 10 10 Hup ltac:(discriminate) eq_refl eq_refl).
    unfold success, found. cbn [get lookup String.eqb Ascii.eqb Bool.eqb Js.length].
    rewrite Hrows. reflexivity.
  - split; [exact Hrows |].
    rewrite Htotal.
    split; [reflexivity |].
    split; [apply Z.ltb_lt; lia |].
    split; [| split; reflexivity].
    unfold Service.pagination. cbn [get lookup String.eqb Ascii.eqb Bool.eqb].
    change (plus (query_offset ten_after_ten) (query_limit ten_after_ten))
      with (Str "1010").
    unfold lt, int. cbn [stringy andb to_number].
    change (string_to_number "1010") with (Fin (inject_Z 1010)).
    rewrite num_lt_int. f_equal. apply Z.ltb_ge. lia.
Qed.

End QueryRoute.

(** ** The connection to the database *)

Module Connection.
Import Js Effect Process AstraDB Terms.

Lemma getenv_cases (env : environment) (name : string) :
  getenv env name = Undefined \/ exists s, getenv env name = Str s.
Proof.
  unfold getenv.
  destruct (find _ env) as [kv |]; [right; eexists; reflexivity | left; reflexivity].
Qed.

Lemma truthy_getenv (env : environment) (name : string) :
  truthy (getenv env name) = true <-> provided env name.
Proof.
  unfold provided. destruct (getenv_cases env name) as [E | [s E]]; rewrite E; simpl.
  - split; [discriminate | intros [s [H _]]; discriminate].
  - destruct (String.eqb_spec s ""); simpl.
    + split; [discriminate | intros [s' [H Hs]]; congruence].
    + split; [intros _; exists s; auto | reflexivity].
Qed.

Lemma positive_length {A} (l : list A) :
  gt (int (Z.of_nat (List.length l))) (int 0)
  = match l with [] => false | _ => true end.
Proof.
  unfold gt, lt, int. cbn [stringy andb to_number]. rewrite NumberFacts.num_lt_int.
  destruct l; [reflexivity |]. cbn [List.length].
  destruct (Z.ltb_spec 0 (Z.of_nat (S (List.length l)))); [reflexivity | lia].
Qed.

Lemma validateConfig_missing (env : environment) :
  validateConfig env
  = match missing env with
    | [] => Ok tt
    | l => Throw (missing_message l)
    end.
Proof.
  unfold validateConfig. fold (missing env). rewrite positive_length.
  destruct (missing env); reflexivity.
Qed.

(** X1.  The configuration is accepted exactly when the four variables of
    the database are set, each to a text that is not empty; otherwise the
    error names the variables that are not, and only those. *)
Theorem config_is_checked :
  forall env : environment,
    (validateConfig env = Ok tt <-> Forall (provided env) requiredVars)
    /\ (forall message,
          validateConfig env = Throw message ->
          exists names,
            message = missing_message names
            /\ names <> []
            /\ forall name,
                 In name names
                 <-> In name requiredVars
                     /\ (getenv env name = Undefined \/ getenv env name = Str "")).
Proof.
  intros env. rewrite validateConfig_missing. split.
  - split.
    + intros H. apply Forall_forall. intros name Hin.
      apply truthy_getenv. destruct (truthy (getenv env name)) eqn:E; [reflexivity |].
      assert (Hm : In name (missing env)).
      { apply filter_In. rewrite E. auto. }
      destruct (missing env); [contradiction | discriminate].
    + intros H. destruct (missing env) as [| name l] eqn:E; [reflexivity |].
      assert (Hm : In name (missing env)) by (rewrite E; left; reflexivity).
      apply filter_In in Hm as [Hin Hno]. rewrite Forall_forall in H.
      apply H, truthy_getenv in Hin. rewrite Hin in Hno. discriminate.
  - intros message H. destruct (missing env) as [| name l] eqn:E; [discriminate |].
    injection H as <-. exists (name :: l). split; [reflexivity |].
    split; [discriminate |]. intros x. rewrite <- E. unfold missing.
    rewrite filter_In. apply and_iff_compat_l.
    destruct (getenv_cases env x) as [Hx | [s Hx]]; rewrite Hx; simpl.
    + intuition.
    + destruct (String.eqb_spec s ""); simpl.
      * subst. intuition.
      * split; [discriminate | intros [H | H]; [discriminate | congruence]].
Qed.

Ltac run :=
  unfold connect, disconnect, bind, read, lift, modify, try_catch, ret, throw;
  cbv beta.

(** The answers of the client, one after the other. *)
Ltac answers d :=
  destruct (newClient d); cbv iota beta;
  [destruct (openDb d); cbv iota beta;
   [destruct (info d); cbv iota beta;
    (destruct (createCollection d) as [| ?m]; cbv iota beta;
     [| destruct (includes m "already exists") eqn:?Hincl; cbv iota beta;
        [destruct (getCollection d); cbv iota beta |]]) |] |].

Lemma connect_when_connected env d s :
  isConnected s = true -> connect env d s = (Ok (collection s), s).
Proof. intros H. run. rewrite H. reflexivity. Qed.

Lemma connect_success env d s r s' :
  connect env d s = (Ok r, s') -> isConnected s' = true /\ collection s' = r.
Proof.
  destruct (isConnected s) eqn:E.
  - rewrite (connect_when_connected _ _ _ E). intros H. injection H as <- <-. auto.
  - run. rewrite E. cbv iota beta.
    destruct (validateConfig env); cbv iota beta; [| discriminate].
    answers d; intros H; try discriminate; injection H as <- <-; auto.
Qed.

(** X2.  Once [connect] has succeeded, every later [connect] hands over the
    same collection and leaves the connection as it is, whatever the
    environment and the database have become: nothing is validated and
    nothing is asked of the database again. *)
Theorem connect_is_cached :
  forall env d s r s',
    connect env d s = (Ok r, s') ->
    forall env' d', connect env' d' s' = (Ok r, s').
Proof.
  intros env d s r s' H env' d'.
  apply connect_success in H as [Hc <-]. apply connect_when_connected. exact Hc.
Qed.

(** X3.  The answer of [db.info()] has no part in the outcome of [connect].
    With a valid configuration, a failure to create the collection whose
    message holds [already exists] is no failure: the collection is looked
    up and the connection is established; any other failure is thrown as it
    came, and the connection stays unestablished, with the collection it
    had. *)
Theorem connect_tolerates :
  (forall env d i s, connect env (with_info i d) s = connect env d s)
  /\ (forall env d s message,
        isConnected s = false -> validateConfig env = Ok tt ->
        newClient d = Ok tt -> openDb d = Ok tt ->
        createCollection d = Throw message ->
        (includes message "already exists" = true -> getCollection d = Ok tt ->
         exists s',
           connect env d s = (Ok (Some (Accessed "memory_embeddings")), s')
           /\ isConnected s' = true)
        /\ (includes message "already exists" = false ->
            exists s',
              connect env d s = (Throw message, s')
              /\ isConnected s' = false /\ collection s' = collection s)).
Proof.
  split.
  - intros env d i s. run.
    cbn [with_info newClient openDb info createCollection getCollection].
    destruct (isConnected s); [reflexivity |]. cbv iota beta.
    destruct (validateConfig env); cbv iota beta; [| reflexivity].
    destruct (newClient d); cbv iota beta; [| reflexivity].
    destruct (openDb d); cbv iota beta; [| reflexivity].
    destruct i, (info d); reflexivity.
  - intros env d s message Hs Henv Hnew Hopen Hcreate.
    run. rewrite Hs, Henv, Hnew, Hopen, Hcreate. cbv iota beta.
    split.
    + intros Hincl Hget. rewrite Hincl, Hget.
      destruct (info d); cbv iota beta; eexists; split; reflexivity.
    + intros Hincl. rewrite Hincl.
      destruct (info d); cbv iota beta; eexists; (split; [reflexivity |]);
        split; (exact Hs || reflexivity).
Qed.

(** What [connect] keeps: a property of the connection that holds before
    holds after, when it holds of the states [connect] may leave. *)
Lemma connect_keeps (P : connection -> Prop) env d s :
  P s ->
  (forall s1, isConnected s1 = false -> collection s1 = collection s -> P s1) ->
  (forall s1 h,
      isConnected s1 = true -> collection s1 = h -> memory_embeddings h -> P s1) ->
  P (snd (connect env d s)).
Proof.
  intros Hs Hoff Hon. destruct (isConnected s) eqn:E.
  - rewrite (connect_when_connected _ _ _ E). exact Hs.
  - run. rewrite E. cbv iota beta.
    destruct (validateConfig env); cbv iota beta; [| exact Hs].
    answers d; cbn [snd];
      first [ apply Hoff; [exact E | reflexivity]
            | eapply Hon; [reflexivity | reflexivity | unfold memory_embeddings; auto]
            | exact Hs ].
Qed.

Lemma connect_well_kept env d s : well_kept s -> well_kept (snd (connect env d s)).
Proof.
  intros H0. apply connect_keeps.
  - exact H0.
  - intros s1 H1 _ H2. congruence.
  - intros s1 h _ <- Hh _. exact Hh.
Qed.

(** [healthCheck] connects when there is no connection, and then verifies
    the collection. *)
Lemma healthCheck_verified env d now s :
  healthCheck env d now s
  = if isConnected s then verified d now s
    else match connect env d s with
         | (Ok _, s1) => verified d now s1
         | (Throw message, s1) => (Ok (unhealthy now message), s1)
         end.
Proof.
  unfold healthCheck, try_catch, verified, healthy, unhealthy.
  unfold bind at 1. unfold read at 1. cbv beta.
  destruct (isConnected s) eqn:E; cbn [negb].
  - unfold bind, read, ret, lift, throw. cbv beta.
    destruct (collection s); cbv iota beta; [| reflexivity].
    destruct (options d) as [stats |]; cbv iota beta; [| reflexivity].
    destruct (nullish stats); cbv iota beta; rewrite ?E; reflexivity.
  - unfold bind at 1. unfold bind at 1.
    destruct (connect env d s) as [[r | m] s1]; cbv iota beta.
    + unfold bind, read, ret, lift, throw. cbv beta.
      destruct (collection s1); cbv iota beta; [| reflexivity].
      destruct (options d) as [stats |]; cbv iota beta; [| reflexivity].
      destruct (nullish stats); cbv iota beta; reflexivity.
    + reflexivity.
Qed.

Lemma snd_verified d now s : snd (verified d now s) = s.
Proof.
  unfold verified. destruct (collection s); [| reflexivity].
  destruct (options d) as [stats |]; [| reflexivity].
  destruct (nullish stats); reflexivity.
Qed.

Lemma reachable_well_kept s : reachable s -> well_kept s.
Proof.
  induction 1 as [| env d s Hs IH | s Hs IH | env d now s Hs IH].
  - intros H. discriminate.
  - apply connect_well_kept, IH.
  - run. destruct (client s); cbn [snd]; [intros H; discriminate | exact IH].
  - rewrite healthCheck_verified. destruct (isConnected s) eqn:E.
    + rewrite snd_verified. exact IH.
    + pose proof (connect_well_kept env d s IH) as Hc.
      destruct (connect env d s) as [[r | m] s1]; cbn [snd] in *.
      * rewrite snd_verified. exact Hc.
      * exact Hc.
Qed.

(** X4.  From the connection as it is constructed, through any connects,
    disconnects and health checks, a [connect] that succeeds hands over the
    collection [memory_embeddings], created with 90 dimensions and the
    cosine metric or looked up by its name; it never hands over [null]. *)
Theorem connect_hands_over_the_collection :
  forall env d s r s',
    reachable s -> connect env d s = (Ok r, s') -> memory_embeddings r.
Proof.
  intros env d s r s' Hs H.
  pose proof (reachable_well_kept _ (reach_connect env d s Hs)) as Hk.
  rewrite H in Hk. cbn [snd] in Hk.
  apply connect_success in H as [Hc <-]. apply Hk, Hc.
Qed.

Lemma verified_reports d now s :
  isConnected s = true ->
  exists report,
    verified d now s = (Ok report, s)
    /\ get report "timestamp" = Str (toISOString now)
    /\ ((get report "status" = Str "healthy"
         /\ get report "connected" = Bool true
         /\ truthy (get report "vectorDimensions") = true
         /\ exists stats, options d = Ok stats /\ nullish stats = false)
        \/ (get report "status" = Str "unhealthy"
            /\ get report "connected" = Bool false
            /\ exists message, get report "error" = Str message)).
Proof.
  intros H1. unfold verified. destruct (collection s).
  - destruct (options d) as [stats | m].
    + destruct (nullish stats) eqn:En.
      * eexists. split; [reflexivity |]. split; [reflexivity |]. right.
        repeat split; eexists; reflexivity.
      * eexists. split; [reflexivity |]. split; [reflexivity |]. left.
        rewrite H1. repeat split; try reflexivity.
        -- unfold healthy. cbn [get lookup String.eqb Ascii.eqb Bool.eqb].
           unfold or_else.
           destruct (truthy (get (get stats "vector") "dimension")) eqn:Et;
             [exact Et | reflexivity].
        -- exists stats. auto.
    + eexists. split; [reflexivity |]. split; [reflexivity |]. right.
      repeat split; eexists; reflexivity.
  - eexists. split; [reflexivity |]. split; [reflexivity |]. right.
    repeat split; eexists; reflexivity.
Qed.

(** X5.  [healthCheck] never throws: it answers a report, healthy or
    unhealthy, with the time of the check.  A healthy report says
    [connected: true], comes with an established connection and the options
    of the collection, and carries a number of dimensions that is never
    [0] or absent; an unhealthy one says [connected: false] and carries the
    message of the error, which is that of [connect] when the connection
    could not be had. *)
Theorem health_check_never_throws :
  forall env d now s,
    exists report s',
      healthCheck env d now s = (Ok report, s')
      /\ get report "timestamp" = Str (toISOString now)
      /\ ((get report "status" = Str "healthy"
           /\ get report "connected" = Bool true
           /\ isConnected s' = true
           /\ truthy (get report "vectorDimensions") = true
           /\ exists stats, options d = Ok stats /\ nullish stats = false)
          \/ (get report "status" = Str "unhealthy"
              /\ get report "connected" = Bool false
              /\ exists message, get report "error" = Str message))
      /\ (forall message,
            isConnected s = false -> fst (connect env d s) = Throw message ->
            get report "status" = Str "unhealthy"
            /\ get report "error" = Str message).
Proof.
  intros env d now s. rewrite healthCheck_verified.
  destruct (isConnected s) eqn:E.
  - destruct (verified_reports d now s E) as (report & Hrun & Htime & Hrest).
    exists report, s. split; [exact Hrun |]. split; [exact Htime |].
    split; [| intros m H; discriminate].
    destruct Hrest as [(H1 & H2 & H3) | H]; [left | right; exact H]. auto.
  - destruct (connect env d s) as [[r | m] s1] eqn:Ec.
    + destruct (connect_success _ _ _ _ _ Ec) as [H1 _].
      destruct (verified_reports d now s1 H1) as (report & Hrun & Htime & Hrest).
      exists report, s1. split; [exact Hrun |]. split; [exact Htime |].
      split; [| intros m _ H; discriminate].
      destruct Hrest as [(H2 & H3 & H4) | H]; [left | right; exact H]. auto.
    + do 2 eexists. split; [reflexivity |]. split; [reflexivity |].
      split.
      * right. repeat split; eexists; reflexivity.
      * intros m' _ H. cbn [fst] in H. injection H as <-. split; reflexivity.
Qed.

(** X6.  [disconnect] does nothing to a connection that has no client, and
    takes any other back to the state of its constructor; so the next
    [connect] validates the configuration again, and fails on one that is
    invalid where a connected one would not have looked at it. *)
Theorem disconnect_forgets :
  forall s,
    (client s = None -> disconnect s = (Ok tt, s))
    /\ (client s <> None ->
        disconnect s = (Ok tt, constructed)
        /\ forall env d message,
             validateConfig env = Throw message ->
             connect env d (snd (disconnect s)) = (Throw message, constructed)).
Proof.
  intros s. split.
  - intros H. run. rewrite H. reflexivity.
  - intros H. assert (E : disconnect s = (Ok tt, constructed)).
    { run. destruct (client s); [reflexivity | contradiction]. }
    split; [exact E |]. intros env d message Hm. rewrite E. cbn [snd].
    run. cbn [isConnected constructed]. rewrite Hm. reflexivity.
Qed.

End Connection.

(** ** The application *)

Module Application.
Import Js Effect Http Process Server Terms.

(** X7.  The API key is checked in production only.  There a request passes
    exactly when it carries a key that is not empty and is the one of the
    environment, so nothing passes when the environment has none; elsewhere
    every request passes, with or without a key.  A request that does not
    pass is answered 401. *)
Theorem api_key_is_checked_in_production_only :
  forall (env : environment) (key : option string),
    (validateApiKey env (header key) = None
     <-> getenv env "NODE_ENV" <> Str "production"
         \/ exists k, key = Some k /\ k <> "" /\ getenv env "API_KEY" = Str k)
    /\ (validateApiKey env (header key) = None
        \/ validateApiKey env (header key) = Some unauthorized).
Proof.
  intros env key. unfold validateApiKey.
  destruct (Connection.getenv_cases env "NODE_ENV") as [E | [mode E]];
    rewrite E; cbn [strict_eq].
  - split; [| left; reflexivity]. split; [intros _; left; discriminate | reflexivity].
  - destruct (String.eqb_spec mode "production") as [-> | Hmode].
    + destruct key as [k |]; cbn [header truthy negb orb].
      * destruct (String.eqb_spec k "") as [-> | Hk]; cbn [negb orb].
        -- split; [| right; reflexivity]. split; [discriminate |].
           intros [H | [k [Hk [Hne _]]]]; [contradiction H; reflexivity |].
           injection Hk as <-. contradiction Hne; reflexivity.
        -- destruct (Connection.getenv_cases env "API_KEY") as [Ek | [k' Ek]];
             rewrite Ek; cbn [strict_eq negb].
           ++ split; [| right; reflexivity]. split; [discriminate |].
              intros [H | [k0 [_ [_ H]]]]; [contradiction H; reflexivity | discriminate].
           ++ destruct (String.eqb_spec k k') as [<- | Hkk]; cbn [negb].
              ** split; [| left; reflexivity]. split; [| reflexivity].
                 intros _. right. exists k. auto.
              ** split; [| right; reflexivity]. split; [discriminate |].
                 intros [H | [k0 [H0 [_ H1]]]]; [contradiction H; reflexivity |].
                 injection H0 as <-. injection H1 as <-.
                 contradiction Hkk; reflexivity.
      * split; [| right; reflexivity]. split; [discriminate |].
        intros [H | [k [Hk _]]]; [contradiction H; reflexivity | discriminate].
    + split; [| left; reflexivity]. split; [| reflexivity].
      intros _. left. intros H. injection H as ->. contradiction Hmode; reflexivity.
Qed.

(** X8.  [GET /health] answers 200 [healthy] when [connect] succeeds and 503
    [unhealthy] with the message of the error when it throws, and keeps what
    [connect] did to the connection; on an established connection it
    answers 200 whatever the environment and the database have become,
    since [connect] then asks nothing of them. *)
Theorem health_endpoint_reports_the_connection :
  forall env d now uptime s,
    (forall r s',
        AstraDB.connect env d s = (Ok r, s') ->
        exists body,
          health env d now uptime s = (Json 200 body, s')
          /\ get body "status" = Str "healthy"
          /\ get body "database" = Str "connected")
    /\ (forall message s',
          AstraDB.connect env d s = (Throw message, s') ->
          exists body,
            health env d now uptime s = (Json 503 body, s')
            /\ get body "status" = Str "unhealthy"
            /\ get body "database" = Str "disconnected"
            /\ get body "error" = Str message)
    /\ (AstraDB.isConnected s = true ->
        exists body, health env d now uptime s = (Json 200 body, s)).
Proof.
  intros env d now uptime s. unfold health. split; [| split].
  - intros r s' E. rewrite E. eexists. repeat split.
  - intros m s' E. rewrite E. eexists. repeat split.
  - intros E. rewrite (Connection.connect_when_connected _ _ _ E).
    eexists. reflexivity.
Qed.

End Application.

(** ** Related memories *)

Module Relationships.
Import Js Effect Store Http Routes Terms.

(** A lookup by id on a collection, reachable or not. *)
Lemma lookup_runs (id : value) (c : collection) :
  Service.getMemoryEmbeddingById id c
  = match outage c with
    | Some e => (Throw (String.append "Failed to get memory embedding: " e), c)
    | None =>
        match stored id c with
        | Some d => (Ok (record_of (Obj d)), c)
        | None =>
            (Throw "Failed to get memory embedding: Memory embedding not found", c)
        end
    end.
Proof.
  unfold Service.getMemoryEmbeddingById, Service.initialize, connect, findOne,
    rethrow, bind, call, ret, throw, stored.
  cbv beta. destruct (outage c) eqn:Hup; cbv beta iota; [reflexivity |].
  repeat (rewrite Hup; cbv beta iota).
  destruct (find _ (docs c)); reflexivity.
Qed.

(** The loop adds, in order, the related memories that are stored and are
    the user's. *)
Lemma related_runs (userId : string) (ids : list value) :
  forall (acc : list value) (c : collection),
    related userId ids acc c
    = (acc ++ match outage c with
              | Some _ => []
              | None => flat_map (owned userId c) ids
              end, c).
Proof.
  induction ids as [| id rest IH]; intros acc c; cbn [related].
  - destruct (outage c); rewrite app_nil_r; reflexivity.
  - rewrite lookup_runs. destruct (outage c) eqn:Hup.
    + rewrite IH, Hup. reflexivity.
    + cbn [flat_map].
      replace (owned userId c id)
        with (match stored id c with
              | Some d =>
                  if strict_eq (get (Obj d) "user_id") (Str userId)
                  then [record_of (Obj d)]
                  else []
              | None => []
              end) by reflexivity.
      destruct (stored id c) as [d |].
      * rewrite IH, Hup.
        change (get (record_of (Obj d)) "user_id") with (get (Obj d) "user_id").
        destruct (strict_eq (get (Obj d) "user_id") (Str userId)).
        -- rewrite <- app_assoc. reflexivity.
        -- reflexivity.
      * rewrite IH, Hup. reflexivity.
Qed.

Lemma strict_eq_string (v : value) (s : string) :
  strict_eq v (Str s) = true <-> v = Str s.
Proof.
  destruct v; simpl; try (split; [discriminate | discriminate]).
  split.
  - intros H. apply String.eqb_eq in H. congruence.
  - intros H. injection H as ->. apply String.eqb_refl.
Qed.

Lemma length_owned (userId : string) (c : collection) (ids : list value) :
  (List.length (flat_map (owned userId c) ids) <= List.length ids)%nat.
Proof.
  induction ids as [| id rest IH]; [reflexivity |].
  cbn [flat_map]. rewrite length_app. unfold owned at 1.
  destruct (stored id c) as [d |]; [destruct (strict_eq _ _) |];
    cbn [List.length]; lia.
Qed.

(** X9.  For a stored memory of the user whose relationships are a list,
    the route of the relationships answers 200 with the memory and, in the
    order of the list, the records of the related memories that are stored
    and are the user's own; an identifier that names no stored memory, or
    the memory of another user, is passed over and fails nothing, so there
    are at most as many related memories as relationships. *)
Theorem related_memories_are_the_owned_ones :
  forall (c : collection) (userId memoryId : string) (d : document)
         (ids : list value),
    outage c = None ->
    stored (Str memoryId) c = Some d ->
    get (Obj d) "user_id" = Str userId ->
    get (Obj d) "relationships" = Arr ids ->
    get_relationships userId memoryId c
    = (related_answer (record_of (Obj d)) (flat_map (owned userId c) ids), c)
    /\ (List.length (flat_map (owned userId c) ids) <= List.length ids)%nat.
Proof.
  intros c userId memoryId d ids Hup Hd Huser Hrel.
  split; [| apply length_owned].
  unfold get_relationships. rewrite lookup_runs, Hup, Hd.
  change (get (record_of (Obj d)) "user_id") with (get (Obj d) "user_id").
  change (get (record_of (Obj d)) "relationships")
    with (get (Obj d) "relationships").
  rewrite Huser, Hrel. cbn [strict_eq]. rewrite String.eqb_refl. cbn [negb iterate].
  rewrite related_runs, Hup. reflexivity.
Qed.

(** The loop keeps the memories of the user only, and leaves the
    collection as it was. *)
Lemma related_owned (userId : string) (ids : list value) :
  forall (acc : list value) (c : collection),
    Forall (fun m => get m "user_id" = Str userId) acc ->
    Forall (fun m => get m "user_id" = Str userId) (fst (related userId ids acc c))
    /\ snd (related userId ids acc c) = c.
Proof.
  induction ids as [| id rest IH]; intros acc c Hacc; cbn [related].
  - auto.
  - pose proof (Dimension.readonly_getMemoryEmbeddingById id c) as Hro.
    destruct (Service.getMemoryEmbeddingById id c) as [[m | e] c'] eqn:E;
      cbn [snd] in Hro; subst c'.
    + apply IH.
      destruct (strict_eq (get m "user_id") (Str userId)) eqn:Eu; [| exact Hacc].
      apply Forall_app. split; [exact Hacc |]. constructor; [| constructor].
      apply strict_eq_string. exact Eu.
    + apply IH. exact Hacc.
Qed.

(** What the route answers with a status. *)
Lemma answered (c c' : collection) (userId memoryId : string) (status : Z)
  (body : value) :
    get_relationships userId memoryId c = (Json status body, c') ->
    c' = c
    /\ (status = 200 \/ status = 403)
    /\ (status = 403 ->
        body = Obj [("success", Bool false);
                    ("error", Str "Access denied to this memory")])
    /\ (status = 200 ->
        exists memory memories,
          get body "data"
          = Obj [("source_memory", memory);
                 ("related_memories", Arr memories);
                 ("relationship_count", int (Z.of_nat (List.length memories)))]
          /\ get memory "user_id" = Str userId
          /\ Forall (fun m => get m "user_id" = Str userId) memories).
Proof.
  unfold get_relationships.
  pose proof (Dimension.readonly_getMemoryEmbeddingById (Str memoryId) c) as Hro.
  destruct (Service.getMemoryEmbeddingById (Str memoryId) c)
    as [[memory | e] c1] eqn:E;
    cbn [snd] in Hro; subst c1.
  - destruct (strict_eq (get memory "user_id") (Str userId)) eqn:Eu; cbn [negb].
    + destruct (iterate (get memory "relationships")) as [ids |]; [| discriminate].
      destruct (related_owned userId ids [] c (Forall_nil _)) as [Hall Hc].
      destruct (related userId ids [] c) as [memories c2].
      cbn [fst snd] in *. subst c2.
      unfold success.
      match goal with
      | |- (Json 200 (Obj [_; _; ("message", Str ?m)]), _) = _ -> _ => generalize m
      end.
      intros message H. injection H as <- <- <-.
      split; [reflexivity |]. split; [left; reflexivity |].
      split; [discriminate |]. intros _.
      exists memory, memories. split; [reflexivity |].
      split; [apply strict_eq_string; exact Eu | exact Hall].
    + unfold access_denied. intros H. injection H as <- <- <-.
      split; [reflexivity |]. split; [right; reflexivity |].
      split; [reflexivity | discriminate].
  - unfold Service.getMemoryEmbeddingById in E.
    destruct (EffectFacts.rethrow_message _ _ _ _ _ E) as [e0 ->].
    change (String.eqb (String.append "Failed to get memory embedding: " e0)
              not_found_message) with false.
    discriminate.
Qed.

(** X10.  Whatever the collection holds, when the route of the
    relationships answers with a status, that status is 200 or 403 and the
    collection is as it was.  A 403 says that access is denied and nothing
    else; in a 200 the source memory and every related memory carry the
    [user_id] of the request, and [relationship_count] is the number of
    related memories. *)
Theorem related_memories_belong_to_the_user :
  forall (c c' : collection) (userId memoryId : string) (status : Z) (body : value),
    get_relationships userId memoryId c = (Json status body, c') ->
    c' = c
    /\ (status = 200 \/ status = 403)
    /\ (status = 403 ->
        body = Obj [("success", Bool false);
                    ("error", Str "Access denied to this memory")])
    /\ (status = 200 ->
        exists memory memories,
          get body "data"
          = Obj [("source_memory", memory);
                 ("related_memories", Arr memories);
                 ("relationship_count", int (Z.of_nat (List.length memories)))]
          /\ get memory "user_id" = Str userId
          /\ Forall (fun m => get m "user_id" = Str userId) memories).
Proof. exact answered. Qed.

(** X11.  On a reachable collection the route of the relationships answers
    403 for a stored memory whose [user_id] is not the one of the request,
    before any related memory is looked up; for an identifier that names no
    stored memory it hands the error
    [Failed to get memory embedding: Memory embedding not found] to [next],
    the message it tests for being another; and on no collection does it
    answer 404. *)
Theorem relationships_of_a_foreign_or_missing_memory :
  forall (c : collection) (userId memoryId : string),
    (outage c = None ->
     forall d,
       stored (Str memoryId) c = Some d ->
       get (Obj d) "user_id" <> Str userId ->
       get_relationships userId memoryId c = (access_denied, c))
    /\ (outage c = None ->
        stored (Str memoryId) c = None ->
        get_relationships userId memoryId c
        = (Next "Failed to get memory embedding: Memory embedding not found", c))
    /\ status_of (fst (get_relationships userId memoryId c)) <> Some 404.
Proof.
  intros c userId memoryId. split; [| split].
  - intros Hup d Hd Huser. unfold get_relationships.
    rewrite lookup_runs, Hup, Hd.
    change (get (record_of (Obj d)) "user_id") with (get (Obj d) "user_id").
    destruct (strict_eq (get (Obj d) "user_id") (Str userId)) eqn:E;
      [| reflexivity].
    apply strict_eq_string in E. contradiction.
  - intros Hup Hd. unfold get_relationships.
    rewrite lookup_runs, Hup, Hd. reflexivity.
  - destruct (get_relationships userId memoryId c) as [[status body | m] c'] eqn:E;
      cbn [fst status_of]; [| discriminate].
    destruct (answered c c' userId memoryId status body E) as (_ & [-> | ->] & _);
      discriminate.
Qed.

End Relationships.

(** ** The rows of a list *)

Module Rows.
Import Js Effect Store Http Routes Terms.
Import NumberFacts ObjectFacts.

(** A query that answers, answers the page of its filter and order, and
    the summary of that page. *)
Lemma query_page (c : collection) (queryOptions answer : value) :
  fst (Service.queryMemoryEmbeddings queryOptions c) = Ok answer ->
  exists k n,
    count_of (query_offset queryOptions) = Some k
    /\ count_of (query_limit queryOptions) = Some n
    /\ answer
       = Obj [("results", Arr (map query_row (map Obj (page c queryOptions k n))));
              ("pagination",
                Service.pagination (query_offset queryOptions)
                  (query_limit queryOptions)
                  (int (total_matching queryOptions c)))].
Proof.
  unfold Service.queryMemoryEmbeddings, Service.initialize, Service.reading,
    connect, find_page, countDocuments, rethrow, bind, call, ret, throw.
  cbv beta. destruct (outage c) eqn:Hup; cbv beta iota; [discriminate |].
  destruct (nullish _); cbv beta iota; [discriminate |].
  repeat (rewrite Hup; cbv beta iota).
  fold (query_offset queryOptions). fold (query_limit queryOptions).
  destruct (count_of (query_offset queryOptions)) as [k |]; cbv beta iota;
    [| destruct (count_of (query_limit queryOptions)); discriminate].
  destruct (count_of (query_limit queryOptions)) as [n |]; cbv beta iota;
    [| discriminate].
  repeat (rewrite Hup; cbv beta iota). cbn [fst].
  intros H. injection H as <-. exists k, n. repeat split.
Qed.

Lemma page_matches c queryOptions k n d :
  In d (page c queryOptions k n) ->
  In d (docs c) /\ matches (query_filter queryOptions) d = true.
Proof.
  unfold page. intros H.
  apply SortFacts.In_limited, Shape.In_skipn, SortFacts.In_sort, filter_In in H.
  exact H.
Qed.

Lemma lookup_In (k : string) (v : value) (l : list (string * value)) :
  lookup k l = Some v -> In (k, v) l.
Proof.
  induction l as [| [k0 v0] r IH]; simpl; [discriminate |].
  destruct (String.eqb_spec k k0) as [-> | Hne].
  - intros H. injection H as ->. left. reflexivity.
  - intros H. right. apply IH, H.
Qed.

(** A document that matches a filter satisfies each of its conditions. *)
Lemma matches_field (q : list (string * value)) (d : document) (k : string)
  (v : value) :
  matches (Obj q) d = true -> lookup k q = Some v ->
  satisfies (get (Obj d) k) v = true.
Proof.
  unfold matches. intros H Hk. rewrite forallb_forall in H.
  apply (H (k, v)). apply lookup_In, Hk.
Qed.

Lemma eqb_string (v : value) (s : string) : eqb v (Str s) = true -> v = Str s.
Proof.
  destruct v; simpl; try discriminate.
  intros H. apply String.eqb_eq in H. congruence.
Qed.

Lemma contains_string (field : value) (s : string) :
  contains field (Str s) = true -> names field (Str s).
Proof.
  unfold contains, names. intros H. apply orb_true_iff in H as [H | H].
  - left. apply eqb_string, H.
  - right. destruct field; try discriminate. exists items. split; [reflexivity |].
    apply existsb_exists in H as [e [He Heq]]. apply eqb_string in Heq.
    subst e. exact He.
Qed.

(** The conditions of the filter that is built, by key. *)
Lemma build_query_user (filters : value) (w : bool) :
  lookup "user_id" (Service.build_query filters w)
  = if truthy (get filters "user_id") then Some (get filters "user_id") else None.
Proof.
  unfold Service.build_query. rewrite !Update.lookup_set_if.
  cbn [String.eqb Ascii.eqb Bool.eqb]. rewrite !andb_false_r, andb_true_r.
  reflexivity.
Qed.

Lemma build_query_type (filters : value) (w : bool) :
  lookup "memory_type" (Service.build_query filters w)
  = if truthy (get filters "memory_type")
    then Some (get filters "memory_type") else None.
Proof.
  unfold Service.build_query. rewrite !Update.lookup_set_if.
  cbn [String.eqb Ascii.eqb Bool.eqb]. rewrite !andb_false_r, andb_true_r.
  reflexivity.
Qed.

Lemma build_query_importance (filters : value) (w : bool) :
  lookup "importance_score" (Service.build_query filters w)
  = if truthy (get filters "min_importance_score")
    then Some (Service.at_least (get filters "min_importance_score")) else None.
Proof.
  unfold Service.build_query. rewrite !Update.lookup_set_if.
  cbn [String.eqb Ascii.eqb Bool.eqb]. rewrite !andb_false_r, andb_true_r.
  reflexivity.
Qed.

Lemma truthy_string (s : string) : s <> "" -> truthy (Str s) = true.
Proof.
  intros H. simpl. destruct (String.eqb_spec s ""); [contradiction | reflexivity].
Qed.

Lemma scoped_rows (c : collection) (queryOptions : value) (k n : nat) (u : string) :
  get (default (Obj []) queryOptions) "user_id" = Str u -> u <> "" ->
  Forall (fun row => names (get row "user_id") (Str u))
         (map query_row (map Obj (page c queryOptions k n))).
Proof.
  intros Hu Hne. apply Forall_forall. intros row Hrow.
  apply in_map_iff in Hrow as [r [<- Hr]]. apply in_map_iff in Hr as [d [<- Hd]].
  apply page_matches in Hd as [_ Hm].
  change (get (query_row (Obj d)) "user_id") with (get (Obj d) "user_id").
  apply contains_string.
  pose proof (matches_field _ d "user_id" (Str u) Hm) as H.
  rewrite build_query_user, Hu, (truthy_string u Hne) in H.
  apply (H eq_refl).
Qed.

Lemma respond_json run reply c status body :
  fst (respond run reply c) = Json status body ->
  exists data, fst (run c) = Ok data /\ reply data = Json status body.
Proof.
  unfold respond. destruct (run c) as [[data | m] c']; cbn [fst]; [| discriminate].
  intros H. exists data. auto.
Qed.

(** X12.  A list query made for a user answers rows of that user only:
    whatever the collection and the other options, every row names the user
    under [user_id] (as the field itself, or as an item of it when the field
    is a list).  So it is of the three routes that list the memories of a
    user, all of them, the important ones and the recent ones, which answer
    with no status other than 200. *)
Theorem lists_are_scoped_to_the_user :
  forall (c : collection) (userId : string),
    userId <> "" ->
    (forall queryOptions answer,
        get (default (Obj []) queryOptions) "user_id" = Str userId ->
        fst (Service.queryMemoryEmbeddings queryOptions c) = Ok answer ->
        exists rows,
          get answer "results" = Arr rows
          /\ Forall (fun row => names (get row "user_id") (Str userId)) rows)
    /\ (forall query status body,
          fst (get_user userId query c) = Json status body
          \/ fst (get_user_important userId query c) = Json status body
          \/ fst (get_user_recent userId query c) = Json status body ->
          status = 200
          /\ exists rows,
               get (get body "data") "results" = Arr rows
               /\ Forall (fun row => names (get row "user_id") (Str userId)) rows).
Proof.
  intros c userId Hne.
  assert (Hservice : forall queryOptions answer,
        get (default (Obj []) queryOptions) "user_id" = Str userId ->
        fst (Service.queryMemoryEmbeddings queryOptions c) = Ok answer ->
        exists rows,
          get answer "results" = Arr rows
          /\ Forall (fun row => names (get row "user_id") (Str userId)) rows).
  { intros queryOptions answer Hu H.
    apply query_page in H as (k & n & _ & _ & ->).
    eexists. split; [reflexivity |]. apply scoped_rows; assumption. }
  split; [exact Hservice |].
  intros query status body [H | [H | H]];
    apply respond_json in H as (data & Hrun & Hreply);
    unfold success in Hreply; injection Hreply as <- <-;
    (split; [reflexivity |]);
    cbn [get lookup String.eqb Ascii.eqb Bool.eqb];
    (eapply Hservice; [| exact Hrun]); reflexivity.
Qed.

Lemma at_least_number (field : value) (t : number) :
  satisfies field (Service.at_least (Num t)) = true ->
  exists n, field = Num n /\ num_lt n t = false.
Proof.
  unfold Service.at_least, satisfies.
  cbn [forallb operator String.eqb Ascii.eqb Bool.eqb].
  rewrite andb_true_r. intros H. apply andb_true_iff in H as [Hc Hl].
  destruct field; try discriminate. exists n. split; [reflexivity |].
  unfold leb in Hl. apply negb_true_iff in Hl. exact Hl.
Qed.


(** X14.  The routes of the important and of the recent memories pass no
    offset to the query: with a limit that reads as a positive integer they
    answer 200 with the first page, [current_page] being 1 and
    [has_previous] false whatever the request, and at most [limit] rows;
    the memories after the first page cannot be asked for. *)
Theorem important_and_recent_answer_the_first_page :
  forall (c : collection) (userId : string) (query : value) (limit : Z),
    outage c = None ->
    parse_int (default (int 10) (get query "limit")) = int limit ->
    0 < limit ->
    (exists rows summary message,
        get_user_important userId query c
        = (success 200 (Obj [("results", Arr rows); ("pagination", summary)])
             message, c)
        /\ get summary "current_page" = int 1
        /\ get summary "has_previous" = Bool false
        /\ Z.of_nat (List.length rows) <= limit)
    /\ (exists rows summary message,
          get_user_recent userId query c
          = (success 200 (Obj [("results", Arr rows); ("pagination", summary)])
               message, c)
          /\ get summary "current_page" = int 1
          /\ get summary "has_previous" = Bool false
          /\ Z.of_nat (List.length rows) <= limit).
Proof.
  intros c userId query limit Hup Hl Hpos.
  split.
  - unfold get_user_important, respond.
    match goal with |- context [Service.queryMemoryEmbeddings ?o c] =>
      destruct (Pagination.query_runs c o 0 limit Hup ltac:(discriminate) Hl eq_refl
                  ltac:(lia) ltac:(lia)) as [rows [Hrun Hlen]]
    end.
    rewrite Hrun. exists rows. eexists. eexists. split; [reflexivity |].
    rewrite Pagination.pagination_of_integers by lia.
    repeat split; try reflexivity.
    apply Hlen, Hpos.
  - unfold get_user_recent, respond.
    match goal with |- context [Service.queryMemoryEmbeddings ?o c] =>
      destruct (Pagination.query_runs c o 0 limit Hup ltac:(discriminate) Hl eq_refl
                  ltac:(lia) ltac:(lia)) as [rows [Hrun Hlen]]
    end.
    rewrite Hrun. exists rows. eexists. eexists. split; [reflexivity |].
    rewrite Pagination.pagination_of_integers by lia.
    repeat split; try reflexivity.
    apply Hlen, Hpos.
Qed.

Lemma filter_nil {A} (p : A -> bool) (l : list A) :
  Forall (fun x => p x = false) l -> List.filter p l = [].
Proof.
  induction 1 as [| x r Hx Hr IH]; simpl; [reflexivity |]. rewrite Hx. exact IH.
Qed.

(** X15.  The route of the memories of a type takes any text for the type:
    it is not held to the four types of the schema.  For a type that no
    stored document has, and a [limit] and an [offset] that [parseInt] reads
    as a positive and a non-negative integer, within the 53 bits of a
    double, it answers 200 with no rows, a total of 0, 0 pages and no next
    page; [current_page] is [floor(offset / limit) + 1] and [has_previous] is
    [offset > 0], as for any other page. *)
Theorem any_type_is_taken :
  forall (c : collection) (memoryType : string) (query : value) (limit offset : Z),
    outage c = None ->
    memoryType <> "" ->
    Forall (fun d => ~ names (get (Obj d) "memory_type") (Str memoryType)) (docs c) ->
    parse_int (default (int 20) (get query "limit")) = int limit ->
    parse_int (default (int 0) (get query "offset")) = int offset ->
    0 < limit -> 0 <= offset -> offset + limit <= max_safe_integer ->
    get_type memoryType query c
    = (success 200
         (Obj [("results", Arr []);
               ("pagination",
                 Obj [("total_count", int 0);
                      ("current_page", int (offset / limit + 1));
                      ("total_pages", int 0);
                      ("has_next", Bool false);
                      ("has_previous", Bool (0 <? offset))])])
         (String.append "Found 0 " (String.append memoryType " memory embeddings")),
       c).
Proof.
  intros c memoryType query limit offset Hup Hne Hnone Hlimit Hoffset Hpos Hoff _.
  set (options := Obj [("memory_type", Str memoryType);
                       ("limit", int limit);
                       ("offset", int offset);
                       ("sort_by", default (Str "importance_score") (get query "sort_by"));
                       ("sort_order", default (Str "desc") (get query "sort_order"))]).
  assert (Hfilter : List.filter (matches (query_filter options)) (docs c) = []).
  { apply filter_nil. eapply Forall_impl; [| exact Hnone]. intros d Hd.
    destruct (matches (query_filter options) d) eqn:Hm; [| reflexivity].
    exfalso. apply Hd. apply contains_string.
    apply (matches_field _ d "memory_type" (Str memoryType) Hm).
    rewrite build_query_type.
    change (get (default (Obj []) options) "memory_type") with (Str memoryType).
    rewrite (truthy_string _ Hne). reflexivity. }
  unfold get_type, respond. rewrite Hlimit, Hoffset.
  change (Service.queryMemoryEmbeddings _ c)
    with (Service.queryMemoryEmbeddings options c).
  rewrite (QueryRoute.query_counts c options (Z.to_nat offset) (Z.to_nat limit) Hup
             ltac:(discriminate)
             (count_of_int offset Hoff) (count_of_int limit ltac:(lia))).
  unfold page, total_matching. fold (query_filter options). rewrite Hfilter.
  change (query_offset options) with (int offset).
  change (query_limit options) with (int limit).
  change (sort _ []) with (@nil document). rewrite skipn_nil.
  replace (limited (Z.to_nat limit) (@nil document)) with (@nil document)
    by (unfold limited; destruct (Z.to_nat limit); [reflexivity | rewrite firstn_nil; reflexivity]).
  cbn [map List.length Z.of_nat].
  rewrite Pagination.pagination_of_integers by lia.
  replace (offset + limit <? 0) with false by (symmetry; apply Z.ltb_ge; lia).
  reflexivity.
Qed.

End Rows.

(** ** The order of the rows *)

Module Order.
Import Js Effect Store Http Routes Terms.

Lemma ascii_compare_eq (a b : ascii) : Ascii.compare a b = Eq -> a = b.
Proof.
  unfold Ascii.compare. intros H. apply N.compare_eq in H.
  rewrite <- (ascii_N_embedding a), <- (ascii_N_embedding b), H. reflexivity.
Qed.

Lemma ascii_compare_lt_trans (a b c : ascii) :
  Ascii.compare a b = Lt -> Ascii.compare b c <> Gt -> Ascii.compare a c = Lt.
Proof.
  unfold Ascii.compare. rewrite N.compare_le_iff, !N.compare_lt_iff.
  apply N.lt_le_trans.
Qed.

Lemma string_compare_trans (s1 : string) :
  forall s2 s3,
    String.compare s1 s2 <> Gt -> String.compare s2 s3 <> Gt ->
    String.compare s1 s3 <> Gt.
Proof.
  induction s1 as [| a r1 IH]; intros [| b r2] [| c r3]; simpl; try congruence.
  destruct (Ascii.compare a b) eqn:Eab; try congruence.
  - apply ascii_compare_eq in Eab. subst b.
    destruct (Ascii.compare a c); try congruence. apply IH.
  - intros _ H.
    assert (Hbc : Ascii.compare b c <> Gt)
      by (destruct (Ascii.compare b c); congruence).
    rewrite (ascii_compare_lt_trans a b c Eab Hbc). discriminate.
Qed.

Lemma string_leb_trans (s1 s2 s3 : string) :
  String.leb s1 s2 = true -> String.leb s2 s3 = true -> String.leb s1 s3 = true.
Proof.
  unfold String.leb. intros H1 H2.
  pose proof (string_compare_trans s1 s2 s3) as H.
  destruct (String.compare s1 s2); try discriminate;
    destruct (String.compare s2 s3); try discriminate;
    destruct (String.compare s1 s3); try reflexivity;
    exfalso; apply H; congruence.
Qed.

Lemma Qle_bool_total (x y : Q) : Qle_bool x y = true \/ Qle_bool y x = true.
Proof.
  destruct (Qle_bool x y) eqn:E; [left; reflexivity | right].
  apply Qle_bool_iff. apply Qlt_le_weak, Qnot_le_lt.
  intros H. apply Qle_bool_iff in H. congruence.
Qed.

(** The order of the store compares any two values. *)
Lemma leb_total (a b : value) : leb a b = true \/ leb b a = true.
Proof.
  destruct a, b; simpl; try (left; reflexivity); try (right; reflexivity).
  - destruct n as [x | | |], n0 as [y | | |]; simpl; auto.
    rewrite !negb_involutive. destruct (Qle_bool_total x y); auto.
  - apply String.leb_total.
Qed.

Lemma num_leb_trans (x y z : number) :
  y <> NaN ->
  num_lt y x = false -> num_lt z y = false -> num_lt z x = false.
Proof.
  intros Hy. destruct x as [x | | |], y as [y | | |], z as [z | | |]; simpl;
    try congruence; try reflexivity.
  rewrite !negb_false_iff, !Qle_bool_iff. intros H1 H2.
  eapply Qle_trans; eassumption.
Qed.

(** It is transitive through any value but [NaN], which is neither below
    nor above a number. *)
Lemma leb_trans (a b c : value) :
  proper b -> leb a b = true -> leb b c = true -> leb a c = true.
Proof.
  unfold proper. intros Hb.
  destruct a, b, c; simpl; try congruence; try reflexivity;
    try (intros H1 H2; discriminate).
  - rewrite !negb_true_iff. apply num_leb_trans. congruence.
  - apply string_leb_trans.
Qed.

Section SortedOn.
Variable A : Type.
Variable le : A -> A -> bool.
Variable P : A -> Prop.
Hypothesis le_total : forall a b, le a b = true \/ le b a = true.
Hypothesis le_trans :
  forall a b c, P b -> le a b = true -> le b c = true -> le a c = true.

Let R (a b : A) : Prop := le a b = true.

Lemma insert_sorted_on (x : A) (l : list A) :
  Forall P l -> StronglySorted R l -> StronglySorted R (insert le x l).
Proof.
  intros HP H. induction H as [| y r Hr IH Hy]; simpl.
  - repeat constructor.
  - inversion HP as [| ? ? Py Pr]; subst.
    destruct (le x y) eqn:E.
    + constructor; [constructor; assumption |].
      constructor; [exact E |].
      apply Forall_forall. intros z Hz.
      rewrite Forall_forall in Hy. exact (le_trans _ _ _ Py E (Hy z Hz)).
    + constructor; [apply IH, Pr |].
      apply Forall_forall. intros z Hz.
      apply SortFacts.In_insert in Hz as [-> | Hz].
      * destruct (le_total x y) as [H | H]; [congruence | exact H].
      * rewrite Forall_forall in Hy. apply Hy, Hz.
Qed.

Lemma Forall_insert (x : A) (l : list A) :
  P x -> Forall P l -> Forall P (insert le x l).
Proof.
  intros Hx Hl. apply Forall_forall. intros z Hz.
  apply SortFacts.In_insert in Hz as [-> | Hz]; [exact Hx |].
  rewrite Forall_forall in Hl. apply Hl, Hz.
Qed.

Lemma sort_sorted_on (l : list A) :
  Forall P l -> StronglySorted R (sort le l) /\ Forall P (sort le l).
Proof.
  induction 1 as [| x r Hx Hr [IH1 IH2]]; simpl; [split; constructor |].
  split; [apply insert_sorted_on; assumption | apply Forall_insert; assumption].
Qed.

Lemma skipn_sorted (n : nat) (l : list A) :
  StronglySorted R l -> StronglySorted R (skipn n l).
Proof.
  intros H. revert n. induction H as [| x r Hr IH Hx]; intros [| n]; simpl;
    try constructor; try assumption. apply IH.
Qed.
End SortedOn.

Lemma map_sorted {A B} (f : A -> B) (R : A -> A -> Prop) (R' : B -> B -> Prop)
  (l : list A) :
  (forall a b, R a b -> R' (f a) (f b)) ->
  StronglySorted R l -> StronglySorted R' (map f l).
Proof.
  intros Hf H. induction H as [| x r Hr IH Hx]; simpl; constructor; [exact IH |].
  apply Forall_forall. intros y Hy. apply in_map_iff in Hy as [a [<- Ha]].
  rewrite Forall_forall in Hx. apply Hf, Hx, Ha.
Qed.

(** A row carries each sort key as the document has it. *)
Lemma query_row_keeps (key : string) (result : value) :
  In key Validation.sort_keys -> get (query_row result) key = get result key.
Proof.
  unfold Validation.sort_keys. simpl.
  intros H. repeat (destruct H as [<- | H]; [reflexivity |]). contradiction.
Qed.

(** X16.  The rows of a list query come in the order asked for: by the sort
    key, one of the six of the query schema, ascending when [sort_order] is
    ['asc'] and descending for any other value of it, provided no stored
    document has [NaN] under the key. *)
Theorem rows_come_in_the_order_asked_for :
  forall (c : collection) (queryOptions answer : value) (key : string),
    fst (Service.queryMemoryEmbeddings queryOptions c) = Ok answer ->
    default (Str "created_at") (get (default (Obj []) queryOptions) "sort_by")
    = Str key ->
    In key Validation.sort_keys ->
    Forall (fun d => proper (get (Obj d) key)) (docs c) ->
    exists rows,
      get answer "results" = Arr rows
      /\ in_order key
           (strict_eq (default (Str "desc")
                         (get (default (Obj []) queryOptions) "sort_order"))
                      (Str "asc"))
           rows.
Proof.
  intros c queryOptions answer key Hrun Hkey Hin Hproper.
  apply Rows.query_page in Hrun as (k & n & _ & _ & ->).
  eexists. split; [reflexivity |].
  unfold in_order, page.
  set (ascending := strict_eq _ (Str "asc")).
  assert (Horder : query_order queryOptions
                   = Obj [(key, if ascending then int 1 else int (-1))]).
  { unfold query_order. cbv zeta. rewrite Hkey. reflexivity. }
  rewrite Horder.
  set (le := by_field (Obj [(key, if ascending then int 1 else int (-1))])).
  assert (Hle : forall a b,
             le a b = if ascending then leb (get (Obj a) key) (get (Obj b) key)
                      else leb (get (Obj b) key) (get (Obj a) key)).
  { intros a b. unfold le, by_field. destruct ascending; reflexivity. }
  set (P := fun d : document => proper (get (Obj d) key)).
  assert (Hfiltered :
            Forall P (List.filter (matches (query_filter queryOptions)) (docs c))).
  { apply Forall_forall. intros d Hd. apply filter_In in Hd as [Hd _].
    rewrite Forall_forall in Hproper. apply Hproper, Hd. }
  assert (Htotal : forall a b, le a b = true \/ le b a = true).
  { intros a b. rewrite !Hle. destruct ascending; apply leb_total. }
  assert (Htrans :
            forall a b c, P b -> le a b = true -> le b c = true -> le a c = true).
  { intros a b c0 Pb. rewrite !Hle. destruct ascending.
    - apply leb_trans, Pb.
    - intros H1 H2. eapply leb_trans; [exact Pb | exact H2 | exact H1]. }
  destruct (sort_sorted_on _ le P Htotal Htrans _ Hfiltered) as [Hsorted _].
  apply (skipn_sorted _ le k) in Hsorted.
  apply (SortFacts.limited_sorted _ le n) in Hsorted.
  rewrite map_map.
  eapply map_sorted; [| exact Hsorted].
  intros a b Hab. cbv beta in Hab. rewrite Hle in Hab.
  rewrite !(query_row_keeps key _ Hin). exact Hab.
Qed.

End Order.

(** ** Creation, read back and undone *)

Module RoundTrip.
Import Js Effect Store Http Routes Terms.
Import NumberFacts ObjectFacts.

Lemma matches_id (id : string) (d : document) :
  matches (by_id id) d = contains (id_of d) (Str id).
Proof. unfold matches, by_id. cbn [forallb fst snd satisfies]. apply andb_true_r. Qed.

Lemma no_document_no_duplicate (id : string) (c : collection) :
  no_document id c ->
  existsb (fun d => eqb (id_of d) (Str id)) (docs c) = false.
Proof.
  unfold no_document. intros H.
  destruct (existsb _ (docs c)) eqn:E; [| reflexivity].
  apply existsb_exists in E as [d [Hd Heq]].
  pose proof (find_none _ _ H d Hd) as Hm. rewrite matches_id in Hm.
  unfold contains in Hm. rewrite Heq in Hm. discriminate.
Qed.

Lemma find_last {A} (p : A -> bool) (l : list A) (x : A) :
  find p l = None -> p x = true -> find p (l ++ [x]) = Some x.
Proof.
  induction l as [| y r IH]; simpl; intros H Hx.
  - rewrite Hx. reflexivity.
  - destruct (p y); [discriminate | apply IH; assumption].
Qed.

Lemma remove_last (p : document -> bool) (l : list document) (x : document) :
  find p l = None -> p x = true -> remove_first p (l ++ [x]) = l.
Proof.
  induction l as [| y r IH]; simpl; intros H Hx.
  - rewrite Hx. reflexivity.
  - destruct (p y); [discriminate |]. rewrite IH; auto.
Qed.

Lemma matches_new_document (st : Service.stamps) (body : value) :
  matches (by_id (Service.uuid st)) (Service.new_document st body) = true.
Proof.
  rewrite matches_id. unfold contains.
  change (id_of (Service.new_document st body)) with (Str (Service.uuid st)).
  cbn [eqb]. rewrite String.eqb_refl. reflexivity.
Qed.

Lemma with_docs_same (c : collection) : with_docs c (docs c) = c.
Proof. destruct c. reflexivity. Qed.

Lemma create_runs (st : Service.stamps) (body : value) (c : collection) :
  outage c = None -> nullish body = false -> no_document (Service.uuid st) c ->
  Service.createMemoryEmbedding st body c
  = (Ok (Obj (assign "insertedId" (Str (Service.uuid st))
                (assign "feature_vector" (get body "feature_vector")
                   (Service.spread (Service.new_document st body)
                      [("id", Str (Service.uuid st))])))),
     with_docs c (docs c ++ [Service.new_document st body])).
Proof.
  intros Hup Hbody Hnew. apply no_document_no_duplicate in Hnew.
  unfold Service.createMemoryEmbedding, Service.initialize, Service.reading,
    connect, insertOne, rethrow, bind, call, ret.
  repeat first [rewrite Hup | rewrite Hbody | progress cbv beta iota].
  change (id_of (Service.new_document st body)) with (Str (Service.uuid st)).
  rewrite Hnew. reflexivity.
Qed.

Lemma valid_body_is_an_object (schema : list (string * Joi.schema)) (o : Joi.opts) (body : value) :
  Joi.validate (Joi.Object (Some schema) o) body = [] -> body <> Undefined ->
  nullish body = false.
Proof.
  intros Hvalid Hbody.
  apply JoiFacts.valid_object in Hvalid as [-> | [props [-> _]]];
    [contradiction | reflexivity].
Qed.

(** X17.  A valid create request whose identifier is new is answered 201,
    and a lookup of the identifier then answers 200 with the record: the
    identifier drawn, the nine required fields as the request gave them
    (nothing is converted), the three optional lists and maps as given or
    empty, [access_frequency] 0 when none was given, and the three times of
    the clock.  The record of the 201 agrees with it on every field, and
    carries the stored keys [_id] and [$vector] besides. *)
Theorem a_created_memory_is_read_back :
  forall (st : Service.stamps) (body : value) (c : collection),
    Joi.validate Validation.memoryEmbeddingSchema body = [] ->
    body <> Undefined ->
    outage c = None ->
    no_document (Service.uuid st) c ->
    exists created record c',
      post_create st body c
      = (success 201 created "Memory embedding created successfully", c')
      /\ get_by_id (Service.uuid st) c'
         = (Json 200 (Obj [("success", Bool true); ("data", record)]), c')
      /\ get record "id" = Str (Service.uuid st)
      /\ (forall f, In f given -> get record f = get body f)
      /\ get record "relationships" = default (Arr []) (get body "relationships")
      /\ get record "context_needed" = default (Obj []) (get body "context_needed")
      /\ get record "retrieval_triggers"
         = default (Arr []) (get body "retrieval_triggers")
      /\ (get body "access_frequency" = Undefined ->
          get record "access_frequency" = int 0)
      /\ get record "created_at" = Str (toISOString (Service.at_created st))
      /\ get record "last_accessed" = Str (toISOString (Service.at_last_accessed st))
      /\ get record "updated_at" = Str (toISOString (Service.at_updated st))
      /\ (forall f, has_key f record = true -> get created f = get record f)
      /\ get created "_id" = Str (Service.uuid st)
      /\ get created "$vector" = get body "feature_vector".
Proof.
  intros st body c Hvalid Hbody Hup Hnew.
  pose proof (valid_body_is_an_object _ _ _ Hvalid Hbody) as Hobj.
  eexists. exists (record_of (Obj (Service.new_document st body))). eexists.
  split.
  { unfold post_create, guarded, Validation.validate. rewrite Hvalid.
    unfold respond. rewrite (create_runs st body c Hup Hobj Hnew). reflexivity. }
  split.
  { unfold get_by_id, respond_or_404. rewrite Relationships.lookup_runs. cbn [outage with_docs].
    rewrite Hup. unfold stored. cbn [docs with_docs].
    fold (by_id (Service.uuid st)).
    rewrite (find_last _ _ _ Hnew (matches_new_document st body)). reflexivity. }
  split; [reflexivity |].
  split.
  { intros f Hf. unfold given in Hf. simpl in Hf.
    repeat (destruct Hf as [<- | Hf]; [reflexivity |]). contradiction. }
  (* the optional fields *)
  assert (Hopt : (get body "relationships" = Undefined \/ exists l, get body "relationships" = Arr l)
                 /\ (get body "context_needed" = Undefined \/ exists p, get body "context_needed" = Obj p)
                 /\ (get body "retrieval_triggers" = Undefined \/ exists l, get body "retrieval_triggers" = Arr l)).
  { unfold Joi.validate in Hvalid.
    apply JoiFacts.valid_object in Hvalid as [-> | [props [-> H]]]; [contradiction |].
    Update.children H.
    apply JoiFacts.valid_array in Hchild9.
    apply JoiFacts.valid_any_object in Hchild10.
    apply JoiFacts.valid_array in Hchild11.
    repeat split.
    - destruct Hchild9 as [E | [l [E _]]]; eauto.
    - exact Hchild10.
    - destruct Hchild11 as [E | [l [E _]]]; eauto. }
  destruct Hopt as (Hrel & Hctx & Htrig).
  split.
  { change (get (record_of (Obj (Service.new_document st body))) "relationships")
      with (or_else (get body "relationships") (Arr [])).
    destruct Hrel as [-> | [l ->]]; reflexivity. }
  split.
  { change (get (record_of (Obj (Service.new_document st body))) "context_needed")
      with (or_else (get body "context_needed") (Obj [])).
    destruct Hctx as [-> | [l ->]]; reflexivity. }
  split.
  { change (get (record_of (Obj (Service.new_document st body))) "retrieval_triggers")
      with (or_else (get body "retrieval_triggers") (Arr [])).
    destruct Htrig as [-> | [l ->]]; reflexivity. }
  split.
  { intros E.
    change (get (record_of (Obj (Service.new_document st body))) "access_frequency")
      with (or_else (get body "access_frequency") (int 0)).
    rewrite E. reflexivity. }
  split; [reflexivity |]. split; [reflexivity |]. split; [reflexivity |].
  split.
  { intros f Hf. unfold has_key, record_of in Hf.
    cbn [lookup] in Hf.
    repeat match type of Hf with
           | (match (if String.eqb f ?k then _ else _) with _ => _ end) = true =>
               destruct (String.eqb_spec f k); [subst f; reflexivity |]
           end.
    discriminate. }
  split; reflexivity.
Qed.

Lemma delete_runs (id : string) (c : collection) (l : list document) (x : document) :
  outage c = None -> find (matches (by_id id)) l = None -> matches (by_id id) x = true ->
  Service.deleteMemoryEmbedding (Str id) (with_docs c (l ++ [x]))
  = (Ok (Obj [("id", Str id); ("deleted", Bool true); ("deletedCount", int 1)]),
     with_docs c l).
Proof.
  intros Hup Hl Hx.
  unfold Service.deleteMemoryEmbedding, Service.initialize, connect, deleteOne,
    rethrow, bind, call, ret.
  repeat first [rewrite Hup | progress cbv beta iota
                | progress cbn [outage with_docs docs]].
  fold (by_id id). rewrite (find_last _ _ _ Hl Hx). cbv beta iota.
  rewrite (remove_last _ _ _ Hl Hx). reflexivity.
Qed.

(** X18.  Deleting a memory that was just created answers 200 with
    [deleted: true] and a count of 1, and leaves the collection exactly as
    it was before the creation. *)
Theorem a_created_memory_is_deleted_whole :
  forall (st : Service.stamps) (body : value) (c : collection),
    Joi.validate Validation.memoryEmbeddingSchema body = [] ->
    body <> Undefined ->
    outage c = None ->
    no_document (Service.uuid st) c ->
    delete_by_id (Service.uuid st) (snd (post_create st body c))
    = (success 200
         (Obj [("id", Str (Service.uuid st));
               ("deleted", Bool true);
               ("deletedCount", int 1)])
         "Memory embedding deleted successfully", c).
Proof.
  intros st body c Hvalid Hbody Hup Hnew.
  pose proof (valid_body_is_an_object _ _ _ Hvalid Hbody) as Hobj.
  unfold post_create, guarded, Validation.validate. rewrite Hvalid.
  rewrite Dimension.snd_respond, (create_runs st body c Hup Hobj Hnew). cbn [snd].
  unfold delete_by_id, respond_or_404.
  rewrite (delete_runs _ c _ _ Hup Hnew (matches_new_document st body)).
  rewrite with_docs_same. reflexivity.
Qed.

Lemma insertEach_runs (l : list document) :
  forall c, outage c = None -> insertable l (docs c) = true ->
  insertEach l c = (Ok (map id_of l), with_docs c (docs c ++ l)).
Proof.
  induction l as [| d r IH]; intros c Hup Hins.
  - cbn [insertEach map]. unfold ret. rewrite app_nil_r, with_docs_same. reflexivity.
  - cbn [insertable] in Hins. apply andb_true_iff in Hins as [Hd Hr].
    apply negb_true_iff in Hd.
    cbn [insertEach]. unfold bind at 1. unfold insertOne, call.
    rewrite Hup, Hd. cbv beta iota.
    unfold bind at 1. rewrite IH; [| exact Hup | exact Hr].
    unfold ret. cbn [docs with_docs map]. rewrite <- app_assoc. reflexivity.
Qed.

Lemma records_are_objects (l : list value) :
  Forall valid_record l -> existsb nullish l = false.
Proof.
  induction 1 as [| e r [He Hv] Hr IH]; [reflexivity |].
  cbn [existsb]. rewrite IH, orb_false_r.
  unfold Joi.validate in Hv.
  apply JoiFacts.valid_object in Hv as [-> | [props [-> _]]]; [contradiction | reflexivity].
Qed.

Lemma length_batch_documents st (l : list value) :
  forall i, List.length (Service.batch_documents st i l) = List.length l.
Proof.
  induction l as [| e r IH]; intros i; cbn [Service.batch_documents List.length];
    [reflexivity | rewrite IH; reflexivity].
Qed.

(** X19.  An accepted batch whose identifiers are new and distinct is
    answered 201: every record is stored, after the documents already there
    and in the order of the request, [inserted_count] is the number of
    records, between 1 and 50, and [inserted_ids] are their identifiers. *)
Theorem a_batch_is_stored_in_order :
  forall (st : nat -> Service.stamps) (body : value) (l : list value) (c : collection),
    Validation.validate Validation.batchSchema body = None ->
    get body "embeddings" = Arr l ->
    outage c = None ->
    insertable (Service.batch_documents st O l) (docs c) = true ->
    exists answer message c',
      post_batch st body c = (success 201 answer message, c')
      /\ docs c' = docs c ++ Service.batch_documents st O l
      /\ get answer "inserted_count" = int (Z.of_nat (List.length l))
      /\ get answer "inserted_ids"
         = Arr (map id_of (Service.batch_documents st O l))
      /\ (1 <= List.length l <= 50)%nat
      /\ message
         = String.append "Successfully created "
             (String.append (to_string (int (Z.of_nat (List.length l))))
                            " memory embeddings").
Proof.
  intros st body l c Hvalid Hl Hup Hins.
  assert (Hbody : body <> Undefined) by (intros ->; discriminate).
  pose proof (proj1 (Batch.acceptance _ _) Hvalid) as Hacc.
  apply Batch.batch_accepted_iff in Hacc; [| exact Hbody].
  destruct Hacc as (l' & Hl' & Hlen & Hall). rewrite Hl in Hl'. injection Hl' as <-.
  assert (Hobj : nullish body = false) by (destruct body; try discriminate; reflexivity).
  do 3 eexists. split.
  { unfold post_batch, guarded. rewrite Hvalid. unfold destructured. rewrite Hobj.
    unfold respond. rewrite Hl.
    unfold Service.createMemoryEmbeddingsBatch, Service.initialize, Service.reading,
      connect, insertMany, rethrow, bind at 1 2, call, ret.
    rewrite Hup. cbv beta iota. rewrite (records_are_objects l Hall).
    cbn [nullish]. unfold bind. cbv beta iota.
    rewrite (insertEach_runs _ c Hup Hins). cbv beta iota. reflexivity. }
  split; [reflexivity |].
  split.
  { cbn [get lookup String.eqb Ascii.eqb Bool.eqb].
    rewrite length_map, length_batch_documents. reflexivity. }
  split; [reflexivity |].
  split; [exact Hlen |].
  cbn [get lookup String.eqb Ascii.eqb Bool.eqb].
  rewrite length_map, length_batch_documents. reflexivity.
Qed.

(** An update never writes the identifier. *)
Lemma updateDoc_keeps_the_id (now : Z) (body : value) :
  lookup "_id" (Service.updateDoc now body) = None.
Proof.
  unfold Service.updateDoc. rewrite !Update.lookup_set_if.
  cbn [String.eqb Ascii.eqb Bool.eqb lookup]. rewrite !andb_false_r. reflexivity.
Qed.

(** X26.  An update that passes the rules, of a memory that is stored,
    answers 200 with the record as it is after the update, and reading the
    memory afterwards answers that same record.  The record keeps its
    identifier and its time of creation, and the collection holds as many
    documents as before. *)
Theorem an_updated_memory_is_read_back :
  forall (now : Z) (id : string) (body : value) (c : collection) (d : document),
    Validation.validate Validation.updateMemoryEmbeddingSchema body = None ->
    body <> Undefined ->
    outage c = None ->
    stored (Str id) c = Some d ->
    exists record c',
      put_by_id now id body c
      = (success 200 record "Memory embedding updated successfully", c')
      /\ get_by_id id c' = (Json 200 (Obj [("success", Bool true); ("data", record)]), c')
      /\ get record "id" = get (Obj d) "_id"
      /\ get record "created_at" = get (Obj d) "created_at"
      /\ List.length (docs c') = List.length (docs c).
Proof.
  intros now id body c d Hvalid Hbody Hup Hd.
  pose proof (proj1 (Batch.acceptance _ _) Hvalid) as Hv.
  assert (Hobj : nullish body = false)
    by (apply (valid_body_is_an_object _ _ _ Hv Hbody)).
  unfold stored in Hd. fold (by_id id) in Hd.
  set (d' := assign_all (Service.updateDoc now body) d).
  assert (Hid : get (Obj d') "_id" = get (Obj d) "_id").
  { apply Update.get_of_lookup. apply lookup_assign_all, updateDoc_keeps_the_id. }
  assert (Hfind : find (matches (by_id id))
                    (replace_first (matches (by_id id)) d' (docs c)) = Some d').
  { apply (Access.find_replace_first _ d); [exact Hd |].
    apply (Access.matches_by_id id d); [exact Hid |].
    apply find_some in Hd. tauto. }
  exists (record_of (Obj d')). eexists. split.
  { unfold put_by_id, guarded. rewrite Hvalid. unfold respond_or_404.
    rewrite (Update.update_runs now id body c d Hup Hobj Hd). reflexivity. }
  split.
  { unfold get_by_id, respond_or_404. rewrite Relationships.lookup_runs.
    cbn [outage with_docs]. rewrite Hup. unfold stored. cbn [docs with_docs].
    unfold by_id, d' in Hfind |- *. rewrite Hfind. reflexivity. }
  split; [exact Hid |].
  split.
  { change (get (record_of (Obj d')) "created_at") with (get (Obj d') "created_at").
    apply Update.get_of_lookup. apply lookup_assign_all.
    rewrite (Update.change_set now body _ Hv). reflexivity. }
  cbn [docs with_docs]. clear. induction (docs c) as [| x r IH]; [reflexivity |].
  cbn [replace_first]. destruct (matches (by_id id) x); cbn [List.length]; congruence.
Qed.

End RoundTrip.

(** ** What the validation accepts *)

Module Accepted.
Import Js Effect Store Http Routes Terms.
Import NumberFacts ObjectFacts JoiFacts.

Lemma valid_number (o : Joi.opts) (p : list string) (v : value) :
  Joi.check (Joi.Scalar Joi.TNumber o) p v = [] ->
  v = Undefined
  \/ exists q,
      Joi.as_number v = Some (Fin q)
      /\ Forall (fun r => Joi.number_rule o p q r = []) (Joi.rules o).
Proof.
  intros H. destruct v; [left; reflexivity | ..]; right;
    cbn [Joi.check] in H; unfold Joi.check_number in H; try discriminate.
  - destruct n as [q | | |]; try discriminate.
    unfold Joi.check_finite in H.
    destruct (Qle_bool (Qabs q) Joi.max_safe_integer); try discriminate.
    exists q. split; [reflexivity | apply flat_map_nil, H].
  - cbn [Joi.as_number].
    destruct (decimal (trim (list_ascii_of_string s))) as [q |]; [| discriminate].
    destruct (double q) as [x | | |]; try discriminate.
    destruct (Joi.unsafe_text _ q x); [discriminate |].
    unfold Joi.check_finite in H.
    destruct (Qle_bool (Qabs x) Joi.max_safe_integer); try discriminate.
    exists x. split; [reflexivity | apply flat_map_nil, H].
Qed.

Lemma Qabs_small (q : Q) : (0 <= q <= 1)%Q -> Qle_bool (Qabs q) Joi.max_safe_integer = true.
Proof.
  intros [H0 H1]. apply Qle_bool_iff. rewrite Qabs_pos by exact H0.
  eapply Qle_trans; [exact H1 |]. unfold Joi.max_safe_integer.
  change 1%Q with (inject_Z 1). rewrite <- Zle_Qle. lia.
Qed.

Lemma as_number_defined (v : value) (n : number) :
  Joi.as_number v = Some n -> v <> Undefined.
Proof. intros H E. subst v. discriminate. Qed.

Lemma check_a_number (o : Joi.opts) (p : list string) (v : value) :
  v <> Undefined ->
  Joi.check (Joi.Scalar Joi.TNumber o) p v = Joi.check_number o p v.
Proof. destruct v; [contradiction | ..]; reflexivity. Qed.

Lemma valid_score (p : list string) (v : value) :
  Joi.check a_score p v = [] -> score v.
Proof.
  intros H. pose proof H as Hcopy.
  apply valid_number in H as [-> | [q [E Hrules]]]; [discriminate |].
  exists q. split; [exact E |].
  cbn [Joi.rules] in Hrules.
  inversion Hrules as [| ? ? Hmin Hrest]; subst.
  inversion Hrest as [| ? ? Hmax _]; subst.
  cbn [Joi.number_rule] in Hmin, Hmax.
  destruct (Qle_bool (inject_Z 0) q) eqn:E0; [| discriminate].
  destruct (Qle_bool q (inject_Z 1)) eqn:E1; [| discriminate].
  apply Qle_bool_iff in E0, E1. split; assumption.
Qed.

(** A number from 0 to 1 is a valid score. *)
Lemma number_is_a_valid_score (p : list string) (q : Q) :
  (0 <= q <= 1)%Q -> Joi.check a_score p (Num (Fin q)) = [].
Proof.
  intros [H0 H1].
  unfold a_score.
  cbv [Joi.required Joi.max Joi.min Joi.number Joi.add Joi.with_opts Joi.plain
       Joi.rules Joi.is_required Joi.default_value Joi.custom app].
  cbn [Joi.check]. unfold Joi.check_number, Joi.check_finite.
  rewrite (Qabs_small q (conj H0 H1)).
  cbn [Joi.rules flat_map Joi.number_rule app].
  apply Qle_bool_iff in H0, H1.
  change (inject_Z 0) with 0%Q. change (inject_Z 1) with 1%Q.
  rewrite H0, H1. reflexivity.
Qed.

(** X23.  Gate scores that pass the validation are absent or an object
    whose four scores, [forget_score], [input_score], [output_score] and
    [confidence], are each a number, or a text that reads as one, from 0 to
    1.  And an object whose four scores are numbers from 0 to 1 passes,
    whatever else it holds. *)
Theorem gate_scores_are_four_scores :
  (forall v : value,
      Joi.validate Validation.gateScoresSchema v = [] ->
      v = Undefined \/ gate_scores v)
  /\ (forall props : list (string * value),
        Forall (fun k => exists q, get (Obj props) k = Num (Fin q) /\ (0 <= q <= 1)%Q)
               gate_keys ->
        Joi.validate Validation.gateScoresSchema (Obj props) = []).
Proof.
  split.
  - intros v H. unfold Joi.validate in H.
    apply valid_object in H as [-> | [props [-> H]]]; [left; reflexivity |].
    right. split; [eexists; reflexivity |].
    Update.children H.
    unfold gate_keys. repeat constructor;
      eapply valid_score; eassumption.
  - intros props H. unfold Joi.validate.
    unfold Validation.gateScoresSchema, Joi.object.
    rewrite check_object. unfold Joi.child_violations.
    unfold gate_keys in H.
    inversion H as [| ? ? [q1 [E1 H1]] H']; subst.
    inversion H' as [| ? ? [q2 [E2 H2]] H'']; subst.
    inversion H'' as [| ? ? [q3 [E3 H3]] H''']; subst.
    inversion H''' as [| ? ? [q4 [E4 H4]] _]; subst.
    cbn [flat_map fst snd].
    fold a_score.
    rewrite E1, E2, E3, E4.
    rewrite !number_is_a_valid_score by assumption.
    reflexivity.
Qed.

Lemma required_present (s : Joi.schema) (p : list string) (v : value) :
  Joi.is_required (Joi.options s) = true -> Joi.check s p v = [] -> v <> Undefined.
Proof.
  intros Hreq H ->. destruct s; cbn [Joi.check Joi.options] in *; rewrite Hreq in H;
    discriminate.
Qed.

Lemma valid_text (o : Joi.opts) (p : list string) (v : value) :
  Joi.allowed_values o = None ->
  Joi.check (Joi.Scalar Joi.TString o) p v = [] ->
  v = Undefined
  \/ exists s, v = Str s /\ s <> ""
               /\ Forall (fun r => Joi.string_rule o p s r = []) (Joi.rules o).
Proof.
  intros Hall H. destruct v; try (simpl in H; rewrite ?Hall in H; discriminate).
  - left. reflexivity.
  - right. exists s. split; [reflexivity |].
    simpl in H. unfold Joi.check_string in H. rewrite Hall in H.
    destruct (String.eqb_spec s ""); [discriminate |].
    split; [assumption | apply flat_map_nil, H].
Qed.

Lemma valid_choice (o : Joi.opts) (p : list string) (v : value) (l : list string) :
  Joi.allowed_values o = Some l ->
  Joi.check (Joi.Scalar Joi.TString o) p v = [] ->
  v = Undefined \/ one_of l v.
Proof.
  intros Hall H. destruct v; try (simpl in H; rewrite ?Hall in H; discriminate).
  - left. reflexivity.
  - right. exists s. split; [reflexivity |].
    simpl in H. unfold Joi.check_string in H. rewrite Hall in H.
    destruct (existsb (String.eqb s) l) eqn:E; [| discriminate].
    apply existsb_exists in E as [x [Hx Heq]]. apply String.eqb_eq in Heq.
    subst x. exact Hx.
Qed.

Lemma valid_guid (o : Joi.opts) (p : list string) (v : value) :
  Joi.allowed_values o = None -> In Joi.Uuid (Joi.rules o) ->
  Joi.check (Joi.Scalar Joi.TString o) p v = [] ->
  v = Undefined \/ guid v.
Proof.
  intros Hall Hin H. apply valid_text in H as [E | [s [E [_ Hrules]]]];
    [left; exact E | right | exact Hall].
  exists s. split; [exact E |].
  rewrite Forall_forall in Hrules. specialize (Hrules _ Hin).
  cbn [Joi.string_rule] in Hrules. destruct (Joi.is_guid s); [reflexivity | discriminate].
Qed.

Lemma valid_list (P : value -> Prop) (it : Joi.schema) (o : Joi.opts)
  (p : list string) (v : value) :
  (forall x, x <> Undefined -> Joi.validate it x = [] -> P x) ->
  Joi.check (Joi.Array (Some it) o) p v = [] ->
  v = Undefined
  \/ exists l, v = Arr l /\ Forall P l
               /\ Forall (fun r => Joi.array_rule o p (Z.of_nat (List.length l)) r = [])
                         (Joi.rules o).
Proof.
  intros HP H. apply valid_array in H as [E | [elems [E [Hitems Hrules]]]];
    [left; exact E | right].
  exists elems. split; [exact E |]. split; [| exact Hrules].
  apply valid_items in Hitems. eapply Forall_impl; [| exact Hitems].
  intros x [Hx Hv]. apply HP; assumption.
Qed.

Lemma numeric_item (x : value) :
  x <> Undefined -> Joi.validate Joi.number x = [] -> numeric x.
Proof.
  intros Hx H. apply valid_number in H as [E | [q [E _]]]; [contradiction |].
  exists q. exact E.
Qed.

Lemma guid_item (x : value) :
  x <> Undefined -> Joi.validate (Joi.string .> Joi.uuid) x = [] -> guid x.
Proof.
  intros Hx H. apply valid_guid in H as [E | H];
    [contradiction | exact H | reflexivity | simpl; auto].
Qed.

Lemma text_item (x : value) :
  x <> Undefined -> Joi.validate Joi.string x = [] -> text x.
Proof.
  intros Hx H. apply valid_text in H as [E | [s [E [Hs _]]]];
    [contradiction | | reflexivity].
  exists s. auto.
Qed.

Lemma valid_gate_scores (o : Joi.opts) (p : list string) (v : value) :
  Joi.check (Joi.with_opts (fun _ => o) Validation.gateScoresSchema) p v = [] ->
  v = Undefined \/ gate_scores v.
Proof.
  intros H. cbn [Joi.with_opts Validation.gateScoresSchema Joi.object] in H.
  apply valid_object in H as [-> | [props [-> H]]]; [left; reflexivity |].
  right. split; [eexists; reflexivity |].
  Update.children H.
  unfold gate_keys. repeat constructor; eapply valid_score; eassumption.
Qed.

Ltac present H :=
  let Hp := fresh "Hpresent" in
  pose proof (fun E => required_present _ _ _ E H) as Hp;
  specialize (Hp eq_refl).

(** X24.  A record that passes the create rules is well formed: its two
    identifiers read as GUIDs, its type is one of the four, its summary has
    from 1 to 5000 characters, its three scores and its four gate scores are
    numbers from 0 to 1, its vector is a list of 90 numbers, and each
    optional field is absent or of its kind: a whole number that is not
    negative, a list of GUIDs, an object, a list of texts.  A number may
    also be a text that reads as one: the validation accepts it, and the
    request goes on with the text. *)
Theorem an_accepted_record_is_well_formed :
  forall body : value,
    Joi.validate Validation.memoryEmbeddingSchema body = [] ->
    body <> Undefined ->
    well_formed body.
Proof.
  intros body H Hbody. unfold Joi.validate in H.
  apply valid_object in H as [-> | [props [-> H]]]; [contradiction |].
  Update.children H.
  constructor.
  - present Hchild.
    apply valid_guid in Hchild as [E | G]; [contradiction | exact G | reflexivity | simpl; auto].
  - present Hchild0.
    apply (valid_choice _ _ _ Validation.memory_types) in Hchild0 as [E | G];
      [contradiction | exact G | reflexivity].
  - present Hchild1.
    apply valid_text in Hchild1 as [E | [s [E [_ Hrules]]]]; [contradiction | | reflexivity].
    exists s. split; [exact E |].
    cbn [Joi.rules] in Hrules.
    inversion Hrules as [| ? ? Hmin Hrest]; subst.
    inversion Hrest as [| ? ? Hmax _]; subst.
    cbn [Joi.string_rule] in Hmin, Hmax.
    destruct (Z.leb_spec 1 (Z.of_nat (utf16_length s))); [| discriminate].
    destruct (Z.leb_spec (Z.of_nat (utf16_length s)) 5000); [| discriminate].
    lia.
  - present Hchild2.
    apply valid_guid in Hchild2 as [E | G]; [contradiction | exact G | reflexivity | simpl; auto].
  - eapply valid_score; exact Hchild3.
  - eapply valid_score; exact Hchild4.
  - eapply valid_score; exact Hchild5.
  - apply valid_number in Hchild6 as [E | [q [E Hrules]]]; [left; exact E | right].
    exists q. split; [exact E |].
    cbn [Joi.rules] in Hrules.
    inversion Hrules as [| ? ? Hint Hrest]; subst.
    inversion Hrest as [| ? ? Hmin _]; subst.
    cbn [Joi.number_rule] in Hint, Hmin.
    destruct (is_integer q); [| discriminate].
    destruct (Qle_bool (inject_Z 0) q) eqn:E0; [| discriminate].
    apply Qle_bool_iff in E0. auto.
  - present Hchild7.
    apply (valid_list numeric) in Hchild7 as [E | [l [E [Hall Hrules]]]];
      [contradiction | | exact numeric_item].
    exists l. split; [exact E |]. split; [| exact Hall].
    cbn [Joi.rules] in Hrules. inversion Hrules as [| ? ? Hlen _]; subst.
    apply Dimension.length_rule in Hlen. lia.
  - present Hchild8.
    apply valid_object in Hchild8 as [E | [gs [E Hg]]]; [contradiction |].
    split; [eexists; exact E |].
    Update.children Hg.
    unfold gate_keys. repeat constructor; eapply valid_score; eassumption.
  - apply (valid_list guid) in Hchild9 as [E | [l [E [Hall _]]]];
      [left; exact E | right; exists l; auto | exact guid_item].
  - apply valid_any_object in Hchild10. exact Hchild10.
  - apply (valid_list text) in Hchild11 as [E | [l [E [Hall _]]]];
      [left; exact E | right; exists l; auto | exact text_item].
Qed.


Lemma required_reported (s : Joi.schema) (p : list string) :
  Joi.is_required (Joi.options s) = true ->
  Joi.check s p Undefined = [Joi.violate (Joi.options s) p "any.required"].
Proof. intros H. destruct s; cbn [Joi.check Joi.options] in *; rewrite H; reflexivity. Qed.

Lemma missing_counts (s : Joi.schema) (p : list string) (v : value) :
  Joi.is_required (Joi.options s) = true ->
  ((if is_undefined v then 1 else 0) <= List.length (Joi.check s p v))%nat.
Proof.
  intros H. destruct v; cbn [is_undefined]; try lia.
  rewrite (required_reported s p H). simpl. lia.
Qed.

Lemma length_filter {A} (p : A -> bool) (l : list A) :
  List.length (List.filter p l)
  = fold_right (fun x n => ((if p x then 1 else 0) + n)%nat) O l.
Proof.
  induction l as [| x r IH]; [reflexivity |]. cbn [List.filter fold_right].
  destruct (p x); cbn [List.length]; rewrite IH; reflexivity.
Qed.

(** X25.  The validation reports every required field that a create
    request lacks, not the first only: each has a violation [any.required]
    of its own under its name (for the vector, with the message
    [Feature vector is required]), so there are at least as many violations
    as fields lacking; and the request is answered 400 with the messages of
    all the violations. *)
Theorem every_missing_field_is_reported :
  forall (st : Service.stamps) (props : list (string * value)) (c : collection),
    let errors := Joi.validate Validation.memoryEmbeddingSchema (Obj props) in
    (forall f,
        In f (absent (Obj props)) ->
        exists t,
          In {| Joi.path := [f]; Joi.code := "any.required"; Joi.text := t |} errors)
    /\ (In "feature_vector" (absent (Obj props)) ->
        In {| Joi.path := ["feature_vector"]; Joi.code := "any.required";
              Joi.text := "Feature vector is required" |} errors)
    /\ (List.length (absent (Obj props)) <= List.length errors)%nat
    /\ (errors <> [] ->
        post_create st (Obj props) c
        = (Validation.rejection "Validation Error" errors, c)).
Proof.
  intros st props c errors.
  assert (Herrors : errors
                    = Joi.child_violations [] (Obj props)
                        match Validation.memoryEmbeddingSchema with
                        | Joi.Object (Some children) _ => children
                        | _ => []
                        end).
  { unfold errors, Joi.validate, Validation.memoryEmbeddingSchema, Joi.object.
    apply check_object. }
  split; [| split; [| split]].
  - intros f Hf. unfold absent in Hf. apply filter_In in Hf as [Hf Hu].
    assert (E : get (Obj props) f = Undefined)
      by (destruct (get (Obj props) f); try discriminate; reflexivity).
    rewrite Herrors. unfold Joi.child_violations.
    assert (Hfind : exists s,
               In (f, s) match Validation.memoryEmbeddingSchema with
                         | Joi.Object (Some children) _ => children
                         | _ => []
                         end
               /\ Joi.is_required (Joi.options s) = true).
    { unfold given in Hf. simpl in Hf.
      repeat (destruct Hf as [<- | Hf];
              [eexists; split; [simpl; eauto 20 | reflexivity] |]).
      contradiction. }
    destruct Hfind as (s & Hin & Hreq).
    eexists. apply in_flat_map. exists (f, s). split; [exact Hin |].
    cbn [fst snd app]. rewrite E, (required_reported s [f] Hreq).
    left. reflexivity.
  - intros Hf. unfold absent in Hf. apply filter_In in Hf as [_ Hu].
    assert (E : get (Obj props) "feature_vector" = Undefined)
      by (destruct (get (Obj props) "feature_vector"); try discriminate; reflexivity).
    rewrite Herrors. unfold Joi.child_violations. apply in_flat_map.
    exists ("feature_vector",
            Joi.array .> Joi.items Joi.number .> Joi.length 90 .> Joi.required
              .> Joi.messages [
                   ("array.base", "Feature vector must be an array of numbers");
                   ("array.length", "Feature vector must have exactly 90 dimensions");
                   ("any.required", "Feature vector is required")]).
    split; [simpl; tauto |].
    cbn [fst snd app]. rewrite E. left. reflexivity.
  - rewrite Herrors. unfold absent. rewrite length_filter.
    unfold Joi.child_violations.
    cbn [Validation.memoryEmbeddingSchema Joi.object flat_map given fold_right fst snd app].
    rewrite !length_app.
    repeat match goal with
           | |- context [is_undefined (get (Obj props) ?k)] =>
               match goal with
               | |- context [List.length (Joi.check ?s [k] (get (Obj props) k))] =>
                   pose proof (missing_counts s [k] (get (Obj props) k) eq_refl);
                   generalize dependent (List.length (Joi.check s [k] (get (Obj props) k)));
                   generalize dependent (is_undefined (get (Obj props) k));
                   intros
               end
           end.
    lia.
  - intros Hne. unfold post_create, guarded, Validation.validate. fold errors.
    destruct errors; [contradiction Hne; reflexivity | reflexivity].
Qed.

(** A score that may be absent. *)
Lemma valid_optional_score (o : Joi.opts) (p : list string) (v : value) :
  Joi.rules o = [Joi.Min 0; Joi.Max 1] ->
  Joi.check (Joi.Scalar Joi.TNumber o) p v = [] -> absent_or score v.
Proof.
  intros Ho H. apply valid_number in H as [E | [q [E Hrules]]]; [left; exact E | right].
  exists q. split; [exact E |]. rewrite Ho in Hrules.
  inversion Hrules as [| ? ? Hmin Hrest]; subst.
  inversion Hrest as [| ? ? Hmax _]; subst.
  cbn [Joi.number_rule] in Hmin, Hmax.
  destruct (Qle_bool (inject_Z 0) q) eqn:E0; [| discriminate].
  destruct (Qle_bool q (inject_Z 1)) eqn:E1; [| discriminate].
  apply Qle_bool_iff in E0, E1. auto.
Qed.

(** X28.  The parameters of a query that passes the query rules are within
    their bounds: the limit is absent or a whole number from 1 to 100, the
    offset is absent or a whole number that is not negative, the sort key
    and the sort order are absent or among the ones that are listed, the
    user is absent or reads as a GUID, the type is absent or one of the
    four, and each least score is absent or from 0 to 1. *)
Theorem an_accepted_query_is_bounded :
  forall query : value,
    Validation.validateQuery Validation.querySchema query = None ->
    query <> Undefined ->
    bounded query.
Proof.
  intros query H Hquery.
  assert (Hv : Joi.validate Validation.querySchema query = []).
  { unfold Validation.validateQuery in H.
    destruct (Joi.validate Validation.querySchema query); [reflexivity | discriminate]. }
  clear H. unfold Joi.validate in Hv.
  apply valid_object in Hv as [-> | [props [-> H]]]; [contradiction |].
  Update.children H.
  constructor.
  - apply valid_guid in Hchild; [exact Hchild | reflexivity | simpl; auto].
  - apply (valid_choice _ _ _ Validation.memory_types) in Hchild0;
      [exact Hchild0 | reflexivity].
  - eapply valid_optional_score; [| exact Hchild1]. reflexivity.
  - eapply valid_optional_score; [| exact Hchild2]. reflexivity.
  - eapply valid_optional_score; [| exact Hchild3]. reflexivity.
  - apply valid_number in Hchild5 as [E | [q [E Hrules]]]; [left; exact E | right].
    exists q. split; [exact E |].
    cbn [Joi.rules] in Hrules.
    inversion Hrules as [| ? ? Hint Hrest]; subst.
    inversion Hrest as [| ? ? Hmin Hrest']; subst.
    inversion Hrest' as [| ? ? Hmax _]; subst.
    cbn [Joi.number_rule] in Hint, Hmin, Hmax.
    destruct (is_integer q); [| discriminate].
    destruct (Qle_bool (inject_Z 1) q) eqn:E0; [| discriminate].
    destruct (Qle_bool q (inject_Z 100)) eqn:E1; [| discriminate].
    apply Qle_bool_iff in E0, E1. auto.
  - apply valid_number in Hchild6 as [E | [q [E Hrules]]]; [left; exact E | right].
    exists q. split; [exact E |].
    cbn [Joi.rules] in Hrules.
    inversion Hrules as [| ? ? Hint Hrest]; subst.
    inversion Hrest as [| ? ? Hmin _]; subst.
    cbn [Joi.number_rule] in Hint, Hmin.
    destruct (is_integer q); [| discriminate].
    destruct (Qle_bool (inject_Z 0) q) eqn:E0; [| discriminate].
    apply Qle_bool_iff in E0. auto.
  - apply (valid_choice _ _ _ Validation.sort_keys) in Hchild7;
      [exact Hchild7 | reflexivity].
  - apply (valid_choice _ _ _ ["asc"; "desc"]) in Hchild8;
      [exact Hchild8 | reflexivity].
Qed.

End Accepted.

(** ** The search route *)

Module Search.
Import Js Effect Store Http Routes Terms.
Import NumberFacts ObjectFacts JoiFacts.

Lemma integer_floor (q : Q) : is_integer q = true -> (q == inject_Z (Qfloor q))%Q.
Proof. unfold is_integer. apply Qeq_bool_iff. Qed.

(** A limit that passes [integer().min(lo)], with [lo] not negative, is a
    count. *)
Lemma count_of_a_valid_limit (q : Q) (lo hi : Z) :
  0 <= lo ->
  is_integer q = true ->
  Qle_bool (inject_Z lo) q = true -> Qle_bool q (inject_Z hi) = true ->
  exists n, count_of (Num (Fin q)) = Some n /\ (Z.to_nat lo <= n <= Z.to_nat hi)%nat.
Proof.
  intros Hlo Hint Hmin Hmax. pose proof (integer_floor q Hint) as Hq.
  apply Qle_bool_iff in Hmin, Hmax. rewrite Hq in Hmin, Hmax.
  rewrite <- Zle_Qle in Hmin, Hmax.
  exists (Z.to_nat (Qfloor q)). split; [| lia].
  unfold count_of. rewrite Hint.
  assert (H0 : Qle_bool 0 q = true).
  { apply Qle_bool_iff. rewrite Hq. change 0%Q with (inject_Z 0).
    rewrite <- Zle_Qle. lia. }
  rewrite H0. reflexivity.
Qed.

(** What the validation says of a search request. *)
Lemma valid_search (body : value) :
  Joi.validate Validation.similaritySearchSchema body = [] ->
  body <> Undefined ->
  (exists query, get body "feature_vector" = Arr query /\ List.length query = 90%nat)
  /\ (forall n, get body "limit" = Num n ->
                exists k, count_of (Num n) = Some k /\ (1 <= k <= 100)%nat)
  /\ (get body "filters" = Undefined \/ exists props, get body "filters" = Obj props).
Proof.
  intros H Hbody. unfold Joi.validate in H.
  apply valid_object in H as [-> | [props [-> H]]]; [contradiction |].
  Update.children H.
  split; [| split].
  - pose proof Hchild as Hcopy.
    apply valid_array in Hchild as [E | [elems [E [_ Hrules]]]].
    + rewrite E in Hcopy. discriminate.
    + exists elems. split; [exact E |].
      cbn [Joi.rules Joi.options] in Hrules.
      inversion Hrules as [| ? ? Hlen _]; subst.
      apply Dimension.length_rule in Hlen. lia.
  - intros n En. rewrite En in Hchild0.
    apply Accepted.valid_number in Hchild0 as [E | [q [E Hrules]]]; [discriminate |].
    cbn [Joi.as_number] in E. injection E as ->.
    cbn [Joi.rules] in Hrules.
    inversion Hrules as [| ? ? Hint Hrest]; subst.
    inversion Hrest as [| ? ? Hmin Hrest']; subst.
    inversion Hrest' as [| ? ? Hmax _]; subst.
    cbn [Joi.number_rule] in Hint, Hmin, Hmax.
    destruct (is_integer q) eqn:Ei; [| discriminate].
    destruct (Qle_bool (inject_Z 1) q) eqn:E1; [| discriminate].
    destruct (Qle_bool q (inject_Z 100)) eqn:E2; [| discriminate].
    destruct (count_of_a_valid_limit q 1 100 ltac:(lia) Ei E1 E2) as [k [Hk Hb]].
    exists k. split; [exact Hk |]. simpl in Hb. lia.
  - apply valid_any_object in Hchild1. exact Hchild1.
Qed.

(** A search with a vector and a limit that is a count runs to its end. *)
Lemma search_counts (c : collection) (query : list value) (options : value) (n : nat) :
  outage c = None ->
  options <> Null -> get (default (Obj []) options) "filters" <> Null ->
  count_of (search_limit options) = Some n ->
  exists answer,
    Service.findSimilarMemoryEmbeddings (Arr query) options c = (Ok answer, c)
    /\ get answer "query_vector_dimensions" = int (Z.of_nat (List.length query))
    /\ get answer "results"
       = Arr (map similar_record (map annotate (ranked c query options n)))
    /\ get answer "results_count"
       = int (Z.of_nat (List.length (ranked c query options n))).
Proof.
  intros Hup Hnull Hfilters Hl. unfold search_limit in Hl.
  assert (Hobj : nullish (default (Obj []) options) = false)
    by (destruct options; try reflexivity; contradiction).
  assert (Hobj' : nullish (default (Obj [])
                             (get (default (Obj []) options) "filters")) = false)
    by (destruct (get (default (Obj []) options) "filters");
        try reflexivity; contradiction).
  unfold Service.findSimilarMemoryEmbeddings, Service.initialize, Service.reading,
    connect, find_similar, rethrow, bind, call, ret.
  cbv beta. repeat rewrite Hup. cbv beta iota.
  rewrite Hobj. cbv beta iota. rewrite Hobj'. cbv beta iota.
  repeat rewrite Hup. cbv beta iota.
  rewrite Hl. cbv beta iota.
  fold (ranked c query options n).
  eexists. split; [reflexivity |].
  cbn [get lookup String.eqb Ascii.eqb Bool.eqb].
  rewrite !length_map. repeat split.
Qed.

Lemma length_ranked c query options n :
  (0 < n)%nat -> (List.length (ranked c query options n) <= n)%nat.
Proof. intros Hn. unfold ranked. apply Pagination.limited_length, Hn. Qed.

(** X20.  A search request that passes the validation, with no limit or
    with a limit that is a number, is answered 200 on a reachable
    collection, which it leaves as it was: the query vector has 90
    dimensions, [results_count] is the number of results, and there are at
    most 100 of them, at most 10 when the request gives no limit. *)
Theorem an_accepted_search_is_answered :
  forall (body : value) (c : collection),
    Validation.validate Validation.similaritySearchSchema body = None ->
    body <> Undefined ->
    get body "limit" = Undefined \/ (exists n, get body "limit" = Num n) ->
    outage c = None ->
    exists answer message rows,
      post_similarity body c = (success 200 answer message, c)
      /\ get answer "query_vector_dimensions" = int 90
      /\ get answer "results" = Arr rows
      /\ get answer "results_count" = int (Z.of_nat (List.length rows))
      /\ (List.length rows <= 100)%nat
      /\ (get body "limit" = Undefined -> (List.length rows <= 10)%nat).
Proof.
  intros body c Hvalid Hbody Hlimit Hup.
  pose proof (proj1 (Batch.acceptance _ _) Hvalid) as Hv.
  destruct (valid_search body Hv Hbody) as ([query [Hq Hlen]] & Hlim & Hfilters).
  assert (Hobj : nullish body = false).
  { apply (RoundTrip.valid_body_is_an_object _ _ _ Hv Hbody). }
  set (options := Obj [("limit", get body "limit"); ("filters", get body "filters")]).
  assert (Hcount : exists n, count_of (search_limit options) = Some n
                             /\ (1 <= n <= 100)%nat
                             /\ (get body "limit" = Undefined -> n = 10%nat)).
  { unfold search_limit, options.
    cbn [default get lookup String.eqb Ascii.eqb Bool.eqb].
    destruct Hlimit as [E | [n E]].
    - rewrite E. exists 10%nat. split; [| split; [lia | reflexivity]].
      apply (count_of_int 10). lia.
    - destruct (Hlim n E) as [k [Hk Hb]]. rewrite E. exists k.
      split; [exact Hk |]. split; [exact Hb | discriminate]. }
  destruct Hcount as (n & Hn & Hb & Hdefault).
  assert (Hf : get (default (Obj []) options) "filters" <> Null).
  { unfold options. cbn [default get lookup String.eqb Ascii.eqb Bool.eqb].
    destruct Hfilters as [-> | [props ->]]; discriminate. }
  destruct (search_counts c query options n Hup ltac:(discriminate) Hf Hn)
    as (answer & Hrun & Hdim & Hrows & Hcnt).
  exists answer. eexists. eexists.
  split.
  { unfold post_similarity, guarded. rewrite Hvalid. unfold destructured.
    rewrite Hobj. unfold respond. rewrite Hq. fold options. rewrite Hrun.
    reflexivity. }
  split; [rewrite Hdim, Hlen; reflexivity |].
  split; [exact Hrows |].
  split; [rewrite Hcnt, !length_map; reflexivity |].
  rewrite !length_map.
  pose proof (length_ranked c query options n ltac:(lia)) as Hr.
  split; [lia |]. intros E. rewrite (Hdefault E) in Hr |- *. exact Hr.
Qed.

(** A search that answers, answers the ranked matches of its filter. *)
Lemma search_page (c : collection) (queryVector options answer : value) :
  fst (Service.findSimilarMemoryEmbeddings queryVector options c) = Ok answer ->
  exists query n,
    queryVector = Arr query
    /\ count_of (search_limit options) = Some n
    /\ get answer "results"
       = Arr (map similar_record (map annotate (ranked c query options n))).
Proof.
  unfold Service.findSimilarMemoryEmbeddings, Service.initialize, Service.reading,
    connect, find_similar, rethrow, bind, call, ret, throw.
  cbv beta. destruct (outage c) eqn:Hup; cbv beta iota; [discriminate |].
  destruct (nullish _); cbv beta iota; [discriminate |].
  destruct (nullish _); cbv beta iota; [discriminate |].
  repeat (rewrite Hup; cbv beta iota).
  fold (search_limit options).
  destruct queryVector; try discriminate;
    destruct (count_of (search_limit options)) as [n |]; try discriminate.
  cbv beta iota. cbn [fst]. intros H. injection H as <-.
  exists items, n. repeat split.
Qed.

Lemma ranked_matches c query options n (sd : Q * document) :
  In sd (ranked c query options n) ->
  In (snd sd) (docs c) /\ matches (search_filter options) (snd sd) = true.
Proof.
  unfold ranked. intros H. apply SortFacts.In_limited, SortFacts.In_sort in H.
  apply in_flat_map in H as [d [Hd Hs]]. apply filter_In in Hd.
  unfold scored in Hs. destruct (get (Obj d) "$vector"); try contradiction.
  destruct Hs as [<- | []]. exact Hd.
Qed.

Lemma get_annotate (sd : Q * document) (k : string) :
  k <> "$similarity" -> get (annotate sd) k = get (Obj (snd sd)) k.
Proof.
  intros Hk. unfold annotate. rewrite get_assign.
  destruct (String.eqb_spec k "$similarity"); [contradiction | reflexivity].
Qed.

Lemma search_row_matches c query options n (row : value) :
  In row (map similar_record (map annotate (ranked c query options n))) ->
  exists d, In d (docs c)
            /\ matches (search_filter options) d = true
            /\ get row "user_id" = get (Obj d) "user_id"
            /\ get row "memory_type" = get (Obj d) "memory_type"
            /\ get row "importance_score" = get (Obj d) "importance_score".
Proof.
  intros Hrow.
  apply in_map_iff in Hrow as [a [<- Ha]]. apply in_map_iff in Ha as [sd [<- Hsd]].
  destruct (ranked_matches _ _ _ _ _ Hsd) as [Hin Hm].
  exists (snd sd). split; [exact Hin |]. split; [exact Hm |].
  repeat split;
    match goal with
    | |- get (similar_record ?a) ?k = _ => change (get (similar_record a) k) with (get a k)
    end; apply get_annotate; discriminate.
Qed.

(** X27.  A similarity search that answers keeps to its filters: with a
    user among the filters every row is of that user, with a type every row
    is of that type, and with a least importance every row has a number for
    its importance that is not below it. *)
Theorem a_search_keeps_to_its_filters :
  forall (c : collection) (queryVector options answer : value),
    fst (Service.findSimilarMemoryEmbeddings queryVector options c) = Ok answer ->
    let filters := default (Obj []) (get (default (Obj []) options) "filters") in
    exists rows,
      get answer "results" = Arr rows
      /\ (forall u, get filters "user_id" = Str u -> u <> "" ->
                    Forall (fun row => names (get row "user_id") (Str u)) rows)
      /\ (forall t, get filters "memory_type" = Str t -> t <> "" ->
                    Forall (fun row => names (get row "memory_type") (Str t)) rows)
      /\ (forall t, get filters "min_importance_score" = Num t ->
                    truthy (Num t) = true ->
                    Forall (fun row => exists n, get row "importance_score" = Num n
                                                 /\ num_lt n t = false) rows).
Proof.
  intros c queryVector options answer H filters.
  apply search_page in H as (query & n & _ & _ & Hrows).
  eexists. split; [exact Hrows |].
  split; [| split].
  - intros u Hu Hne. apply Forall_forall. intros row Hrow.
    apply search_row_matches in Hrow as (d & _ & Hm & -> & _).
    apply Rows.contains_string.
    pose proof (Rows.matches_field _ d "user_id" (Str u) Hm) as Hf.
    fold filters in Hf.
    rewrite Rows.build_query_user, Hu, (Rows.truthy_string u Hne) in Hf.
    apply (Hf eq_refl).
  - intros t Ht Hne. apply Forall_forall. intros row Hrow.
    apply search_row_matches in Hrow as (d & _ & Hm & _ & -> & _).
    apply Rows.contains_string.
    pose proof (Rows.matches_field _ d "memory_type" (Str t) Hm) as Hf.
    fold filters in Hf.
    rewrite Rows.build_query_type, Ht, (Rows.truthy_string t Hne) in Hf.
    apply (Hf eq_refl).
  - intros t Ht Htruthy. apply Forall_forall. intros row Hrow.
    apply search_row_matches in Hrow as (d & _ & Hm & _ & _ & ->).
    apply Rows.at_least_number.
    pose proof (Rows.matches_field _ d "importance_score"
                  (Service.at_least (Num t)) Hm) as Hf.
    fold filters in Hf.
    rewrite Rows.build_query_importance, Ht, Htruthy in Hf.
    apply (Hf eq_refl).
Qed.

End Search.

(** ** An unreachable database *)

Module Outage.
Import Js Effect Store Http Routes Terms.

(** A call of the service on an unreachable database. *)
Lemma down {A} (prefix : string) (k : Service.service A) (c : collection) (e : string) :
  outage c = Some e ->
  rethrow prefix (Service.initialize ;;; k) c = (Throw (String.append prefix e), c).
Proof.
  intros Hup. unfold rethrow, bind, Service.initialize, connect, call.
  rewrite Hup. reflexivity.
Qed.

Lemma respond_down (prefix : string) (k : Service.service value)
  (reply : value -> response) (c : collection) (e : string) :
  outage c = Some e ->
  respond (rethrow prefix (Service.initialize ;;; k)) reply c
  = (Next (String.append prefix e), c).
Proof. intros Hup. unfold respond. rewrite (down prefix k c e Hup). reflexivity. Qed.

Lemma respond_or_404_down (prefix : string) (k : Service.service value)
  (reply : value -> response) (c : collection) (e : string) :
  outage c = Some e ->
  String.eqb (String.append prefix e) not_found_message = false ->
  respond_or_404 (rethrow prefix (Service.initialize ;;; k)) reply c
  = (Next (String.append prefix e), c).
Proof.
  intros Hup Hne. unfold respond_or_404. rewrite (down prefix k c e Hup), Hne.
  reflexivity.
Qed.

Lemma guarded_refused check h c :
  (forall r, check = Some r -> status_of r = Some 400) ->
  refused (h c) c -> refused (guarded check h c) c.
Proof.
  intros Hc Hh. unfold guarded. destruct check as [r |]; [| exact Hh].
  split; [reflexivity | left; apply Hc; reflexivity].
Qed.

Lemma destructured_refused body property h c :
  refused (h c) c -> refused (destructured body property h c) c.
Proof.
  intros Hh. unfold destructured. destruct (nullish body); [| exact Hh].
  split; [reflexivity | right; eexists; reflexivity].
Qed.

Lemma respond_refused (prefix : string) (k : Service.service value)
  (reply : value -> response) (c : collection) (e : string) :
  outage c = Some e ->
  refused (respond (rethrow prefix (Service.initialize ;;; k)) reply c) c.
Proof.
  intros Hup. rewrite (respond_down _ _ _ _ _ Hup).
  split; [reflexivity | right; eexists; reflexivity].
Qed.

Lemma respond_or_404_refused (prefix : string) (k : Service.service value)
  (reply : value -> response) (c : collection) (e : string) :
  outage c = Some e ->
  (forall e, String.eqb (String.append prefix e) not_found_message = false) ->
  refused (respond_or_404 (rethrow prefix (Service.initialize ;;; k)) reply c) c.
Proof.
  intros Hup Hne. rewrite (respond_or_404_down _ _ _ _ _ Hup (Hne e)).
  split; [reflexivity | right; eexists; reflexivity].
Qed.

Lemma validated_refused schema body h c :
  refused (h c) c -> refused (guarded (Validation.validate schema body) h c) c.
Proof.
  intros Hh. unfold guarded.
  destruct (Validation.validate schema body) as [r |] eqn:E; [| exact Hh].
  split; [reflexivity | left; apply (NotFound.validate_status _ _ _ E)].
Qed.

Lemma validated_query_refused schema query h c :
  refused (h c) c -> refused (guarded (Validation.validateQuery schema query) h c) c.
Proof.
  intros Hh. unfold guarded, Validation.validateQuery.
  destruct (Joi.validate schema query); [exact Hh |].
  split; [reflexivity | left; reflexivity].
Qed.

(** X21.  While the database is unreachable no request succeeds, and none
    changes the collection: a request that the validation refuses is still
    answered 400, and any other ends in [next] with an error.  The routes
    that validate nothing hand over the error of the database behind the
    prefix of the operation. *)
Theorem an_unreachable_database_fails_every_request :
  forall (c : collection) (e : string),
    outage c = Some e ->
    (forall r : request,
        snd (handle r c) = c
        /\ (status_of (fst (handle r c)) = Some 400
            \/ exists m, fst (handle r c) = Next m))
    /\ (forall now,
          get_stats now c
          = (Next (String.append "Failed to get statistics: " e), c))
    /\ (forall id,
          get_by_id id c
          = (Next (String.append "Failed to get memory embedding: " e), c)
          /\ delete_by_id id c
             = (Next (String.append "Failed to delete memory embedding: " e), c))
    /\ (forall userId query,
          get_user userId query c
          = (Next (String.append "Failed to query memory embeddings: " e), c)
          /\ get_user_important userId query c
             = (Next (String.append "Failed to query memory embeddings: " e), c)
          /\ get_user_recent userId query c
             = (Next (String.append "Failed to query memory embeddings: " e), c))
    /\ (forall userId memoryId,
          get_relationships userId memoryId c
          = (Next (String.append "Failed to get memory embedding: " e), c)).
Proof.
  intros c e Hup.
  split; [| split; [| split; [| split]]].
  - intros r. change (refused (handle r c) c). destruct r; cbn [handle].
    + apply respond_refused with (e := e), Hup.
    + apply validated_refused, destructured_refused.
      apply respond_refused with (e := e), Hup.
    + apply validated_refused, destructured_refused.
      apply respond_refused with (e := e), Hup.
    + apply validated_query_refused. apply respond_refused with (e := e), Hup.
    + apply validated_refused. apply respond_refused with (e := e), Hup.
    + apply respond_or_404_refused with (e := e); [exact Hup | reflexivity].
    + apply validated_refused.
      apply respond_or_404_refused with (e := e); [exact Hup | reflexivity].
    + apply respond_or_404_refused with (e := e); [exact Hup | reflexivity].
    + apply respond_refused with (e := e), Hup.
    + apply respond_refused with (e := e), Hup.
    + apply respond_or_404_refused with (e := e); [exact Hup | reflexivity].
  - intros now. apply respond_down, Hup.
  - intros id. split; apply respond_or_404_down; (exact Hup || reflexivity).
  - intros userId query. repeat split; apply respond_down, Hup.
  - intros userId memoryId. unfold get_relationships.
    rewrite Relationships.lookup_runs, Hup.
    change (String.eqb (String.append "Failed to get memory embedding: " e)
              not_found_message) with false.
    reflexivity.
Qed.

End Outage.


(** ** Fields that no schema declares *)

Module Undeclared.
Import Js Effect Store Http Routes Terms.
Import JoiFacts.

Lemma lookup_without (k k' : string) (props : list (string * value)) :
  k' <> k -> lookup k' (without k props) = lookup k' props.
Proof.
  intros Hne. induction props as [| [k0 v0] r IH]; [reflexivity |].
  cbn [without List.filter fst]. fold (without k r).
  destruct (String.eqb_spec k0 k) as [-> | Hk]; cbn [negb lookup].
  - rewrite IH. destruct (String.eqb_spec k' k); [contradiction | reflexivity].
  - rewrite IH. reflexivity.
Qed.

Lemma get_without (k k' : string) (props : list (string * value)) :
  k' <> k -> get (Obj (without k props)) k' = get (Obj props) k'.
Proof. intros Hne. unfold get. rewrite lookup_without by exact Hne. reflexivity. Qed.

Lemma flat_map_ext_in {A B} (f g : A -> list B) (l : list A) :
  (forall x, In x l -> f x = g x) -> flat_map f l = flat_map g l.
Proof.
  induction l as [| x r IH]; intros H; [reflexivity |].
  cbn [flat_map]. rewrite (H x (or_introl eq_refl)), IH; [reflexivity |].
  intros y Hy. apply H. right. exact Hy.
Qed.

Lemma validate_without (children : list (string * Joi.schema)) (o : Joi.opts)
  (k : string) (props : list (string * value)) :
  ~ In k (map fst children) ->
  Joi.validate (Joi.Object (Some children) o) (Obj (without k props))
  = Joi.validate (Joi.Object (Some children) o) (Obj props).
Proof.
  intros Hk. unfold Joi.validate. rewrite !check_object. unfold Joi.child_violations.
  apply flat_map_ext_in. intros [k' s] Hin. cbn [fst snd].
  rewrite get_without; [reflexivity |].
  intros ->. apply Hk. apply (in_map fst) in Hin. exact Hin.
Qed.

Ltac other Hk := intros E; apply Hk; rewrite <- E; simpl; tauto.

(** X22.  A field that the schema does not declare has no part in a create
    or an update request: with the field or without it, the request is
    answered the same and leaves the same collection.  Nothing of it is
    validated, and nothing of it is stored. *)
Theorem an_undeclared_field_changes_nothing :
  forall (k : string) (props : list (string * value)) (c : collection),
    (~ In k (declared Validation.memoryEmbeddingSchema) ->
     forall st, post_create st (Obj props) c = post_create st (Obj (without k props)) c)
    /\ (~ In k (declared Validation.updateMemoryEmbeddingSchema) ->
        forall now id,
          put_by_id now id (Obj props) c = put_by_id now id (Obj (without k props)) c).
Proof.
  intros k props c. split.
  - intros Hk st. unfold post_create, Validation.validate.
    unfold Validation.memoryEmbeddingSchema at 1 2, Joi.object.
    rewrite (validate_without _ Joi.plain k props Hk).
    assert (Hdoc : Service.new_document st (Obj (without k props))
                   = Service.new_document st (Obj props)).
    { unfold Service.new_document. rewrite !(get_without k) by other Hk. reflexivity. }
    unfold Service.createMemoryEmbedding. rewrite Hdoc. reflexivity.
  - intros Hk now id. unfold put_by_id, Validation.validate.
    unfold Validation.updateMemoryEmbeddingSchema at 1 2, Joi.object.
    rewrite (validate_without _ Joi.plain k props Hk).
    assert (Hdoc : Service.updateDoc now (Obj (without k props))
                   = Service.updateDoc now (Obj props)).
    { unfold Service.updateDoc. rewrite !(get_without k) by other Hk. reflexivity. }
    unfold Service.updateMemoryEmbedding. rewrite Hdoc. reflexivity.
Qed.

End Undeclared.

(** ** The theorems at work on the sample *)

Module Witness.
Import Js Effect Store Http Terms Sample.

(** A lookup of an id that is not among the three memories. *)
Lemma lookup_of_a_missing_id :
  outage memories = None
  /\ no_document "m9" memories
  /\ Routes.get_by_id "m9" memories
     = (Next "Failed to get memory embedding: Memory embedding not found", memories)
  /\ Routes.delete_by_id "m9" memories
     = (Next "Failed to delete memory embedding: Memory embedding not found",
        memories).
Proof.
  destruct (NotFound.missing_id_is_forwarded memories "m9" eq_refl eq_refl)
    as (Hget & Hdelete & _).
  split; [reflexivity |]. split; [reflexivity |]. split; assumption.
Defined.


(** The second page of two, of the three memories. *)
Lemma second_page_of_two :
  let options := Obj [("limit", int 2); ("offset", int 2)] in
  exists rows summary,
    Service.queryMemoryEmbeddings options memories
    = (Ok (Obj [("results", Arr rows); ("pagination", summary)]), memories)
    /\ get summary "has_next" = Bool false
    /\ get summary "has_previous" = Bool true
    /\ get summary "current_page" = int 2
    /\ Z.of_nat (List.length rows) <= 2.
Proof.
  intros options.
  destruct (Pagination.pagination_summary_of_a_query memories options 2 2
              eq_refl ltac:(discriminate) eq_refl eq_refl ltac:(lia) ltac:(lia)
              ltac:(unfold max_safe_integer; lia)
              ltac:(vm_compute; discriminate))
    as (rows & summary & Hrun & _ & Hnext & Hprev & Hpage & _ & Hlen).
  exists rows, summary. repeat split; assumption.
Defined.

(** The memories of a user, asked for with a limit of zero. *)
Lemma user_memories_with_limit_zero :
  outage memories = None
  /\ exists rows summary message,
      Routes.get_user ann (Obj [("limit", Str "0")]) memories
      = (Json 200 (Obj [("success", Bool true);
                        ("data", Obj [("results", Arr rows);
                                      ("pagination", summary)]);
                        ("message", Str message)]), memories)
      /\ get summary "current_page" = Num NaN.
Proof.
  split; [reflexivity |].
  destruct (Pagination.limit_zero_divides_by_zero memories ann eq_refl)
    as (rows & summary & message & Hrun & Hpage & _).
  exists rows, summary, message. split; assumption.
Defined.

(** A search among the three memories: the three are answered, the second
    first, whose vector scores highest. *)
Lemma search_among_the_memories :
  exists answer rows,
    Service.findSimilarMemoryEmbeddings (vector 1) Undefined memories
    = (Ok answer, memories)
    /\ get answer "results" = Arr rows
    /\ map (fun row => get row "id") rows = [Str "m2"; Str "m3"; Str "m1"]
    /\ get answer "results_count" = int 3
    /\ get answer "max_similarity_score" = Num (Fin (3 # 4))
    /\ get answer "min_similarity_score" = Num (Fin (1 # 4)).
Proof.
  destruct (Similarity.similarity_search_summary memories
              (Num (Fin 1) :: repeat (int 0) 89) Undefined 10
              eq_refl ltac:(discriminate) ltac:(discriminate) eq_refl ltac:(lia))
    as (answer & rows & Hrun & _ & Hrows & Hranked & _).
  exists answer, rows. split; [exact Hrun |]. split; [exact Hrows |].
  split; [rewrite Hranked; reflexivity |].
  change (Service.findSimilarMemoryEmbeddings (Arr (Num (Fin 1) :: repeat (int 0) 89))
            Undefined memories)
    with (Service.findSimilarMemoryEmbeddings (vector 1) Undefined memories) in Hrun.
  assert (Hanswer : fst (Service.findSimilarMemoryEmbeddings (vector 1) Undefined memories)
                    = Ok answer) by (rewrite Hrun; reflexivity).
  vm_compute in Hanswer. injection Hanswer as <-.
  repeat split.
Defined.

Lemma memories_have_vectors : vectors_ok memories.
Proof.
  unfold vectors_ok, dimension_ok.
  repeat constructor; eexists; split; reflexivity.
Defined.

(** A record with a vector of 50 items is refused, and a valid one keeps
    the stored vectors 90 items long. *)
Lemma short_vector_is_refused :
  (exists details,
      Routes.post_create (stamp "m4" 4000) short_vector memories
      = (Json 400 details, memories))
  /\ vectors_ok
       (snd (handle
               (PostCreate (stamp "m4" 4000)
                  (memory bob "emotion" (1 # 2) (1 # 2)))
               memories)).
Proof.
  destruct Dimension.wrong_length_never_reaches_storage as (Hcreate & _ & Hinv).
  split.
  - apply (Hcreate (stamp "m4" 4000) short_vector (repeat (int 0) 50) memories).
    + reflexivity.
    + simpl. lia.
  - apply Hinv. exact memories_have_vectors.
Defined.

(** A batch of 51 records is refused as a whole. *)
Lemma batch_of_51_is_refused :
  too_many <> Undefined
  /\ exists details,
      Routes.post_batch (fun _ => stamp "m4" 4000) too_many memories
      = (Json 400 details, memories).
Proof.
  split; [discriminate |].
  apply (Batch.batch_is_validated_as_a_whole (fun _ => stamp "m4" 4000) too_many
           memories ltac:(discriminate)).
  intros [l [E [Hlen _]]]. injection E as <-. simpl in Hlen. lia.
Defined.

(** Two accesses of the first memory. *)
Lemma two_accesses :
  exists d' c',
    accesses [(4000, 4001); (5000, 5001)] "m1" memories
    = (answers_from (Str "m1") 0 [(4000, 4001); (5000, 5001)], c')
    /\ find (matches (by_id "m1")) (docs c') = Some d'
    /\ get (Obj d') "access_frequency" = int 2.
Proof.
  destruct (Access.record_access_counts_the_calls [(4000, 4001); (5000, 5001)]
              "m1" memories m1 eq_refl eq_refl eq_refl)
    as (d' & c' & Hrun & Hfind & Hcount & _).
  exists d', c'. repeat split; assumption.
Defined.

(** C8, as stated, does not hold: the second of two calls made at the same
    reading of the clock answers the [last_accessed] of the first, which has
    not advanced. *)
Lemma last_accessed_can_stand_still :
  exists first second,
    same_instant = [Ok first; Ok second]
    /\ get first "access_frequency" = int 1
    /\ get second "access_frequency" = int 2
    /\ lt (get first "last_accessed") (get second "last_accessed") = false.
Proof.
  do 2 eexists. split; [vm_compute; reflexivity |].
  repeat split; reflexivity.
Qed.

(** The statistics of a collection with nothing in it. *)
Lemma statistics_of_nothing :
  exists stats,
    Service.getStatistics 5000 nothing = (Ok stats, nothing)
    /\ get stats "total_memories" = int 0
    /\ get stats "memory_type_distribution" = Obj [].
Proof.
  destruct (Statistics.statistics_of_an_empty_collection nothing 5000 eq_refl)
    as (stats & Hrun & _ & Hempty).
  destruct (Hempty eq_refl) as (Htotal & Hkinds & _).
  exists stats. repeat split; assumption.
Defined.

Lemma listed_without_vector_looked_up_with :
  listed = Ok (answer_of listed)
  /\ looked_up = Ok (answer_of looked_up)
  /\ (exists rows,
         get (answer_of listed) "results" = Arr rows
         /\ Forall (fun row => has_key "feature_vector" row = false) rows)
  /\ has_key "feature_vector" (answer_of looked_up) = true.
Proof.
  assert (Hlisted : listed = Ok (answer_of listed)) by reflexivity.
  assert (Hlooked : looked_up = Ok (answer_of looked_up)) by reflexivity.
  destruct (Shape.list_results_drop_the_embedding memories) as (Hlist & Hget & _).
  split; [exact Hlisted |]. split; [exact Hlooked |]. split.
  - destruct (Hlist _ _ Hlisted) as (rows & Hrows & Hall).
    exists rows. split; [exact Hrows |].
    apply Forall_forall. intros row Hrow. rewrite Forall_forall in Hall.
    apply (Hall row Hrow).
  - apply (Hget _ _ Hlooked).
Defined.

(** Twenty-five memories, asked for ten after the first ten. *)
Lemma no_next_page_of_twenty_five :
  outage twenty_five = None
  /\ List.length (docs twenty_five) = 25%nat
  /\ exists rows summary,
       Routes.get_query ten_after_ten twenty_five
       = (Routes.success 200 (Obj [("results", Arr rows); ("pagination", summary)])
            "Found 10 memory embeddings", twenty_five)
       /\ List.length rows = 10%nat
       /\ get summary "total_count" = int 25
       /\ get summary "has_next" = Bool false.
Proof.
  split; [reflexivity |]. split; [reflexivity |].
  destruct (QueryRoute.texts_are_joined_not_added twenty_five eq_refl
              ltac:(change (List.length (docs twenty_five)) with 25%nat; lia))
    as (rows & summary & Hrun & Hrows & Htotal & _ & Hnext & _).
  exists rows, summary. repeat split; assumption.
Defined.

End Witness.

(** ** The connection, the lists and the round trips on the sample *)

Module Instances.
Import Js Effect Store Http Terms Sample.

(** A second connect, with no environment and a database out of reach,
    answers what the first one did. *)
Lemma second_connect_is_the_first :
  exists r,
    AstraDB.connect configured all_well AstraDB.constructed = (Ok r, established)
    /\ AstraDB.connect [] out_of_reach established = (Ok r, established).
Proof.
  eexists. split; [reflexivity |].
  apply (Connection.connect_is_cached configured all_well AstraDB.constructed).
  reflexivity.
Defined.

(** The first connect hands over the collection it created. *)
Lemma first_connect_hands_over_the_collection :
  reachable AstraDB.constructed
  /\ memory_embeddings (Some (AstraDB.Created "memory_embeddings" 90 "cosine")).
Proof.
  split; [constructor |].
  apply (Connection.connect_hands_over_the_collection configured all_well
           AstraDB.constructed _ established); [constructor | reflexivity].
Defined.

(** Of the three relationships of the fourth memory, the one that is stored
    and is Ann's is answered. *)
Lemma relationships_of_the_fourth_memory :
  outage family = None
  /\ stored (Str "m4") family = Some m4
  /\ exists answer,
       Routes.get_relationships ann "m4" family = (answer, family)
       /\ answer
          = related_answer (record_of (Obj m4)) [record_of (Obj m3)].
Proof.
  split; [reflexivity |]. split; [reflexivity |].
  destruct (Relationships.related_memories_are_the_owned_ones family ann "m4" m4
              [Str "m3"; Str "m2"; Str "m9"] eq_refl eq_refl eq_refl eq_refl)
    as [Hrun _].
  eexists. split; [exact Hrun | reflexivity].
Defined.

(** The memories answered for Ann are Ann's. *)
Lemma relationships_are_of_ann :
  exists body,
    Routes.get_relationships ann "m4" family = (Json 200 body, family)
    /\ exists memory memories,
         get body "data"
         = Obj [("source_memory", memory);
                ("related_memories", Arr memories);
                ("relationship_count", int (Z.of_nat (List.length memories)))]
         /\ get memory "user_id" = Str ann
         /\ Forall (fun m => get m "user_id" = Str ann) memories.
Proof.
  eexists. split; [reflexivity |].
  destruct (Relationships.related_memories_belong_to_the_user family family ann "m4"
              200 _ eq_refl) as (_ & _ & _ & H).
  exact (H eq_refl).
Defined.

(** The recently accessed memories of Ann. *)
Lemma lists_of_ann :
  ann <> ""
  /\ exists body rows,
       fst (Routes.get_user_recent ann (Obj []) memories) = Json 200 body
       /\ get (get body "data") "results" = Arr rows
       /\ Forall (fun row => names (get row "user_id") (Str ann)) rows.
Proof.
  split; [discriminate |].
  destruct (Rows.lists_are_scoped_to_the_user memories ann ltac:(discriminate))
    as [_ Hroutes].
  assert (E : exists body,
             fst (Routes.get_user_recent ann (Obj []) memories) = Json 200 body)
    by (vm_compute; eexists; reflexivity).
  destruct E as [body E].
  destruct (Hroutes (Obj []) 200 body (or_intror (or_intror E)))
    as (_ & rows & Hrows & Hall).
  exists body, rows. split; [exact E |]. split; assumption.
Defined.

(** The important memories of Ann, two at most. *)
Lemma two_important_memories :
  let query := Obj [("limit", Str "2")] in
  outage memories = None
  /\ Routes.parse_int (default (int 10) (get query "limit")) = int 2
  /\ exists rows summary message,
       Routes.get_user_important ann query memories
       = (Routes.success 200 (Obj [("results", Arr rows); ("pagination", summary)])
            message, memories)
       /\ get summary "current_page" = int 1
       /\ Z.of_nat (List.length rows) <= 2.
Proof.
  intros query. split; [reflexivity |]. split; [reflexivity |].
  destruct (Rows.important_and_recent_answer_the_first_page memories ann query 2
              eq_refl eq_refl ltac:(lia))
    as [(rows & summary & message & Hrun & Hpage & _ & Hlen) _].
  exists rows, summary, message. repeat split; assumption.
Defined.

(** A type that no memory has, asked for ten rows after the first twenty. *)
Lemma no_memory_of_an_unknown_type :
  let query := Obj [("offset", Str "20"); ("limit", Str "10")] in
  "dream"%string <> ""%string
  /\ exists answer,
       Routes.get_type "dream" query memories
       = (Routes.success 200 answer "Found 0 dream memory embeddings", memories)
       /\ get answer "results" = Arr []
       /\ get (get answer "pagination") "current_page" = int 3
       /\ get (get answer "pagination") "has_previous" = Bool true.
Proof.
  intros query. split; [discriminate |].
  eexists. split.
  - apply (Rows.any_type_is_taken memories "dream" query 10 20 eq_refl
             ltac:(discriminate)).
    + repeat constructor; (intros [E | [l [E _]]]; discriminate E).
    + reflexivity.
    + reflexivity.
    + lia.
    + lia.
    + unfold max_safe_integer. lia.
  - repeat split.
Defined.

(** The three memories by importance, the least first. *)
Lemma memories_by_importance :
  let options := Obj [("sort_by", Str "importance_score"); ("sort_order", Str "asc")] in
  exists answer rows,
    fst (Service.queryMemoryEmbeddings options memories) = Ok answer
    /\ get answer "results" = Arr rows
    /\ in_order "importance_score" true rows.
Proof.
  intros options. eexists.
  destruct (Order.rows_come_in_the_order_asked_for memories options _
              "importance_score" eq_refl eq_refl ltac:(simpl; tauto)
              ltac:(repeat constructor; discriminate))
    as (rows & Hrows & Horder).
  exists rows. split; [reflexivity |]. split; assumption.
Defined.

(** A fourth memory, created and read. *)
Lemma a_fourth_memory_is_read_back :
  let body := memory bob "emotion" (1 # 2) (1 # 2) in
  Joi.validate Validation.memoryEmbeddingSchema body = []
  /\ no_document "m4" memories
  /\ exists created record c',
       Routes.post_create (stamp "m4" 4000) body memories
       = (Routes.success 201 created "Memory embedding created successfully", c')
       /\ Routes.get_by_id "m4" c'
          = (Json 200 (Obj [("success", Bool true); ("data", record)]), c')
       /\ get record "user_id" = Str bob
       /\ get record "relationships" = Arr []
       /\ get record "access_frequency" = int 0.
Proof.
  intros body.
  assert (Hvalid : Joi.validate Validation.memoryEmbeddingSchema body = [])
    by (vm_compute; reflexivity).
  assert (Hfree : no_document "m4" memories) by (vm_compute; reflexivity).
  split; [exact Hvalid |]. split; [exact Hfree |].
  destruct (RoundTrip.a_created_memory_is_read_back (stamp "m4" 4000) body memories
              Hvalid ltac:(discriminate) eq_refl Hfree)
    as (created & record & c' & Hpost & Hget & _ & Hgiven & Hrel & _ & _ & Hfreq & _).
  exists created, record, c'. split; [exact Hpost |]. split; [exact Hget |].
  split; [exact (Hgiven "user_id" ltac:(simpl; tauto)) |].
  split; [exact Hrel |]. exact (Hfreq eq_refl).
Defined.

(** A fourth memory, created and deleted. *)
Lemma a_fourth_memory_is_deleted :
  let body := memory bob "emotion" (1 # 2) (1 # 2) in
  no_document "m4" memories
  /\ exists answer,
       Routes.delete_by_id "m4"
         (snd (Routes.post_create (stamp "m4" 4000) body memories))
       = (Routes.success 200 answer "Memory embedding deleted successfully", memories)
       /\ get answer "deletedCount" = int 1.
Proof.
  intros body.
  assert (Hfree : no_document "m4" memories) by (vm_compute; reflexivity).
  split; [exact Hfree |]. eexists. split.
  - apply (RoundTrip.a_created_memory_is_deleted_whole (stamp "m4" 4000) body memories);
      [vm_compute; reflexivity | discriminate | reflexivity | exact Hfree].
  - reflexivity.
Defined.

(** Two records stored in one batch. *)
Lemma a_batch_of_two :
  Validation.validate Validation.batchSchema two_records = None
  /\ exists answer message c',
       Routes.post_batch batch_stamps two_records memories
       = (Routes.success 201 answer message, c')
       /\ List.length (docs c') = 5%nat
       /\ get answer "inserted_ids" = Arr [Str "m5"; Str "m6"]
       /\ message = "Successfully created 2 memory embeddings".
Proof.
  assert (Hvalid : Validation.validate Validation.batchSchema two_records = None)
    by (vm_compute; reflexivity).
  split; [exact Hvalid |].
  destruct (RoundTrip.a_batch_is_stored_in_order batch_stamps two_records _ memories
              Hvalid eq_refl eq_refl ltac:(vm_compute; reflexivity))
    as (answer & message & c' & Hpost & Hdocs & _ & Hids & _ & Hmessage).
  exists answer, message, c'. split; [exact Hpost |].
  split; [rewrite Hdocs; reflexivity |]. split; [exact Hids | exact Hmessage].
Defined.

(** A search that names no limit. *)
Lemma a_search_without_a_limit :
  let body := Obj [("feature_vector", vector (1 # 2))] in
  Validation.validate Validation.similaritySearchSchema body = None
  /\ exists answer message rows,
       Routes.post_similarity body memories = (Routes.success 200 answer message, memories)
       /\ get answer "results" = Arr rows
       /\ (List.length rows <= 10)%nat.
Proof.
  intros body.
  assert (Hvalid : Validation.validate Validation.similaritySearchSchema body = None)
    by (vm_compute; reflexivity).
  split; [exact Hvalid |].
  destruct (Search.an_accepted_search_is_answered body memories Hvalid
              ltac:(discriminate) (or_introl eq_refl) eq_refl)
    as (answer & message & rows & Hpost & _ & Hrows & _ & _ & Hlen).
  exists answer, message, rows. split; [exact Hpost |]. split; [exact Hrows |].
  exact (Hlen eq_refl).
Defined.

(** A lookup and the statistics while the database cannot be reached. *)
Lemma nothing_is_answered_when_unreachable :
  outage unreachable = Some "getaddrinfo ENOTFOUND"
  /\ Routes.get_by_id "m1" unreachable
     = (Next "Failed to get memory embedding: getaddrinfo ENOTFOUND", unreachable)
  /\ Routes.get_stats 5000 unreachable
     = (Next "Failed to get statistics: getaddrinfo ENOTFOUND", unreachable).
Proof.
  destruct (Outage.an_unreachable_database_fails_every_request unreachable _ eq_refl)
    as (_ & Hstats & Hid & _).
  split; [reflexivity |]. split; [exact (proj1 (Hid "m1")) | exact (Hstats 5000)].
Defined.

(** A memory of the sample passes the create rules. *)
Lemma a_memory_is_well_formed :
  Joi.validate Validation.memoryEmbeddingSchema (memory ann "event" (1 # 2) (1 # 2)) = []
  /\ well_formed (memory ann "event" (1 # 2) (1 # 2)).
Proof.
  assert (Hvalid : Joi.validate Validation.memoryEmbeddingSchema
                     (memory ann "event" (1 # 2) (1 # 2)) = [])
    by (vm_compute; reflexivity).
  split; [exact Hvalid |].
  apply (Accepted.an_accepted_record_is_well_formed _ Hvalid). discriminate.
Defined.

(** The first memory, updated and read. *)
Lemma an_update_is_read_back :
  let body := Obj [("content_summary", Str "a walk by the sea")] in
  Validation.validate Validation.updateMemoryEmbeddingSchema body = None
  /\ stored (Str "m1") memories = Some m1
  /\ exists record c',
       Routes.put_by_id 5000 "m1" body memories
       = (Routes.success 200 record "Memory embedding updated successfully", c')
       /\ Routes.get_by_id "m1" c'
          = (Json 200 (Obj [("success", Bool true); ("data", record)]), c')
       /\ get record "id" = Str "m1"
       /\ List.length (docs c') = 3%nat.
Proof.
  intros body.
  destruct (RoundTrip.an_updated_memory_is_read_back 5000 "m1" body memories m1
              eq_refl ltac:(discriminate) eq_refl eq_refl)
    as (record & c' & Hput & Hget & Hid & _ & Hlen).
  split; [reflexivity |]. split; [reflexivity |].
  exists record, c'. repeat split; assumption.
Defined.

(** A search among the memories of Ann. *)
Lemma a_search_among_the_memories_of_ann :
  let options := Obj [("filters", Obj [("user_id", Str ann)])] in
  exists answer rows,
    fst (Service.findSimilarMemoryEmbeddings (vector 1) options memories) = Ok answer
    /\ get answer "results" = Arr rows
    /\ Forall (fun row => names (get row "user_id") (Str ann)) rows.
Proof.
  intros options. eexists.
  destruct (Search.a_search_keeps_to_its_filters memories (vector 1) options _ eq_refl)
    as (rows & Hrows & Huser & _).
  exists rows. split; [reflexivity |]. split; [exact Hrows |].
  apply (Huser ann eq_refl). discriminate.
Defined.

(** A query for fifty rows by importance. *)
Lemma a_query_within_its_bounds :
  let query := Obj [("limit", Str "50"); ("sort_by", Str "importance_score")] in
  Validation.validateQuery Validation.querySchema query = None
  /\ bounded query.
Proof.
  intros query.
  assert (Hvalid : Validation.validateQuery Validation.querySchema query = None)
    by (vm_compute; reflexivity).
  split; [exact Hvalid |].
  apply (Accepted.an_accepted_query_is_bounded _ Hvalid). discriminate.
Defined.

End Instances.
